(** * Kyverno rule-evaluation engine: arithmetic operands, [items], JSON-patch
    handler, validating for-each, anyPattern and the image-verification loop.

    A shallow embedding of the Go sources
    - [pkg/engine/jmespath/arithmetic.go] and [functions.go],
    - [pkg/engine/mutate/patch/patches.go],
    - the resource validator of [pkg/engine/handlers/validation],
    - [pkg/engine/image_verify.go],
    followed by the properties the specification states about them. *)

From Stdlib Require Import ZArith Lia Bool List.
From Stdlib Require Import SpecFloat DecimalString.
From stdpp Require Import base option list strings gmap sorting pretty.

Local Open Scope Z_scope.

(* ================================================================== *)
(** * Part I: the embedding                                            *)
(* ================================================================== *)

(** ** Go's [float64] and [int64] *)

(** [float64] is IEEE-754 binary64.  The Standard Library's [spec_float]
    at precision 53 and maximal exponent 1024 is that format; all
    operations round to nearest, ties to even, as Go's do. *)
Module Float64.

Definition prec : Z := 53.
Definition emax : Z := 1024.

Definition float64 : Type := spec_float.

Definition add : float64 -> float64 -> float64 := SFadd prec emax.
Definition sub : float64 -> float64 -> float64 := SFsub prec emax.
Definition mul : float64 -> float64 -> float64 := SFmul prec emax.
Definition div : float64 -> float64 -> float64 := SFdiv prec emax.

(** Go's [==] on floats: false with a NaN on either side, [+0 == -0]. *)
Definition eqb : float64 -> float64 -> bool := SFeqb.

Definition zero : float64 := S754_zero false.

Definition min_int64 : Z := - 2 ^ 63.
Definition max_int64 : Z := 2 ^ 63 - 1.

(** [%] on [int64] truncates towards zero. *)
Definition int64_rem (a b : Z) : Z := Z.rem a b.

(** Two's-complement wrap-around of [+], [-] on [int64]. *)
Definition wrap64 (z : Z) : Z := (z + 2 ^ 63) mod 2 ^ 64 - 2 ^ 63.

(** [float64(i)] for an integer [i]: the nearest float, ties to even. *)
Definition of_int (i : Z) : float64 := binary_normalize prec emax i 0 false.

(** The integer part of a finite float (rounding towards zero). *)
Definition trunc (f : float64) : option Z :=
  match f with
  | S754_zero _ => Some 0
  | S754_finite s m e =>
      Some (cond_Zopp s
              (match e with
               | Z0 => Zpos m
               | Zpos _ => Zpos m * 2 ^ e
               | Zneg p => Zpos m / 2 ^ (Zpos p)
               end))
  | S754_infinity _ | S754_nan => None
  end.

(** [int64(f)]: the fraction is discarded.  When the value does not fit
    (or is NaN or infinite) the Go specification leaves the result to the
    implementation; amd64's conversion instruction yields
    [0x8000000000000000], which is what is modelled. *)
Definition to_int64 (f : float64) : Z :=
  match trunc f with
  | Some z => if (min_int64 <=? z) && (z <=? max_int64) then z else min_int64
  | None => min_int64
  end.

(** A float that is finite and has a non-zero fractional part. *)
Definition has_fraction (f : float64) : bool :=
  match f with
  | S754_finite _ m (Zneg p) => negb (Zpos m mod 2 ^ (Zpos p) =? 0)
  | _ => false
  end.

(** [is_int64 f z]: [f] is a well-formed float whose value is exactly the
    integer [z], and [z] fits [int64]. *)
Definition is_int64 (f : float64) (z : Z) : Prop :=
  valid_binary prec emax f = true /\
  has_fraction f = false /\
  trunc f = Some z /\
  min_int64 <= z <= max_int64.

End Float64.
Export Float64.

Set Warnings "-register-all".

(** ** Results, errors and JSON values *)

(** A Go [(T, error)] pair of which exactly one side is meaningful. *)
Inductive res (E A : Type) : Type :=
  | Ok (a : A)
  | Err (e : E).
Arguments Ok {E A} a.
Arguments Err {E A} e.

(** The error kinds of the expression library ([formatError]'s first
    argument).  [error.go] is not part of the excerpt; only the identity of
    the kind, the function name and the extra arguments are kept. *)
Inductive ErrorKind :=
  | genericError
  | typeMismatchError
  | zeroDivisionError
  | nonIntModuloError
  | invalidArgumentTypeError.

Inductive error :=
  | formatError (kind : ErrorKind) (function : string) (details : list string)
  | libError (msg : string).

Definition kind_of (e : error) : option ErrorKind :=
  match e with
  | formatError k _ _ => Some k
  | libError _ => None
  end.

(** [interface{}] as produced by [encoding/json]: the untyped document
    tree of the engine. *)
Inductive value :=
  | VNull
  | VBool (b : bool)
  | VNumber (f : float64)
  | VString (s : string)
  | VArray (l : list value)
  | VObject (m : gmap string value).

(** ** Arithmetic operands ([arithmetic.go]) *)

(** [time.Duration] is an [int64] count of nanoseconds. *)
Module Duration.

Definition Duration : Type := Z.

Definition Second : Z := 1000000000.

(** [d.Seconds()]:
    [sec := d / Second; nsec := d % Second;
     return float64(sec) + float64(nsec)/1e9]. *)
Definition Seconds (d : Duration) : float64 :=
  add (of_int (Z.quot d Second))
      (div (of_int (Z.rem d Second)) (of_int 1000000000)).

(** [time.Duration(f)] for a float [f]. *)
Definition of_float (f : float64) : Duration := to_int64 f.

End Duration.

(** What the code uses of [k8s.io/apimachinery]'s [resource.Quantity], of
    [gopkg.in/inf.v0]'s [Dec], of [fmt] and of [time.ParseDuration].  These
    are third-party packages; the operand code is written against this
    interface and the properties below hold for every implementation of
    it. *)
Class QuantityLib := {
  Quantity : Type;
  Dec : Type;
  Format : Type;
  (** [resource.ParseQuantity] *)
  ParseQuantity : string -> res string Quantity;
  (** [q.Add(y)], [q.Sub(y)]: the receiver after the update *)
  Quantity_Add : Quantity -> Quantity -> Quantity;
  Quantity_Sub : Quantity -> Quantity -> Quantity;
  Quantity_AsDec : Quantity -> Dec;
  Quantity_ToDec : Quantity -> Quantity;
  Quantity_AsApproximateFloat64 : Quantity -> float64;
  Quantity_Format : Quantity -> Format;
  NewDecimalQuantity : Dec -> Format -> Quantity;
  NewQuantity : Z -> Format -> Quantity;
  Dec_Mul : Dec -> Dec -> Dec;
  (** [z.QuoRound(x, y, scale, inf.RoundDown)] *)
  Dec_QuoRoundDown : Dec -> Dec -> Z -> Dec;
  Dec_Scale : Dec -> Z;
  (** [fmt.Sprintf("%v", f)] for a [float64] *)
  Sprintf_v : float64 -> string;
  (** [time.ParseDuration] *)
  ParseDuration : string -> res string Duration.Duration
}.

Section Arithmetic.
Context `{QuantityLib}.

(** The three implementations of the [Operand] interface. *)
Inductive Operand :=
  | OQuantity (q : Quantity)
  | ODuration (d : Duration.Duration)
  | OScalar (f : float64).

(** What an operation hands back as [interface{}]: a [float64], or the
    [String()] of a quantity or of a duration.  The rendering to text is
    the libraries'; the embedding keeps the value that is rendered. *)
Inductive Result :=
  | RFloat (f : float64)
  | RQuantityString (q : Quantity)
  | RDurationString (d : Duration.Duration).

(** Function names of [functions.go] used in error messages. *)
Definition add_name : string := "add".
Definition sum_name : string := "sum".
Definition subtract_name : string := "subtract".
Definition multiply_name : string := "multiply".
Definition divide_name : string := "divide".
Definition modulo_name : string := "modulo".

Definition Quantity_Add_op (op1 : Quantity) (op2 : Operand) (operator : string)
  : res error Result :=
  match op2 with
  | OQuantity v => Ok (RQuantityString (Quantity_Add op1 v))
  | _ => Err (formatError typeMismatchError operator [])
  end.

Definition Duration_Add_op (op1 : Duration.Duration) (op2 : Operand) (operator : string)
  : res error Result :=
  match op2 with
  | ODuration v => Ok (RDurationString (wrap64 (op1 + v)))
  | _ => Err (formatError typeMismatchError operator [])
  end.

Definition Scalar_Add_op (op1 : float64) (op2 : Operand) (operator : string)
  : res error Result :=
  match op2 with
  | OScalar v => Ok (RFloat (add op1 v))
  | _ => Err (formatError typeMismatchError operator [])
  end.

Definition Add (op1 op2 : Operand) (operator : string) : res error Result :=
  match op1 with
  | OQuantity q => Quantity_Add_op q op2 operator
  | ODuration d => Duration_Add_op d op2 operator
  | OScalar f => Scalar_Add_op f op2 operator
  end.

Definition Quantity_Subtract (op1 : Quantity) (op2 : Operand) : res error Result :=
  match op2 with
  | OQuantity v => Ok (RQuantityString (Quantity_Sub op1 v))
  | _ => Err (formatError typeMismatchError subtract_name [])
  end.

Definition Duration_Subtract (op1 : Duration.Duration) (op2 : Operand) : res error Result :=
  match op2 with
  | ODuration v => Ok (RDurationString (wrap64 (op1 - v)))
  | _ => Err (formatError typeMismatchError subtract_name [])
  end.

Definition Scalar_Subtract (op1 : float64) (op2 : Operand) : res error Result :=
  match op2 with
  | OScalar v => Ok (RFloat (sub op1 v))
  | _ => Err (formatError typeMismatchError subtract_name [])
  end.

Definition Subtract (op1 op2 : Operand) : res error Result :=
  match op1 with
  | OQuantity q => Quantity_Subtract q op2
  | ODuration d => Duration_Subtract d op2
  | OScalar f => Scalar_Subtract f op2
  end.

Definition Quantity_Multiply (op1 : Quantity) (op2 : Operand) : res error Result :=
  match op2 with
  | OScalar v =>
      match ParseQuantity (Sprintf_v v) with
      | Err err => Err (libError err)
      | Ok q =>
          let prod := Dec_Mul (Quantity_AsDec op1) (Quantity_AsDec q) in
          Ok (RQuantityString (NewDecimalQuantity prod (Quantity_Format op1)))
      end
  | _ => Err (formatError typeMismatchError multiply_name [])
  end.

Definition Duration_Multiply (op1 : Duration.Duration) (op2 : Operand) : res error Result :=
  match op2 with
  | OScalar v =>
      let seconds := mul (Duration.Seconds op1) v in
      Ok (RDurationString (Duration.of_float (mul seconds (of_int Duration.Second))))
  | _ => Err (formatError typeMismatchError multiply_name [])
  end.

Definition Scalar_Multiply (op1 : float64) (op2 : Operand) : res error Result :=
  match op2 with
  | OScalar v => Ok (RFloat (mul op1 v))
  | OQuantity v => Quantity_Multiply v (OScalar op1)
  | ODuration v => Duration_Multiply v (OScalar op1)
  end.

Definition Multiply (op1 op2 : Operand) : res error Result :=
  match op1 with
  | OQuantity q => Quantity_Multiply q op2
  | ODuration d => Duration_Multiply d op2
  | OScalar f => Scalar_Multiply f op2
  end.

Definition Quantity_Divide (op1 : Quantity) (op2 : Operand) : res error Result :=
  match op2 with
  | OQuantity v =>
      let divisor := Quantity_AsApproximateFloat64 v in
      if eqb divisor zero then Err (formatError zeroDivisionError divide_name [])
      else
        let dividend := Quantity_AsApproximateFloat64 op1 in
        Ok (RFloat (div dividend divisor))
  | OScalar v =>
      if eqb v zero then Err (formatError zeroDivisionError divide_name [])
      else
        match ParseQuantity (Sprintf_v v) with
        | Err err => Err (libError err)
        | Ok q =>
            (* the larger of the two scales, taken through [math.Max] on
               floats, which is exact on 32-bit scales *)
            let scale := Z.max (Dec_Scale (Quantity_AsDec op1)) (Dec_Scale (Quantity_AsDec q)) in
            let quo := Dec_QuoRoundDown (Quantity_AsDec op1) (Quantity_AsDec q) scale in
            Ok (RQuantityString (NewDecimalQuantity quo (Quantity_Format op1)))
        end
  | ODuration _ => Err (formatError typeMismatchError divide_name [])
  end.

Definition Duration_Divide (op1 : Duration.Duration) (op2 : Operand) : res error Result :=
  match op2 with
  | ODuration v =>
      if eqb (Duration.Seconds v) zero then Err (formatError zeroDivisionError divide_name [])
      else Ok (RFloat (div (Duration.Seconds op1) (Duration.Seconds v)))
  | OScalar v =>
      if eqb v zero then Err (formatError zeroDivisionError divide_name [])
      else
        let seconds := div (Duration.Seconds op1) v in
        Ok (RDurationString (Duration.of_float (mul seconds (of_int Duration.Second))))
  | OQuantity _ => Err (formatError typeMismatchError divide_name [])
  end.

Definition Scalar_Divide (op1 : float64) (op2 : Operand) : res error Result :=
  match op2 with
  | OScalar v =>
      if eqb v zero then Err (formatError zeroDivisionError divide_name [])
      else Ok (RFloat (div op1 v))
  | _ => Err (formatError typeMismatchError divide_name [])
  end.

Definition Divide (op1 op2 : Operand) : res error Result :=
  match op1 with
  | OQuantity q => Quantity_Divide q op2
  | ODuration d => Duration_Divide d op2
  | OScalar f => Scalar_Divide f op2
  end.

Definition Quantity_Modulo (op1 : Quantity) (op2 : Operand) : res error Result :=
  match op2 with
  | OQuantity v =>
      let f1 := Quantity_AsApproximateFloat64 (Quantity_ToDec op1) in
      let f2 := Quantity_AsApproximateFloat64 (Quantity_ToDec v) in
      let i1 := to_int64 f1 in
      let i2 := to_int64 f2 in
      if negb (eqb f1 (of_int i1)) then Err (formatError nonIntModuloError modulo_name [])
      else if negb (eqb f2 (of_int i2)) then Err (formatError nonIntModuloError modulo_name [])
      else if i2 =? 0 then Err (formatError zeroDivisionError modulo_name [])
      else Ok (RQuantityString (NewQuantity (int64_rem i1 i2) (Quantity_Format op1)))
  | _ => Err (formatError typeMismatchError modulo_name [])
  end.

Definition Duration_Modulo (op1 : Duration.Duration) (op2 : Operand) : res error Result :=
  match op2 with
  | ODuration v =>
      if v =? 0 then Err (formatError zeroDivisionError modulo_name [])
      else Ok (RDurationString (int64_rem op1 v))
  | _ => Err (formatError typeMismatchError modulo_name [])
  end.

Definition Scalar_Modulo (op1 : float64) (op2 : Operand) : res error Result :=
  match op2 with
  | OScalar v =>
      let val1 := to_int64 op1 in
      let val2 := to_int64 v in
      if negb (eqb op1 (of_int val1)) then Err (formatError nonIntModuloError modulo_name [])
      else if negb (eqb v (of_int val2)) then Err (formatError nonIntModuloError modulo_name [])
      else if val2 =? 0 then Err (formatError zeroDivisionError modulo_name [])
      else Ok (RFloat (of_int (int64_rem val1 val2)))
  | _ => Err (formatError typeMismatchError modulo_name [])
  end.

Definition Modulo (op1 op2 : Operand) : res error Result :=
  match op1 with
  | OQuantity q => Quantity_Modulo q op2
  | ODuration d => Duration_Modulo d op2
  | OScalar f => Scalar_Modulo f op2
  end.

End Arithmetic.

(** ** The expression functions ([functions.go]) *)

(** Go compares strings byte by byte; [sort.Strings] sorts by that order. *)
Definition string_le (s1 s2 : string) : Prop := String.leb s1 s2 = true.

#[global] Instance string_le_dec : RelDecision string_le.
Proof. intros s1 s2. unfold string_le. apply _. Defined.

Definition sort_Strings (keys : list string) : list string :=
  merge_sort string_le keys.

(** The [reflect.Kind]s that [validateArg] is asked for. *)
Inductive Kind := KFloat64 | KString.

Definition items_name : string := "items".

Section Functions.
Context `{QuantityLib}.

(** Modelled from the spec: [validateArg] is defined outside the excerpt.
    Following section 4.1 it checks that the argument at [index] exists and
    has the expected JSON type, and fails with [InvalidArgumentType]
    naming the function, the position and the expected type otherwise. *)
Definition validateArg (f : string) (arguments : list value) (index : nat)
    (expectedType : Kind) : res error value :=
  match arguments !! index, expectedType with
  | Some (VNumber x), KFloat64 => Ok (VNumber x)
  | Some (VString s), KString => Ok (VString s)
  | _, KFloat64 => Err (formatError invalidArgumentTypeError f [pretty (S index); "float64"])
  | _, KString => Err (formatError invalidArgumentTypeError f [pretty (S index); "string"])
  end.

(** One round of the loop of [ParseArithemticOperands]: the operand read
    from [arguments[i]], or [None] where the code leaves [op[i]] nil. *)
Definition parseOperand (arguments : list value) (i : nat) : option Operand :=
  match validateArg divide_name arguments i KFloat64 with
  | Ok (VNumber x) => Some (OScalar x)
  | Ok _ => None
  | Err _ =>
      match validateArg divide_name arguments i KString with
      | Ok (VString s) =>
          match ParseQuantity s with
          | Ok q => Some (OQuantity q)
          | Err _ =>
              match ParseDuration s with
              | Ok d => Some (ODuration d)
              | Err _ => None
              end
          end
      | _ => None
      end
  end.

Definition ParseArithemticOperands (arguments : list value) (operator : string)
  : res error (Operand * Operand) :=
  match parseOperand arguments 0, parseOperand arguments 1 with
  | Some op0, Some op1 => Ok (op0, op1)
  | _, _ => Err (formatError genericError operator ["invalid operands"])
  end.

Definition _jpAdd (arguments : list value) (operator : string) : res error Result :=
  match ParseArithemticOperands arguments operator with
  | Err err => Err err
  | Ok (op1, op2) => Add op1 op2 operator
  end.

Definition jpAdd (arguments : list value) : res error Result :=
  _jpAdd arguments add_name.

Definition jpSubtract (arguments : list value) : res error Result :=
  match ParseArithemticOperands arguments subtract_name with
  | Err err => Err err
  | Ok (op1, op2) => Subtract op1 op2
  end.

Definition jpMultiply (arguments : list value) : res error Result :=
  match ParseArithemticOperands arguments multiply_name with
  | Err err => Err err
  | Ok (op1, op2) => Multiply op1 op2
  end.

Definition jpDivide (arguments : list value) : res error Result :=
  match ParseArithemticOperands arguments divide_name with
  | Err err => Err err
  | Ok (op1, op2) => Divide op1 op2
  end.

Definition jpModulo (arguments : list value) : res error Result :=
  match ParseArithemticOperands arguments modulo_name with
  | Err err => Err err
  | Ok (op1, op2) => Modulo op1 op2
  end.

End Functions.

Section Items.
(** [for key := range input] visits every key of a Go map once, in an
    order the language leaves unspecified; [range_keys] is that order. *)
Variable range_keys : gmap string value -> list string.

(** The object literal [{keyName: k, valName: v}]: entries are stored in
    the order written, so [valName] wins when both names are the same. *)
Definition item (keyName valName : string) (k v : value) : value :=
  VObject (<[valName := v]> (<[keyName := k]> ∅)).

(** [input[key]] on a Go map: the zero value (nil) when absent. *)
Definition map_index (input : gmap string value) (key : string) : value :=
  default VNull (input !! key).

(** [float64(index)], [index] running over the positions of [l]. *)
Fixpoint items_of_array (keyName valName : string) (index : Z) (l : list value)
  : list value :=
  match l with
  | [] => []
  | v :: l' =>
      item keyName valName (VNumber (of_int index)) v
        :: items_of_array keyName valName (index + 1) l'
  end.

(** [jpItems]; [None] stands for the run-time panic of indexing
    [arguments] out of range (the function is registered with three
    arguments). *)
Definition jpItems (arguments : list value) : option (res error value) :=
  match arguments !! 1%nat with
  | None => None
  | Some (VString keyName) =>
      match arguments !! 2%nat with
      | None => None
      | Some (VString valName) =>
          match arguments !! 0%nat with
          | None => None
          | Some (VObject input) =>
              let keys := sort_Strings (range_keys input) in
              Some (Ok (VArray
                (map (fun key => item keyName valName (VString key) (map_index input key))
                     keys)))
          | Some (VArray input) =>
              Some (Ok (VArray (items_of_array keyName valName 0 input)))
          | Some _ =>
              Some (Err (formatError invalidArgumentTypeError items_name
                           ["0"; "Object or Array"]))
          end
      | Some _ =>
          Some (Err (formatError invalidArgumentTypeError items_name ["2"; "String"]))
      end
  | Some _ =>
      Some (Err (formatError invalidArgumentTypeError items_name ["1"; "String"]))
  end.

End Items.

(** ** Rule responses ([engineapi]) *)

Inductive RuleType := Mutation | Validation | Generation | ImageVerify.

Inductive RuleStatus :=
  | RuleStatusPass
  | RuleStatusFail
  | RuleStatusWarn
  | RuleStatusError
  | RuleStatusSkip.

#[global] Instance RuleStatus_eq_dec : EqDecision RuleStatus.
Proof. solve_decision. Defined.

(** The fields of [engineapi.RuleResponse] that the code of the excerpt
    assigns; the remaining ones (patches, statistics) keep their zero
    value. *)
Record RuleResponse := mkRuleResponse {
  Name : string;
  Type_ : RuleType;
  Message : string;
  Status : RuleStatus
}.

(** [unstructured.Unstructured]: [Object] is a Go map, nil in the empty
    document [unstructured.Unstructured{}]. *)
Record Unstructured := mkUnstructured {
  Object : option (gmap string value)
}.

Definition empty_Unstructured : Unstructured := mkUnstructured None.

(** ** The JSON-patch handler ([patches.go]) *)

Record patchesJSON6902Handler := mkPatchesJSON6902 {
  ruleName : string;
  patches : string;
  patchedResource : Unstructured
}.

Section Patch.
(** [ConvertPatchesToJSON] and [ProcessPatchJSON6902] live in files of the
    package that are not part of the excerpt. *)
Variable ConvertPatchesToJSON : string -> res string string.
Variable ProcessPatchJSON6902 :
  string -> string -> Unstructured -> RuleResponse * Unstructured.

Definition NewPatchesJSON6902 (ruleName : string) (patches : string)
    (patchedResource : Unstructured) : patchesJSON6902Handler :=
  mkPatchesJSON6902 ruleName patches patchedResource.

Definition Patch (h : patchesJSON6902Handler) : RuleResponse * Unstructured :=
  match ConvertPatchesToJSON (patches h) with
  | Err err =>
      (mkRuleResponse (ruleName h) Mutation err RuleStatusFail, empty_Unstructured)
  | Ok patchesJSON6902 =>
      ProcessPatchJSON6902 (ruleName h) patchesJSON6902 (patchedResource h)
  end.

End Patch.

(** ** Validation rules ([handlers/validation]) *)

(** [kyvernov1.ForEachValidation], with its raw JSON fields already read:
    [fe_AnyAllConditions] is the outcome of [datautils.ToMap] on the
    conditions and [fe_ForEach] the outcome of [api.DeserializeJSONArray] on
    the nested for-each declarations (nil, a list, or an error). *)
Inductive ForEachValidation (ContextEntry : Type) := mkForEachValidation {
  fe_List : string;
  fe_Context : list ContextEntry;
  fe_AnyAllConditions : res string value;
  fe_Pattern : value;
  fe_AnyPattern : value;
  fe_Deny : option value;
  fe_ForEach : res string (option (list (ForEachValidation ContextEntry)));
  fe_ElementScope : option bool
}.
Arguments mkForEachValidation {ContextEntry}.
Arguments fe_List {ContextEntry}.
Arguments fe_Context {ContextEntry}.
Arguments fe_AnyAllConditions {ContextEntry}.
Arguments fe_Pattern {ContextEntry}.
Arguments fe_AnyPattern {ContextEntry}.
Arguments fe_Deny {ContextEntry}.
Arguments fe_ForEach {ContextEntry}.
Arguments fe_ElementScope {ContextEntry}.

(** The part of [kyvernov1.Rule] that validation and image verification
    read.  [Validation_Deny] holds the deny conditions. *)
Record Rule (ContextEntry : Type) := mkRule {
  Rule_Name : string;
  Validation_Message : string;
  Validation_Pattern : value;
  Validation_AnyPattern : value;
  Validation_Deny : option value;
  Validation_ForEach : option (list (ForEachValidation ContextEntry));
  HasVerifyImages : bool
}.
Arguments mkRule {ContextEntry}.
Arguments Rule_Name {ContextEntry}.
Arguments Validation_Message {ContextEntry}.
Arguments Validation_Pattern {ContextEntry}.
Arguments Validation_AnyPattern {ContextEntry}.
Arguments Validation_Deny {ContextEntry}.
Arguments Validation_ForEach {ContextEntry}.
Arguments HasVerifyImages {ContextEntry}.

(** What [validate.MatchPattern] can return besides nil: a
    [*validate.PatternError] carrying a path and a skip flag, or any other
    error. *)
Inductive match_error :=
  | PatternError (err : string) (Path : string) (Skip : bool)
  | otherError (err : string).

Definition Error_ (e : match_error) : string :=
  match e with
  | PatternError err _ _ => err
  | otherError err => err
  end.

(** The collaborators of the validator that are outside the excerpt: the
    JSON context (a mutable store with checkpoints), the policy context, the
    context loader, the condition and list evaluators, variable
    substitution and the structural matcher.  The JSON context is one
    store, reached through every copy of the policy context; its state is
    passed along explicitly and is not part of [PolicyContext]. *)
Class EngineEnv := {
  JSONContext : Type;
  PolicyContext : Type;
  ContextEntry : Type;
  ctx_Checkpoint : JSONContext -> JSONContext;
  ctx_Restore : JSONContext -> JSONContext;
  ctx_Reset : JSONContext -> JSONContext;
  pc_Copy : PolicyContext -> PolicyContext;
  pc_Element : PolicyContext -> Unstructured;
  pc_NewResource : PolicyContext -> Unstructured;
  IsDeleteRequest : PolicyContext -> bool;
  IsEmptyUnstructured : Unstructured -> bool;
  (** [engineutils.AddElementToContext(ctx, element, index, nesting, scope)]:
      updates the copied policy context and the JSON context *)
  AddElementToContext :
    PolicyContext -> value -> nat -> nat -> option bool -> JSONContext ->
    (PolicyContext * option string) * JSONContext;
  (** the [engineapi.EngineContextLoader] handed to the handler *)
  contextLoader : list ContextEntry -> JSONContext -> option string * JSONContext;
  CheckPreconditions : JSONContext -> value -> res string bool;
  CheckDenyPreconditions : JSONContext -> value -> res string bool;
  EvaluateList : string -> JSONContext -> res string (list value);
  SubstituteAll : JSONContext -> value -> res string value;
  MatchPattern : option (gmap string value) -> value -> option match_error;
  (** how [internal.RuleError] joins its message and the error's text *)
  RuleError_message : string -> string -> string
}.

(** A Go computation on the shared JSON context: it returns or panics, and
    leaves the context in a new state either way. *)
Inductive outcome (A : Type) :=
  | Returned (a : A)
  | Panicked (msg : string).
Arguments Returned {A} a.
Arguments Panicked {A} msg.

Definition M (S A : Type) : Type := S -> outcome A * S.

Definition ret {S A} (a : A) : M S A := fun s => (Returned a, s).

Definition bind {S A B} (c : M S A) (k : A -> M S B) : M S B :=
  fun s =>
    match c s with
    | (Returned a, s') => k a s'
    | (Panicked msg, s') => (Panicked msg, s')
    end.

Definition panic {S A} (msg : string) : M S A := fun s => (Panicked msg, s).

Definition get {S} : M S S := fun s => (Returned s, s).

Definition modify {S} (f : S -> S) : M S unit := fun s => (Returned tt, f s).

(** [defer f()]: [f] runs when the function is left, by return or panic. *)
Definition defer {S A} (f : S -> S) (c : M S A) : M S A :=
  fun s => let '(o, s') := c s in (o, f s').

Notation "'do' x <- c ; k" := (bind c (fun x => k))
  (at level 10, x pattern, c at level 100, k at level 200).

(** [strings.Join] and [strings.HasSuffix]. *)
Fixpoint Join (elems : list string) (sep : string) : string :=
  match elems with
  | [] => ""
  | [s] => s
  | s :: rest => s +:+ sep +:+ Join rest sep
  end.

Definition HasSuffix (s suffix : string) : bool :=
  let n := String.length s in
  let k := String.length suffix in
  (k <=? n)%nat && String.eqb (String.substring (n - k) k s) suffix.

Definition is_nil (v : value) : bool :=
  match v with
  | VNull => true
  | _ => false
  end.

Section Validator.
Context `{EngineEnv}.

Record validator := mkValidator {
  rule : Rule ContextEntry;
  policyContext : PolicyContext;
  contextEntries : list ContextEntry;
  anyAllConditions : value;
  pattern : value;
  anyPattern : value;
  deny : option value;
  forEach : option (list (ForEachValidation ContextEntry));
  nesting : nat
}.

(** Modelled from the spec: the constructors of package [internal] are
    outside the excerpt.  Following the Rule Response shape of section 3
    they fill in the rule's name, the type, the message and the status
    their name says. *)
Definition internal_RuleResponse (r : Rule ContextEntry) (ruleType : RuleType)
    (msg : string) (status : RuleStatus) : RuleResponse :=
  mkRuleResponse (Rule_Name r) ruleType msg status.

Definition RuleError (r : Rule ContextEntry) (ruleType : RuleType)
    (msg : string) (err : string) : RuleResponse :=
  internal_RuleResponse r ruleType (RuleError_message msg err) RuleStatusError.

Definition RuleSkip (r : Rule ContextEntry) (ruleType : RuleType) (msg : string)
  : RuleResponse :=
  internal_RuleResponse r ruleType msg RuleStatusSkip.

Definition RulePass (r : Rule ContextEntry) (ruleType : RuleType) (msg : string)
  : RuleResponse :=
  internal_RuleResponse r ruleType msg RuleStatusPass.

Definition newValidator (ctx : PolicyContext) (r : Rule ContextEntry) : validator :=
  {| rule := r;
     policyContext := ctx;
     contextEntries := [];
     anyAllConditions := VNull;
     pattern := Validation_Pattern r;
     anyPattern := Validation_AnyPattern r;
     deny := Validation_Deny r;
     forEach := Validation_ForEach r;
     nesting := 0 |}.

Definition newForEachValidator (foreach : ForEachValidation ContextEntry)
    (nesting : nat) (r : Rule ContextEntry) (ctx : PolicyContext)
  : res string validator :=
  match fe_AnyAllConditions foreach with
  | Err err =>
      Err ("failed to convert ruleCopy.Validation.ForEachValidation.AnyAllConditions: " +:+ err)
  | Ok anyAllConditions =>
      match fe_ForEach foreach with
      | Err err =>
          Err ("failed to convert ruleCopy.Validation.ForEachValidation.AnyAllConditions: " +:+ err)
      | Ok nestedForEach =>
          Ok {| rule := r;
                policyContext := ctx;
                contextEntries := fe_Context foreach;
                anyAllConditions := anyAllConditions;
                pattern := fe_Pattern foreach;
                anyPattern := fe_AnyPattern foreach;
                deny := fe_Deny foreach;
                forEach := nestedForEach;
                nesting := nesting |}
      end
  end.

Definition loadContext (v : validator) : M JSONContext (option string) :=
  fun s => let '(err, s') := contextLoader (contextEntries v) s in (Returned err, s').

Definition getDenyMessage (v : validator) (deny : bool) : M JSONContext string :=
  if negb deny then
    ret ("validation rule '" +:+ Rule_Name (rule v) +:+ "' passed.")
  else
    let msg := Validation_Message (rule v) in
    if String.eqb msg "" then
      ret ("validation error: rule " +:+ Rule_Name (rule v) +:+ " failed")
    else
      do s <- get;
      match SubstituteAll s (VString msg) with
      | Err _ => ret msg
      | Ok (VString typed) => ret typed
      | Ok _ =>
          ret "the produced message didn't resolve to a string, check your policy definition."
      end.

Definition validateDeny (v : validator) (denyConditions : value)
  : M JSONContext (option RuleResponse) :=
  do s <- get;
  match CheckDenyPreconditions s denyConditions with
  | Err err =>
      ret (Some (RuleError (rule v) Validation "failed to check deny preconditions" err))
  | Ok deny =>
      if deny then
        do msg <- getDenyMessage v deny;
        ret (Some (internal_RuleResponse (rule v) Validation msg RuleStatusFail))
      else
        do msg <- getDenyMessage v deny;
        ret (Some (RulePass (rule v) Validation msg))
  end.

Definition buildErrorMessage (v : validator) (err : string) (path : string)
  : M JSONContext string :=
  if String.eqb (Validation_Message (rule v)) "" then
    if negb (String.eqb path "") then
      ret ("validation error: rule " +:+ Rule_Name (rule v) +:+ " failed at path " +:+ path)
    else
      ret ("validation error: rule " +:+ Rule_Name (rule v) +:+ " execution error: " +:+ err)
  else
    do s <- get;
    match SubstituteAll s (VString (Validation_Message (rule v))) with
    | Err _ =>
        ret ("validation error: variables substitution error in rule "
               +:+ Rule_Name (rule v) +:+ " execution error: " +:+ err)
    | Ok (VString msg) =>
        let msg := if negb (HasSuffix msg ".") then msg +:+ "." else msg in
        if negb (String.eqb path "") then
          ret ("validation error: " +:+ msg +:+ " rule " +:+ Rule_Name (rule v)
                 +:+ " failed at path " +:+ path)
        else
          ret ("validation error: " +:+ msg +:+ " rule " +:+ Rule_Name (rule v)
                 +:+ " execution error: " +:+ err)
    | Ok _ => panic "interface conversion: interface {} is not string"
    end.

Definition buildAnyPatternErrorMessage (r : Rule ContextEntry) (errors : list string)
  : string :=
  let errStr := Join errors " " in
  if String.eqb (Validation_Message r) "" then
    "validation error: " +:+ errStr
  else if HasSuffix (Validation_Message r) "." then
    "validation error: " +:+ Validation_Message r +:+ " " +:+ errStr
  else
    "validation error: " +:+ Validation_Message r +:+ ". " +:+ errStr.

(** [deserializeAnyPattern]: the document is marshalled and read back as
    a JSON array.  On a tree of JSON values this succeeds exactly on
    arrays and on null (which leaves the slice nil). *)
Definition deserializeAnyPattern (anyPattern : value) : res string (list value) :=
  match anyPattern with
  | VNull => Ok []
  | VArray l => Ok l
  | _ => Err "json: cannot unmarshal value into Go value of type []interface {}"
  end.

(** The loop of [validatePatterns] over the candidates of [anyPattern]:
    either the response of the first candidate that matches, or the
    failure and skip messages collected (in this order). *)
Fixpoint anyPattern_loop (v : validator) (resource : Unstructured) (idx : nat)
    (anyPatterns : list value) (failedAnyPatternsErrors skippedAnyPatternErrors : list string)
  : RuleResponse + (list string * list string) :=
  match anyPatterns with
  | [] => inr (failedAnyPatternsErrors, skippedAnyPatternErrors)
  | pattern :: rest =>
      match MatchPattern (Object resource) pattern with
      | None =>
          inl (RulePass (rule v) Validation
                 ("validation rule '" +:+ Rule_Name (rule v) +:+ "' anyPattern["
                    +:+ pretty idx +:+ "] passed."))
      | Some (PatternError err Path Skip) =>
          if Skip then
            let patternErr :=
              "rule " +:+ Rule_Name (rule v) +:+ "[" +:+ pretty idx +:+ "] skipped: " +:+ err in
            anyPattern_loop v resource (S idx) rest failedAnyPatternsErrors
              (skippedAnyPatternErrors ++ [patternErr])
          else
            let patternErr :=
              if String.eqb Path "" then
                "rule " +:+ Rule_Name (rule v) +:+ "[" +:+ pretty idx +:+ "] failed: " +:+ err
              else
                "rule " +:+ Rule_Name (rule v) +:+ "[" +:+ pretty idx +:+ "] failed at path "
                  +:+ Path in
            anyPattern_loop v resource (S idx) rest
              (failedAnyPatternsErrors ++ [patternErr]) skippedAnyPatternErrors
      | Some (otherError _) =>
          anyPattern_loop v resource (S idx) rest
            failedAnyPatternsErrors skippedAnyPatternErrors
      end
  end.

Definition validatePatterns (v : validator) (resource : Unstructured)
  : M JSONContext (option RuleResponse) :=
  if negb (is_nil (pattern v)) then
    match MatchPattern (Object resource) (pattern v) with
    | Some (PatternError err Path Skip) =>
        if Skip then ret (Some (RuleSkip (rule v) Validation err))
        else if String.eqb Path "" then
          do msg <- buildErrorMessage v err "";
          ret (Some (internal_RuleResponse (rule v) Validation msg RuleStatusError))
        else
          do msg <- buildErrorMessage v err Path;
          ret (Some (internal_RuleResponse (rule v) Validation msg RuleStatusFail))
    | Some (otherError _) =>
        (* [pe] is nil here and [pe.Path] is read *)
        panic "invalid memory address or nil pointer dereference"
    | None =>
        ret (Some (RulePass (rule v) Validation
                     ("validation rule '" +:+ Rule_Name (rule v) +:+ "' passed.")))
    end
  else
    let fallthrough :=
      ret (Some (RulePass (rule v) Validation (Validation_Message (rule v)))) in
    if negb (is_nil (anyPattern v)) then
      match deserializeAnyPattern (anyPattern v) with
      | Err err =>
          ret (Some (RuleError (rule v) Validation
                       "failed to deserialize anyPattern, expected type array" err))
      | Ok anyPatterns =>
          match anyPattern_loop v resource 0 anyPatterns [] [] with
          | inl resp => ret (Some resp)
          | inr (failedAnyPatternsErrors, skippedAnyPatternErrors) =>
              if (0 <? length skippedAnyPatternErrors)%nat
                 && (length failedAnyPatternsErrors =? 0)%nat then
                ret (Some (RuleSkip (rule v) Validation (Join skippedAnyPatternErrors " ")))
              else if (0 <? length failedAnyPatternsErrors)%nat then
                let msg := buildAnyPatternErrorMessage (rule v) failedAnyPatternsErrors in
                ret (Some (internal_RuleResponse (rule v) Validation msg RuleStatusFail))
              else fallthrough
          end
      end
    else fallthrough.

Definition validateResourceWithRule (v : validator)
  : M JSONContext (option RuleResponse) :=
  let element := pc_Element (policyContext v) in
  if negb (IsEmptyUnstructured element) then validatePatterns v element
  else if IsDeleteRequest (policyContext v) then ret None
  else validatePatterns v (pc_NewResource (policyContext v)).

(** [substitutePatterns] updates [v.pattern] or [v.anyPattern]; the
    assertion [i.(apiextensions.JSON)] panics on a nil result. *)
Definition substitutePatterns (v : validator)
  : M JSONContext (res string validator) :=
  do s <- get;
  if negb (is_nil (pattern v)) then
    match SubstituteAll s (pattern v) with
    | Err err => ret (Err err)
    | Ok VNull => panic "interface conversion: interface is nil"
    | Ok i =>
        ret (Ok {| rule := rule v; policyContext := policyContext v;
                   contextEntries := contextEntries v;
                   anyAllConditions := anyAllConditions v;
                   pattern := i; anyPattern := anyPattern v; deny := deny v;
                   forEach := forEach v; nesting := nesting v |})
    end
  else if negb (is_nil (anyPattern v)) then
    match SubstituteAll s (anyPattern v) with
    | Err err => ret (Err err)
    | Ok VNull => panic "interface conversion: interface is nil"
    | Ok i =>
        ret (Ok {| rule := rule v; policyContext := policyContext v;
                   contextEntries := contextEntries v;
                   anyAllConditions := anyAllConditions v;
                   pattern := pattern v; anyPattern := i; deny := deny v;
                   forEach := forEach v; nesting := nesting v |})
    end
  else ret (Ok v).

End Validator.

Section ForEach.
Context `{EngineEnv}.

(** [foreachValidator.validate(ctx)]: the validation of the validator
    built for one element from the for-each declaration [foreach].  The
    three functions below are written against it; [validate_foreach]
    closes the recursion. *)
Variable validate_nested :
  ForEachValidation ContextEntry -> validator -> M JSONContext (option RuleResponse).

(** The body of the [for index, element := range elements] loop of
    [validateElements], from position [index] on; [len] is
    [len(elements)]. *)
Definition validateElements_loop (v : validator)
    (foreach : ForEachValidation ContextEntry) (elementScope : option bool)
    (len : nat)
  : nat -> list value -> nat -> M JSONContext (RuleResponse * nat) :=
  fix loop (index : nat) (elements : list value) (applyCount : nat) {struct elements} :=
  match elements with
  | [] => ret (RulePass (rule v) Validation "", applyCount)
  | element :: rest =>
      let continue := loop (S index) rest in
      if is_nil element then continue applyCount
      else
        do _ <- modify ctx_Reset;
        let policyContext := pc_Copy (policyContext v) in
        do added <-
          (fun s => let '(r, s') :=
                      AddElementToContext policyContext element index (nesting v) elementScope s
                    in (Returned r, s'));
        let policyContext := fst added in
        match snd added with
        | Some err =>
            ret (RuleError (rule v) Validation "failed to process foreach" err, applyCount)
        | None =>
            match newForEachValidator foreach (nesting v + 1) (rule v) policyContext with
            | Err err =>
                ret (RuleError (rule v) Validation "failed to create foreach validator" err,
                     applyCount)
            | Ok foreachValidator =>
                do r <- validate_nested foreach foreachValidator;
                match r with
                | None => continue applyCount
                | Some r =>
                    if decide (Status r = RuleStatusSkip) then continue applyCount
                    else if decide (Status r <> RuleStatusPass) then
                      if decide (Status r = RuleStatusError) then
                        if (Z.of_nat index <? Z.of_nat len - 1) then continue applyCount
                        else
                          let msg := "validation failure: " +:+ Message r in
                          ret (internal_RuleResponse (rule v) Validation msg (Status r),
                               applyCount)
                      else
                        let msg := "validation failure: " +:+ Message r in
                        ret (internal_RuleResponse (rule v) Validation msg (Status r),
                             applyCount)
                    else continue (S applyCount)
                end
            end
        end
  end.

Definition validateElements (v : validator)
    (foreach : ForEachValidation ContextEntry) (elements : list value)
    (elementScope : option bool)
  : M JSONContext (RuleResponse * nat) :=
  do _ <- modify ctx_Checkpoint;
  defer ctx_Restore
    (validateElements_loop v foreach elementScope (length elements) 0 elements 0).

(** The [for _, foreach := range v.forEach] loop of [validateForEach],
    and what follows it. *)
Definition validateForEach_loop (v : validator)
  : list (ForEachValidation ContextEntry) -> nat -> M JSONContext (option RuleResponse) :=
  fix loop (foreachs : list (ForEachValidation ContextEntry)) (applyCount : nat)
      {struct foreachs} :=
  match foreachs with
  | [] =>
      if (applyCount =? 0)%nat then
        match forEach v with
        | None => ret None
        | Some _ => ret (Some (RuleSkip (rule v) Validation "rule skipped"))
        end
      else ret (Some (RulePass (rule v) Validation "rule passed"))
  | foreach :: rest =>
      do s <- get;
      match EvaluateList (fe_List foreach) s with
      | Err _ => loop rest applyCount
      | Ok elements =>
          do result <- validateElements v foreach elements (fe_ElementScope foreach);
          let resp := fst result in
          let count := snd result in
          if decide (Status resp <> RuleStatusPass) then ret (Some resp)
          else loop rest (applyCount + count)%nat
      end
  end.

(** Ranging over a nil slice runs no iteration. *)
Definition validateForEach (v : validator) : M JSONContext (option RuleResponse) :=
  match forEach v with
  | Some foreachs => validateForEach_loop v foreachs 0
  | None => validateForEach_loop v [] 0
  end.

(** The body of [(v *validator) validate(ctx)], the validation of nested
    validators being [validate_nested]. *)
Definition validate_with (v : validator) : M JSONContext (option RuleResponse) :=
  do err <- loadContext v;
  match err with
  | Some err => ret (Some (RuleError (rule v) Validation "failed to load context" err))
  | None =>
      do s <- get;
      match CheckPreconditions s (anyAllConditions v) with
      | Err err =>
          ret (Some (RuleError (rule v) Validation "failed to evaluate preconditions" err))
      | Ok preconditionsPassed =>
          if negb preconditionsPassed then
            ret (Some (RuleSkip (rule v) Validation "preconditions not met"))
          else
            match deny v with
            | Some denyConditions => validateDeny v denyConditions
            | None =>
                if negb (is_nil (pattern v)) || negb (is_nil (anyPattern v)) then
                  do r <- substitutePatterns v;
                  match r with
                  | Err err =>
                      ret (Some (RuleError (rule v) Validation
                                   "variable substitution failed" err))
                  | Ok v' => validateResourceWithRule v'
                  end
                else
                  match forEach v with
                  | Some _ => validateForEach v
                  | None => ret None
                  end
            end
      end
  end.

End ForEach.

Section Validate.
Context `{EngineEnv}.

Definition with_forEach (fv : validator)
    (nestedForEach : option (list (ForEachValidation ContextEntry))) : validator :=
  {| rule := rule fv; policyContext := policyContext fv;
     contextEntries := contextEntries fv; anyAllConditions := anyAllConditions fv;
     pattern := pattern fv; anyPattern := anyPattern fv; deny := deny fv;
     forEach := nestedForEach;
     nesting := nesting fv |}.

(** [validate] on the validator [fv] of one element of the for-each
    declaration [foreach].  The recursion follows the nesting of the
    declarations: [fv] is taken with the nested declarations of
    [foreach], which are its own when [newForEachValidator] built it from
    [foreach] (lemma [validate_foreach_newForEachValidator]). *)
Fixpoint validate_foreach (foreach : ForEachValidation ContextEntry) (fv : validator)
    {struct foreach} : M JSONContext (option RuleResponse) :=
  match fe_ForEach foreach with
  | Ok nestedForEach => validate_with validate_foreach (with_forEach fv nestedForEach)
  | Err _ => validate_with validate_foreach (with_forEach fv None)
  end.

(** [(v *validator) validate(ctx)]. *)
Definition validate (v : validator) : M JSONContext (option RuleResponse) :=
  validate_with validate_foreach v.

(** Modelled from the spec: [handlers.RuleResponses] is outside the
    excerpt; it collects the responses that are not nil. *)
Definition RuleResponses (rr : option RuleResponse) : list RuleResponse :=
  match rr with
  | Some r => [r]
  | None => []
  end.

(** [validateResourceHandler.Process]. *)
Definition Process (policyContext : PolicyContext) (resource : Unstructured)
    (r : Rule ContextEntry) : M JSONContext (Unstructured * list RuleResponse) :=
  let v := newValidator policyContext r in
  do rr <- validate v;
  ret (resource, RuleResponses rr).

End Validate.

(** ** The image-verification pass ([image_verify.go]) *)

Inductive ApplyRulesType := ApplyAll | ApplyOne.

#[global] Instance ApplyRulesType_eq_dec : EqDecision ApplyRulesType.
Proof. solve_decision. Defined.

(** [engineapi.PolicyResponse]: the responses appended so far and the
    counter that the loop reads ([resp.Stats.RulesAppliedCount]). *)
Record PolicyResponse := mkPolicyResponse {
  Rules : list RuleResponse;
  RulesAppliedCount : nat
}.

Definition NewPolicyResponse : PolicyResponse := mkPolicyResponse [] 0.

Section ImageVerify.
Context `{EngineEnv}.

(** Outside the excerpt: the policy with its apply-rules mode and its
    expanded rule list ([autogen.ComputeRules]), the image handler and its
    metadata, and [engine.invokeRuleHandler], which runs the handler the
    factory returns (or none) against the shared state. *)
Variable Policy : Type.
Variable pc_Policy : PolicyContext -> Policy.
Variable GetApplyRules : Policy -> ApplyRulesType.
Variable ComputeRules : Policy -> list (Rule ContextEntry).
Variable Handler : Type.
Variable ImageVerificationMetadata : Type.
Variable empty_ivm : ImageVerificationMetadata.
Variable NewMutateImageHandler :
  PolicyContext -> Unstructured -> Rule ContextEntry -> res string Handler.
Variable invokeRuleHandler :
  res string (option Handler) -> PolicyContext -> Unstructured -> Rule ContextEntry ->
  RuleType -> JSONContext * ImageVerificationMetadata ->
  (Unstructured * list RuleResponse) * (JSONContext * ImageVerificationMetadata).

(** Which responses [internal.AddRuleResponse] counts as applied. *)
Variable counts_as_applied : RuleResponse -> bool.

(** Modelled from the spec: [internal.AddRuleResponse] is outside the
    excerpt.  It appends the response to the policy response (section 4.5)
    and advances [RulesAppliedCount] for a counted response.  The time
    stamps it records are not modelled. *)
Definition AddRuleResponse (resp : PolicyResponse) (ruleResp : RuleResponse)
  : PolicyResponse :=
  mkPolicyResponse (Rules resp ++ [ruleResp])
    (if counts_as_applied ruleResp then S (RulesAppliedCount resp)
     else RulesAppliedCount resp).

Definition handlerFactory (policyContext : PolicyContext)
    (matchedResource : Unstructured) (r : Rule ContextEntry)
  : res string (option Handler) :=
  if negb (HasVerifyImages r) then Ok None
  else
    match NewMutateImageHandler policyContext matchedResource r with
    | Ok h => Ok (Some h)
    | Err err => Err err
    end.

(** The [for _, rule := range autogen.ComputeRules(policy)] loop. *)
Fixpoint verifyAndPatchImages_loop (policyContext : PolicyContext)
    (applyRules : ApplyRulesType) (rules : list (Rule ContextEntry))
    (resp : PolicyResponse) (matchedResource : Unstructured)
    (w : JSONContext * ImageVerificationMetadata)
  : PolicyResponse * (JSONContext * ImageVerificationMetadata) :=
  match rules with
  | [] => (resp, w)
  | r :: rest =>
      let '((resource, ruleResp), w') :=
        invokeRuleHandler (handlerFactory policyContext matchedResource r)
          policyContext matchedResource r ImageVerify w in
      let matchedResource := resource in
      let resp := fold_left AddRuleResponse ruleResp resp in
      if bool_decide (applyRules = ApplyOne) && (0 <? RulesAppliedCount resp)%nat
      then (resp, w')
      else verifyAndPatchImages_loop policyContext applyRules rest resp matchedResource w'
  end.

Definition verifyAndPatchImages (policyContext : PolicyContext) (s : JSONContext)
  : (PolicyResponse * ImageVerificationMetadata) * JSONContext :=
  let resp := NewPolicyResponse in
  let policy := pc_Policy policyContext in
  let matchedResource := pc_NewResource policyContext in
  let applyRules := GetApplyRules policy in
  let ivm := empty_ivm in
  let s := ctx_Checkpoint s in
  let '(resp, (s, ivm)) :=
    verifyAndPatchImages_loop policyContext applyRules (ComputeRules policy)
      resp matchedResource (s, ivm) in
  ((resp, ivm), ctx_Restore s).

End ImageVerify.

(** ** Stand-ins for the collaborators

    Small implementations of the interfaces above, used to run the
    embedding on concrete inputs. *)
Module Reference.

(** Whole-number quantities: a quantity is an integer, written in
    decimal; floats are printed only when they are whole. *)
Definition parse_int (s : string) : res string Z :=
  match DecimalString.NilEmpty.int_of_string s with
  | Some (Decimal.Pos Decimal.Nil) | Some (Decimal.Neg Decimal.Nil) | None =>
      Err "quantities must match the regular expression"
  | Some d => Ok (Z.of_int d)
  end.

Definition print_float (f : float64) : string :=
  match trunc f with
  | Some z => if has_fraction f then "fraction" else pretty z
  | None => "NaN"
  end.

#[global] Instance whole_quantities : QuantityLib := {|
  Quantity := Z;
  Dec := Z;
  Format := unit;
  ParseQuantity := parse_int;
  Quantity_Add := Z.add;
  Quantity_Sub := Z.sub;
  Quantity_AsDec := fun q => q;
  Quantity_ToDec := fun q => q;
  Quantity_AsApproximateFloat64 := of_int;
  Quantity_Format := fun _ => tt;
  NewDecimalQuantity := fun d _ => d;
  NewQuantity := fun z _ => z;
  Dec_Mul := Z.mul;
  Dec_QuoRoundDown := fun x y _ => Z.quot x y;
  Dec_Scale := fun _ => 0;
  Sprintf_v := print_float;
  ParseDuration := fun _ => Err "time: invalid duration"
|}.

(** An engine whose JSON context is the list that every list expression
    evaluates to, whose policy context is the element in scope, whose
    loader and preconditions always succeed, and whose matcher reads the
    verdict off the pattern: [true] matches, [false] is skip-worthy, a
    string fails at that path, anything else is an error of another
    kind. *)
Definition match_by_shape (_ : option (gmap string value)) (pattern : value)
  : option match_error :=
  match pattern with
  | VBool true => None
  | VBool false => Some (PatternError "anchor not satisfied" "" true)
  | VString path => Some (PatternError "mismatch" path false)
  | _ => Some (otherError "unsupported pattern")
  end.

#[global] Instance list_engine : EngineEnv := {|
  JSONContext := list value;
  PolicyContext := value;
  ContextEntry := unit;
  ctx_Checkpoint := fun s => s;
  ctx_Restore := fun s => s;
  ctx_Reset := fun s => s;
  pc_Copy := fun pc => pc;
  pc_Element := fun _ => empty_Unstructured;
  pc_NewResource := fun _ => mkUnstructured (Some ∅);
  IsDeleteRequest := fun _ => false;
  IsEmptyUnstructured := fun u => match Object u with None => true | Some _ => false end;
  AddElementToContext := fun _ element _ _ _ s => ((element, None), s);
  contextLoader := fun _ s => (None, s);
  CheckPreconditions := fun _ _ => Ok true;
  CheckDenyPreconditions := fun _ _ => Ok false;
  EvaluateList := fun _ s => Ok s;
  SubstituteAll := fun _ v => Ok v;
  MatchPattern := match_by_shape;
  RuleError_message := fun msg err => msg +:+ ": " +:+ err
|}.

Definition f1 : float64 := Eval vm_compute in of_int 1.
Definition f2 : float64 := Eval vm_compute in of_int 2.
Definition f3 : float64 := Eval vm_compute in of_int 3.
Definition f7 : float64 := Eval vm_compute in of_int 7.
Definition f7_5 : float64 := Eval vm_compute in div (of_int 15) (of_int 2).
Definition f1e19 : float64 := Eval vm_compute in of_int (10 ^ 19).

(** A for-each declaration over the list ["request.object.items"] whose
    elements are checked against [pattern]. *)
Definition foreach_pattern (pattern : value) : ForEachValidation unit :=
  mkForEachValidation "request.object.items" [] (Ok VNull) pattern VNull None (Ok None) None.

Definition rule_foreach (name : string) (pattern : value) : Rule unit :=
  mkRule name "" VNull VNull None (Some [foreach_pattern pattern]) false.

Definition rule_anyPattern (name : string) (candidates : list value) : Rule unit :=
  mkRule name "" VNull (VArray candidates) None None false.

Definition rule_without_validation (name : string) : Rule unit :=
  mkRule name "" VNull VNull None None false.

(** A nested validation that reads its verdict off the element in scope:
    [true] passes, a string is an error with that message, [false] is
    skipped, anything else gives no response. *)
Definition nested_by_element (_ : ForEachValidation unit) (fv : validator)
  : M (list value) (option RuleResponse) :=
  ret (match policyContext fv with
       | VBool true => Some (RulePass (rule fv) Validation "passed")
       | VBool false => Some (RuleSkip (rule fv) Validation "skipped")
       | VString msg => Some (internal_RuleResponse (rule fv) Validation msg RuleStatusError)
       | _ => None
       end).

(** A converter that accepts the empty patch list only, and a processor
    that leaves the document as it is. *)
Definition convert_empty_only (s : string) : res string string :=
  if String.eqb s "[]" then Ok s else Err "unexpected end of JSON input".

Definition process_nothing (name : string) (_ : string) (r : Unstructured)
  : RuleResponse * Unstructured :=
  (mkRuleResponse name Mutation "" RuleStatusPass, r).

Definition broken_patch : patchesJSON6902Handler :=
  mkPatchesJSON6902 "add-label" "[{" (mkUnstructured (Some ∅)).

(** An image handler that verifies every rule it is given and writes the
    rule's name into the metadata, which is the log of the rules
    evaluated; Pass and Fail responses count as applied. *)
Definition logging_invoke (_ : res string (option unit)) (_ : value)
    (resource : Unstructured) (r : Rule unit) (ruleType : RuleType)
    (w : list value * list string)
  : (Unstructured * list RuleResponse) * (list value * list string) :=
  ((resource, [mkRuleResponse (Rule_Name r) ruleType "verified" RuleStatusPass]),
   (fst w, snd w ++ [Rule_Name r])).

Definition pass_or_fail (r : RuleResponse) : bool :=
  match Status r with
  | RuleStatusPass | RuleStatusFail => true
  | _ => false
  end.

Definition image_rule (name : string) : Rule unit :=
  mkRule name "" VNull VNull None None true.

(** The image-verification loop in mode ApplyOne on these stand-ins,
    from an empty response and an empty log. *)
Definition image_run (rules : list (Rule unit))
  : PolicyResponse * (list value * list string) :=
  verifyAndPatchImages_loop unit (list string) (fun _ _ _ => Ok tt) logging_invoke
    pass_or_fail VNull ApplyOne rules NewPolicyResponse (mkUnstructured (Some ∅))
    ([], []).

(** Validators of rule ["r"]: with one for-each list, with an anyPattern
    of two candidates of which the second matches, and with no
    validation at all. *)
Definition v_foreach : validator := newValidator VNull (rule_foreach "r" VNull).

Definition v_anyPattern : validator :=
  newValidator VNull (rule_anyPattern "r" [VString "spec.replicas"; VBool true]).

Definition v_nothing : validator := newValidator VNull (rule_without_validation "r").

(** The validator made for the element ["boom"] of [v_foreach]. *)
Definition v_boom : validator :=
  mkValidator (rule v_foreach) (VString "boom") [] VNull VNull VNull None None 1.

(** The map [{"a": 1, "b": 2}] and the two objects [items] makes of it. *)
Definition ab_map : gmap string value :=
  <["a" := VNumber f1]> (<["b" := VNumber f2]> ∅).

Definition ab_items : list value :=
  [VObject (<["value" := VNumber f1]> (<["key" := VString "a"]> ∅));
   VObject (<["value" := VNumber f2]> (<["key" := VString "b"]> ∅))].

(** Two iteration orders of a map: the order of [map_to_list], and its
    reverse. *)
Definition range_forward (m : gmap string value) : list string := (map_to_list m).*1.
Definition range_backward (m : gmap string value) : list string :=
  reverse (map_to_list m).*1.

End Reference.

(** ** Vocabulary of the arithmetic properties *)

Inductive Tag := TScalar | TQuantity | TDuration.

Inductive Operator := OpAdd | OpSubtract | OpMultiply | OpDivide | OpModulo.

#[global] Instance Tag_eq_dec : EqDecision Tag.
Proof. solve_decision. Defined.

Definition operator_name (op : Operator) : string :=
  match op with
  | OpAdd => add_name
  | OpSubtract => subtract_name
  | OpMultiply => multiply_name
  | OpDivide => divide_name
  | OpModulo => modulo_name
  end.

(** The table written in the comments of [arithmetic.go]: the tag of the
    result for the pairs that are defined. *)
Definition legality (op : Operator) (t1 t2 : Tag) : option Tag :=
  match op, t1, t2 with
  | (OpAdd | OpSubtract | OpModulo), TQuantity, TQuantity => Some TQuantity
  | (OpAdd | OpSubtract | OpModulo), TDuration, TDuration => Some TDuration
  | (OpAdd | OpSubtract | OpModulo), TScalar, TScalar => Some TScalar
  | OpMultiply, TScalar, t | OpMultiply, t, TScalar => Some t
  | OpDivide, TQuantity, TQuantity => Some TScalar
  | OpDivide, TDuration, TDuration => Some TScalar
  | OpDivide, TScalar, TScalar => Some TScalar
  | OpDivide, TQuantity, TScalar => Some TQuantity
  | OpDivide, TDuration, TScalar => Some TDuration
  | _, _, _ => None
  end.

(** The table of section 4.1 of the specification, read as the claim reads
    it: add, subtract, divide and modulo on same-tag pairs only, multiply
    when one side at least is a scalar. *)
Definition legality_spec (op : Operator) (t1 t2 : Tag) : option Tag :=
  match op, t1, t2 with
  | (OpAdd | OpSubtract | OpModulo), TQuantity, TQuantity => Some TQuantity
  | (OpAdd | OpSubtract | OpModulo), TDuration, TDuration => Some TDuration
  | (OpAdd | OpSubtract | OpModulo), TScalar, TScalar => Some TScalar
  | OpMultiply, TScalar, t | OpMultiply, t, TScalar => Some t
  | OpDivide, TQuantity, TQuantity => Some TScalar
  | OpDivide, TDuration, TDuration => Some TScalar
  | OpDivide, TScalar, TScalar => Some TScalar
  | _, _, _ => None
  end.

Section ArithmeticVocabulary.
Context `{QuantityLib}.

Definition tag_of (o : Operand) : Tag :=
  match o with
  | OScalar _ => TScalar
  | OQuantity _ => TQuantity
  | ODuration _ => TDuration
  end.

Definition result_tag (r : Result) : Tag :=
  match r with
  | RFloat _ => TScalar
  | RQuantityString _ => TQuantity
  | RDurationString _ => TDuration
  end.

(** The five operations as the handlers [jpAdd] ... [jpModulo] call them. *)
Definition apply_operator (op : Operator) (op1 op2 : Operand) : res error Result :=
  match op with
  | OpAdd => Add op1 op2 add_name
  | OpSubtract => Subtract op1 op2
  | OpMultiply => Multiply op1 op2
  | OpDivide => Divide op1 op2
  | OpModulo => Modulo op1 op2
  end.



End ArithmeticVocabulary.

(** ** Vocabulary of the validation properties *)

Section ValidationVocabulary.
Context `{EngineEnv}.
Variable validate_nested :
  ForEachValidation ContextEntry -> validator -> M JSONContext (option RuleResponse).

(** [lists_exhausted v foreachs c s n s']: started in state [s] with [c]
    elements applied so far, [validateForEach] iterates all of [foreachs]
    without abort (a list that fails to evaluate is passed over, every
    other list is validated with a Pass) and ends in state [s'] with [n]
    elements applied. *)
Inductive lists_exhausted (v : validator)
  : list (ForEachValidation ContextEntry) -> nat -> JSONContext ->
    nat -> JSONContext -> Prop :=
  | exhausted_nil c s : lists_exhausted v [] c s c s
  | exhausted_unevaluated foreach rest c s err n s' :
      EvaluateList (fe_List foreach) s = Err err ->
      lists_exhausted v rest c s n s' ->
      lists_exhausted v (foreach :: rest) c s n s'
  | exhausted_validated foreach rest c s elements resp count s1 n s' :
      EvaluateList (fe_List foreach) s = Ok elements ->
      validateElements validate_nested v foreach elements (fe_ElementScope foreach) s
      = (Returned (resp, count), s1) ->
      Status resp = RuleStatusPass ->
      lists_exhausted v rest (c + count)%nat s1 n s' ->
      lists_exhausted v (foreach :: rest) c s n s'.

(** The message recorded for candidate [idx] of an anyPattern when it
    fails outright, and when it is skip-worthy. *)
Definition failure_reason (name : string) (idx : nat) (e : match_error) : option string :=
  match e with
  | PatternError err Path false =>
      Some (if String.eqb Path ""
            then "rule " +:+ name +:+ "[" +:+ pretty idx +:+ "] failed: " +:+ err
            else "rule " +:+ name +:+ "[" +:+ pretty idx +:+ "] failed at path " +:+ Path)
  | _ => None
  end.

Definition skip_reason (name : string) (idx : nat) (e : match_error) : option string :=
  match e with
  | PatternError err _ true =>
      Some ("rule " +:+ name +:+ "[" +:+ pretty idx +:+ "] skipped: " +:+ err)
  | _ => None
  end.

(** The reasons of the candidates that [reason] selects, in candidate
    order; candidates are numbered from [idx]. *)
Fixpoint reasons (reason : nat -> match_error -> option string)
    (resource : Unstructured) (idx : nat) (candidates : list value) : list string :=
  match candidates with
  | [] => []
  | candidate :: rest =>
      match MatchPattern (Object resource) candidate ≫= reason idx with
      | Some msg => msg :: reasons reason resource (S idx) rest
      | None => reasons reason resource (S idx) rest
      end
  end.

Definition matches (resource : Unstructured) (candidate : value) : Prop :=
  MatchPattern (Object resource) candidate = None.

Definition fails_outright (resource : Unstructured) (candidate : value) : Prop :=
  exists err Path, MatchPattern (Object resource) candidate = Some (PatternError err Path false).

Definition skip_worthy (resource : Unstructured) (candidate : value) : Prop :=
  exists err Path, MatchPattern (Object resource) candidate = Some (PatternError err Path true).

End ValidationVocabulary.

(** ** More of the expression functions ([functions.go]) *)

Definition compare_name : string := "compare".
Definition labelMatch_name : string := "label_match".
Definition objectFromLists_name : string := "object_from_lists".

(** [a == b] on two [interface{}] values holding JSON data: values of
    different dynamic types are not equal; two slices or two maps cannot be
    compared and the comparison panics ([None]). *)
Definition iface_eq (a b : value) : option bool :=
  match a, b with
  | VNull, VNull => Some true
  | VBool x, VBool y => Some (Bool.eqb x y)
  | VNumber x, VNumber y => Some (eqb x y)
  | VString x, VString y => Some (String.eqb x y)
  | VArray _, VArray _ => None
  | VObject _, VObject _ => None
  | _, _ => Some false
  end.

(** [strings.Compare]: [-1], [0] or [+1] by the byte-wise order. *)
Definition strings_Compare (a b : string) : Z :=
  match String.compare a b with
  | Eq => 0
  | Lt => -1
  | Gt => 1
  end.

Section MoreFunctions.
Context `{QuantityLib}.

(** [jpfCompare]; the result is a Go [int]. *)
Definition jpfCompare (arguments : list value) : res error Z :=
  match validateArg compare_name arguments 0 KString with
  | Err err => Err err
  | Ok a =>
      match validateArg compare_name arguments 1 KString with
      | Err err => Err err
      | Ok b =>
          match a, b with
          | VString a, VString b => Ok (strings_Compare a b)
          | _, _ => Ok 0
          end
      end
  end.

(** The text of a quantity and of a duration ([String()]), which [jpSum]
    feeds back as an argument. *)
Variable Quantity_String : Quantity -> string.
Variable Duration_String : Duration.Duration -> string.

Definition Result_value (r : Result) : value :=
  match r with
  | RFloat f => VNumber f
  | RQuantityString q => VString (Quantity_String q)
  | RDurationString d => VString (Duration_String d)
  end.

(** The loop of [jpSum] over [items[1:]]. *)
Fixpoint jpSum_loop (items : list value) (result : value) : res error value :=
  match items with
  | [] => Ok result
  | item :: rest =>
      match _jpAdd [result; item] sum_name with
      | Err err => Err err
      | Ok r => jpSum_loop rest (Result_value r)
      end
  end.

Definition jpSum (arguments : list value) : outcome (res error value) :=
  match arguments !! 0%nat with
  | None => Panicked "index out of range"
  | Some (VArray items) =>
      match items with
      | [] =>
          Returned (Err (formatError genericError sum_name
                           ["at least one element in the array is required"]))
      | first :: rest => Returned (jpSum_loop rest first)
      end
  | Some _ => Returned (Err (formatError typeMismatchError sum_name []))
  end.

End MoreFunctions.

Section LabelMatch.
(** The order in which [range] visits the keys of the label map. *)
Variable range_keys : gmap string value -> list string.

(** The loop of [jpLabelMatch]: [None] is the panic of comparing two
    values that cannot be compared. *)
Fixpoint labelMatch_loop (labelMap matchMap : gmap string value) (keys : list string)
  : option bool :=
  match keys with
  | [] => Some true
  | key :: rest =>
      let value := map_index labelMap key in
      match matchMap !! key with
      | None => Some false
      | Some val =>
          match iface_eq val value with
          | None => None
          | Some false => Some false
          | Some true => labelMatch_loop labelMap matchMap rest
          end
      end
  end.

Definition jpLabelMatch (arguments : list value) : outcome (res error value) :=
  match arguments !! 0%nat with
  | None => Panicked "index out of range"
  | Some (VObject labelMap) =>
      match arguments !! 1%nat with
      | None => Panicked "index out of range"
      | Some (VObject matchMap) =>
          match labelMatch_loop labelMap matchMap (range_keys labelMap) with
          | Some b => Returned (Ok (VBool b))
          | None => Panicked "comparing uncomparable type"
          end
      | Some _ =>
          Returned (Err (formatError invalidArgumentTypeError labelMatch_name ["1"; "Object"]))
      end
  | Some _ =>
      Returned (Err (formatError invalidArgumentTypeError labelMatch_name ["0"; "Object"]))
  end.

End LabelMatch.

Section ObjectFromLists.
(** [strconv.FormatFloat(f, 'f', -1, 32)]. *)
Variable FormatFloat : float64 -> string.

(** [ifaceToString]; the cases [int] and [float32] do not arise on JSON
    data. *)
Definition ifaceToString (iface : value) : res string string :=
  match iface with
  | VNumber i => Ok (FormatFloat i)
  | VString i => Ok i
  | VBool i => Ok (if i then "true" else "false")
  | _ => Err "error, undefined type cast"
  end.

(** The loop of [jpObjectFromLists] from position [i] on.  The errors of
    this function are also handed the argument list, which is not kept
    among the details. *)
Fixpoint objectFromLists_loop (values : list value) (i : nat) (keys : list value)
    (output : gmap string value) : res error (gmap string value) :=
  match keys with
  | [] => Ok output
  | ikey :: rest =>
      match ifaceToString ikey with
      | Err _ =>
          Err (formatError invalidArgumentTypeError objectFromLists_name ["0"; "StringArray"])
      | Ok key =>
          let v := if (i <? length values)%nat then default VNull (values !! i) else VNull in
          objectFromLists_loop values (S i) rest (<[key := v]> output)
      end
  end.

Definition jpObjectFromLists (arguments : list value) : outcome (res error value) :=
  match arguments !! 0%nat with
  | None => Panicked "index out of range"
  | Some (VArray keys) =>
      match arguments !! 1%nat with
      | None => Panicked "index out of range"
      | Some (VArray values) =>
          match objectFromLists_loop values 0 keys ∅ with
          | Ok output => Returned (Ok (VObject output))
          | Err err => Returned (Err err)
          end
      | Some _ =>
          Returned (Err (formatError invalidArgumentTypeError objectFromLists_name
                           ["1"; "Array"]))
      end
  | Some _ =>
      Returned (Err (formatError invalidArgumentTypeError objectFromLists_name ["0"; "Array"]))
  end.

End ObjectFromLists.

(** ** The mutate-existing handler ([mutate_existing.go]) *)

Section MutateExisting.
Context `{EngineEnv}.

(** Outside the excerpt: the targets of a rule and how they are loaded,
    [AddTargetResource] of the JSON context, the two mutators with the
    response they leave, and [buildRuleResponse].  [hasForEachMutation]
    is the test [rule.Mutation.ForEachMutation != nil]. *)
Variable target : Type.
Variable target_Object : target -> option (gmap string value).
Variable target_context : target -> list ContextEntry.
Variable target_preconditions : target -> value.
Variable loadTargets :
  Rule ContextEntry -> PolicyContext -> JSONContext ->
  (list target * option string) * JSONContext.
Variable AddTargetResource : gmap string value -> JSONContext -> option string * JSONContext.
Variable hasForEachMutation : Rule ContextEntry -> bool.
Variable mutate_Response : Type.
Variable mutateForEach :
  Rule ContextEntry -> PolicyContext -> target -> JSONContext -> mutate_Response * JSONContext.
Variable Mutate : Rule ContextEntry -> target -> JSONContext -> mutate_Response * JSONContext.
Variable buildRuleResponse :
  Rule ContextEntry -> mutate_Response -> target -> option RuleResponse.

(** The [for _, target := range targets] loop of [Process]. *)
Fixpoint mutateExisting_loop (policyContext : PolicyContext) (r : Rule ContextEntry)
    (targets : list target) (responses : list RuleResponse) (s : JSONContext)
  : list RuleResponse * JSONContext :=
  match targets with
  | [] => (responses, s)
  | t :: rest =>
      match target_Object t with
      | None => mutateExisting_loop policyContext r rest responses s
      | Some object =>
          let policyContext' := pc_Copy policyContext in
          let '(err, s) := AddTargetResource object s in
          match err with
          | Some _ => mutateExisting_loop policyContext r rest responses s
          | None =>
              let '(err, s) := contextLoader (target_context t) s in
              match err with
              | Some err =>
                  let rr := RuleError r Mutation "failed to load context" err in
                  mutateExisting_loop policyContext r rest (responses ++ [rr]) s
              | None =>
                  match CheckPreconditions s (target_preconditions t) with
                  | Err err =>
                      let rr := RuleError r Mutation "failed to evaluate preconditions" err in
                      mutateExisting_loop policyContext r rest (responses ++ [rr]) s
                  | Ok preconditionsPassed =>
                      if negb preconditionsPassed then
                        let rr := RuleSkip r Mutation "preconditions not met" in
                        mutateExisting_loop policyContext r rest (responses ++ [rr]) s
                      else
                        let '(mutateResp, s) :=
                          if hasForEachMutation r
                          then mutateForEach r policyContext' t s
                          else Mutate r t s in
                        match buildRuleResponse r mutateResp t with
                        | Some ruleResponse =>
                            mutateExisting_loop policyContext r rest
                              (responses ++ [ruleResponse]) s
                        | None => mutateExisting_loop policyContext r rest responses s
                        end
                  end
              end
          end
      end
  end.

(** [mutateExistingHandler.Process]. *)
Definition mutateExisting_Process (policyContext : PolicyContext) (resource : Unstructured)
    (r : Rule ContextEntry) (s : JSONContext)
  : (Unstructured * list RuleResponse) * JSONContext :=
  let '((targets, err), s) := loadTargets r policyContext s in
  let responses :=
    match err with
    | Some err => [RuleError r Mutation "" err]
    | None => []
    end in
  let '(responses, s) := mutateExisting_loop policyContext r targets responses s in
  ((resource, responses), s).

End MutateExisting.

(** ** Vocabulary of the further properties *)

(** A JSON value that is neither an array nor an object. *)
Definition is_scalar (v : value) : Prop :=
  match v with
  | VArray _ | VObject _ => False
  | _ => True
  end.

Section FunctionVocabulary.
Context `{QuantityLib}.

(** The handler registered for each arithmetic function. *)
Definition jp_handler (op : Operator) (arguments : list value) : res error Result :=
  match op with
  | OpAdd => jpAdd arguments
  | OpSubtract => jpSubtract arguments
  | OpMultiply => jpMultiply arguments
  | OpDivide => jpDivide arguments
  | OpModulo => jpModulo arguments
  end.

(** An argument from which no operand can be read: it is missing, or it is
    not a number and not a string, or it is a string that is neither a
    quantity nor a duration. *)
Definition unreadable (arguments : list value) (i : nat) : Prop :=
  match arguments !! i with
  | Some (VNumber _) => False
  | Some (VString s) =>
      (exists e, ParseQuantity s = Err e) /\ (exists e, ParseDuration s = Err e)
  | _ => True
  end.

End FunctionVocabulary.

(** ** Further stand-ins *)

Module Fixtures.
Import Reference.

(** Validators of rule ["r"] with deny conditions: one with nothing else,
    one that also has a pattern, a for-each declaration and another
    policy context. *)
Definition v_deny : validator :=
  mkValidator (rule_without_validation "r") VNull [] VNull VNull VNull (Some VNull) None 0.

Definition v_deny_foreach : validator :=
  mkValidator (rule_without_validation "r") (VString "other") [] VNull (VBool true) VNull
    (Some VNull) (Some [foreach_pattern VNull]) 3.

(** Validators of rule ["r"] with the pattern [true]: one with nothing
    else, one that also has an anyPattern and a for-each declaration. *)
Definition v_pattern : validator :=
  mkValidator (rule_without_validation "r") VNull [] VNull (VBool true) VNull None None 0.

Definition v_pattern_foreach : validator :=
  mkValidator (rule_without_validation "r") VNull [] VNull (VBool true)
    (VArray [VString "spec.a"]) None (Some [foreach_pattern VNull]) 0.

(** A rule with a message. *)
Definition rule_message (name msg : string) : Rule unit :=
  mkRule name msg VNull VNull None None false.

(** Quantities and durations printed as integers. *)
Definition print_Z (z : Z) : string := pretty z.

(** The image-verification loop in mode [applyRules] on the stand-ins of
    [Reference], no response counting as applied. *)
Definition image_run_uncounted (applyRules : ApplyRulesType) (rules : list (Rule unit))
  : PolicyResponse * (list value * list string) :=
  verifyAndPatchImages_loop unit (list string) (fun _ _ _ => Ok tt) logging_invoke
    (fun _ => false) VNull applyRules rules NewPolicyResponse (mkUnstructured (Some ∅))
    ([], []).

(** Targets that are their own document; every target is loaded and
    mutated, and the mutation is reported as a Pass. *)
Definition load_two_targets (_ : Rule unit) (_ : value) (s : list value)
  : (list (option (gmap string value)) * option string) * list value :=
  (([None; Some ∅], Some "target not found"), s).

Definition mutate_target (_ : Rule unit) (_ : option (gmap string value)) (s : list value)
  : string * list value :=
  ("mutated", s).

Definition report_pass (r : Rule unit) (resp : string) (_ : option (gmap string value))
  : option RuleResponse :=
  Some (mkRuleResponse (Rule_Name r) Mutation resp RuleStatusPass).

Definition mutate_run : (Unstructured * list RuleResponse) * list value :=
  mutateExisting_Process (option (gmap string value)) (fun t => t) (fun _ => [])
    (fun _ => VNull) load_two_targets (fun _ s => (None, s)) (fun _ => false) string
    (fun r _ t s => mutate_target r t s) mutate_target report_pass
    VNull (mkUnstructured (Some ∅)) (rule_without_validation "r") [].

End Fixtures.

(** A float whose integer part does not fit [int64]. *)
Definition beyond_int64 (f : float64) : Prop :=
  exists z, trunc f = Some z /\ (z < min_int64 \/ max_int64 < z).

(** The texts of [reasons] written one after the other, in order, with a
    single space between two neighbours. *)
Definition concatenated (reasons : list string) : string :=
  match reasons with
  | [] => ""
  | first :: others => fold_left (fun text reason => text +:+ " " +:+ reason) others first
  end.

(** [part] occurs in [text]. *)
Definition occurs_in (part text : string) : Prop :=
  exists before after, text = before +:+ part +:+ after.

Section HandlerVocabulary.
Context `{EngineEnv}.

(** A response made for rule [r] by the validator. *)
Definition of_rule (r : Rule ContextEntry) (resp : RuleResponse) : Prop :=
  Name resp = Rule_Name r /\ Type_ resp = Validation.

(** What the for-each loop of validator [v] may return: nothing, only
    when [v] has no for-each declarations at all; or a response made for
    the rule of [v] that, when it is a Skip or a Pass, carries the fixed
    message of the loop. *)
Definition forEach_response (v : validator) (o : option RuleResponse) : Prop :=
  match o with
  | None => forEach v = None
  | Some r =>
      of_rule (rule v) r /\
      (Status r = RuleStatusSkip -> Message r = "rule skipped" /\ forEach v <> None) /\
      (Status r = RuleStatusPass -> Message r = "rule passed")
  end.

(** A response of the mutate-existing handler while it goes through
    [targets]: a report of its own (made for the rule, of type Mutation,
    an Error or a Skip), or what [buildRuleResponse] made of the
    mutation of one of the targets. *)
Definition handled_target {target mutate_Response : Type}
    (buildRuleResponse : Rule ContextEntry -> mutate_Response -> target -> option RuleResponse)
    (r : Rule ContextEntry) (targets : list target) (rr : RuleResponse) : Prop :=
  (Name rr = Rule_Name r /\ Type_ rr = Mutation /\
   (Status rr = RuleStatusError \/ Status rr = RuleStatusSkip)) \/
  exists resp t, t ∈ targets /\ buildRuleResponse r resp t = Some rr.

(** A response for target [t]: a report of the handler itself, or what
    [buildRuleResponse] made of a mutation of [t]. *)
Definition answers_target {target mutate_Response : Type}
    (buildRuleResponse : Rule ContextEntry -> mutate_Response -> target -> option RuleResponse)
    (r : Rule ContextEntry) (t : target) (rr : RuleResponse) : Prop :=
  (Name rr = Rule_Name r /\ Type_ rr = Mutation /\
   (Status rr = RuleStatusError \/ Status rr = RuleStatusSkip)) \/
  exists resp, buildRuleResponse r resp t = Some rr.

End HandlerVocabulary.

(* ================================================================== *)
(** * Part II: properties                                              *)
(* ================================================================== *)

(** ** Floats and integers *)

Section Float64Facts.

Lemma digits2_pos_iter_xO (p k : positive) :
  digits2_pos (Pos.iter xO p k) = (digits2_pos p + k)%positive.
Proof.
  induction k as [|k IH] using Pos.peano_ind.
  - simpl. lia.
  - rewrite Pos.iter_succ. simpl. rewrite IH. lia.
Qed.

Lemma Zpos_iter_xO (p k : positive) :
  Zpos (Pos.iter xO p k) = Zpos p * 2 ^ Zpos k.
Proof.
  induction k as [|k IH] using Pos.peano_ind.
  - simpl. lia.
  - rewrite Pos.iter_succ, Pos2Z.inj_succ, Z.pow_succ_r by lia.
    rewrite Pos2Z.inj_xO, IH. ring.
Qed.

Lemma iter_pos_iter {A} (f : A -> A) (n : positive) (x : A) :
  SpecFloat.iter_pos f n x = Pos.iter f x n.
Proof.
  revert x. induction n as [n IH|n IH|]; intros x; simpl.
  - rewrite !IH. now rewrite !Pos.iter_swap.
  - now rewrite !IH.
  - reflexivity.
Qed.

Lemma iter_shr_1_exact (m k : positive) :
  SpecFloat.iter_pos shr_1 k (Build_shr_record (Zpos (Pos.iter xO m k)) false false)
  = Build_shr_record (Zpos m) false false.
Proof.
  rewrite iter_pos_iter.
  induction k as [|k IH] using Pos.peano_ind.
  - reflexivity.
  - rewrite Pos.iter_succ_r, Pos.iter_succ. simpl. exact IH.
Qed.

Lemma shr_fexp_exp_ge m e l :
  e <= snd (shr_fexp prec emax m e l).
Proof.
  unfold shr_fexp, shr.
  destruct (fexp prec emax (Zdigits2 m + e) - e); simpl; lia.
Qed.

Lemma binary_round_aux_exp_ge s m e l s' m' e' :
  binary_round_aux prec emax s m e l = S754_finite s' m' e' -> e <= e'.
Proof.
  unfold binary_round_aux.
  pose proof (shr_fexp_exp_ge m e l) as H1.
  destruct (shr_fexp prec emax m e l) as [mrs1 e1]. simpl in H1.
  set (m1 := round_nearest_even _ _).
  pose proof (shr_fexp_exp_ge m1 e1 loc_Exact) as H2.
  destruct (shr_fexp prec emax m1 e1 loc_Exact) as [mrs2 e2]. simpl in H2.
  destruct (shr_m mrs2); try discriminate.
  destruct (e2 <=? emax - prec); try discriminate.
  intros [= _ _ <-]. lia.
Qed.

Lemma shr_fexp_canonical m e :
  canonical_mantissa prec emax m e = true ->
  shr_fexp prec emax (Zpos m) e loc_Exact = (Build_shr_record (Zpos m) false false, e).
Proof.
  unfold canonical_mantissa, shr_fexp. intros Hc%Z.eqb_eq. simpl Zdigits2.
  rewrite Hc, Z.sub_diag. reflexivity.
Qed.

Lemma binary_round_aux_canonical s m e :
  canonical_mantissa prec emax m e = true ->
  binary_round_aux prec emax s (Zpos m) e loc_Exact =
  if e <=? emax - prec then S754_finite s m e else S754_infinity s.
Proof.
  intros Hc. unfold binary_round_aux.
  rewrite (shr_fexp_canonical _ _ Hc). simpl.
  rewrite (shr_fexp_canonical _ _ Hc). reflexivity.
Qed.

(** The float of an integer never has a fractional part. *)
Lemma of_int_no_fraction (z : Z) : has_fraction (of_int z) = false.
Proof.
  assert (Hpos : forall s p, has_fraction (binary_round prec emax s p 0) = false).
  { intros s p. unfold binary_round, shl_align.
    destruct (fexp prec emax (Zpos (digits2_pos p) + 0) - 0) as [|d|d] eqn:Hd.
    - destruct (binary_round_aux prec emax s (Zpos p) 0 loc_Exact) as [| | |s' m' e'] eqn:Hr;
        try reflexivity.
      apply binary_round_aux_exp_ge in Hr. destruct e'; try reflexivity; lia.
    - destruct (binary_round_aux prec emax s (Zpos p) 0 loc_Exact) as [| | |s' m' e'] eqn:Hr;
        try reflexivity.
      apply binary_round_aux_exp_ge in Hr. destruct e'; try reflexivity; lia.
    - assert (He : fexp prec emax (Zpos (digits2_pos p) + 0) = Zneg d) by lia.
      rewrite He.
      rewrite binary_round_aux_canonical.
      + destruct (Zneg d <=? emax - prec); [|reflexivity].
        simpl. rewrite Zpos_iter_xO, Z.mod_mul by lia. reflexivity.
      + unfold canonical_mantissa. apply Z.eqb_eq.
        rewrite digits2_pos_iter_xO. rewrite <- He at 2.
        f_equal. lia. }
  unfold of_int, binary_normalize. destruct z; [reflexivity| |]; apply Hpos.
Qed.

Lemma eqb_finite_inv s m e (g : float64) :
  eqb (S754_finite s m e) g = true -> g = S754_finite s m e.
Proof.
  unfold eqb, SFeqb, SFcompare.
  destruct g as [s'|s'| |s' m' e']; try (destruct s; discriminate);
    try (destruct s'; discriminate).
  destruct s, s'; try discriminate.
  - destruct (e ?= e') eqn:He; try discriminate.
    apply Z.compare_eq in He. subst e'.
    destruct (Pos.compare_cont Eq m m') eqn:Hm; try discriminate.
    apply Pos.compare_eq in Hm. now subst.
  - destruct (e ?= e') eqn:He; try discriminate.
    apply Z.compare_eq in He. subst e'.
    destruct (Pos.compare_cont Eq m m') eqn:Hm; try discriminate.
    apply Pos.compare_eq in Hm. now subst.
Qed.

Lemma eqb_finite_refl s m e : eqb (S754_finite s m e) (S754_finite s m e) = true.
Proof.
  unfold eqb, SFeqb, SFcompare.
  rewrite Z.compare_refl. change (Pos.compare_cont Eq m m) with (Pos.compare m m).
  rewrite Pos.compare_refl. now destruct s.
Qed.


(** A float with a fractional part differs from the float of every
    integer. *)
Lemma has_fraction_neq_of_int (f : float64) (z : Z) :
  has_fraction f = true -> eqb f (of_int z) = false.
Proof.
  intros Hf. destruct (eqb f (of_int z)) eqn:Heq; [|reflexivity].
  destruct f as [| | |s m e]; try discriminate.
  apply eqb_finite_inv in Heq.
  pose proof (of_int_no_fraction z) as Hz. rewrite Heq in Hz. congruence.
Qed.

Lemma of_int_cond_Zopp s (p : positive) :
  of_int (cond_Zopp s (Zpos p)) = binary_round prec emax s p 0.
Proof. now destruct s. Qed.

Lemma shl_align_ge mx ex ex' : ex <= ex' -> shl_align mx ex ex' = (mx, ex).
Proof.
  unfold shl_align. intros Hle. destruct (ex' - ex) eqn:Hd; try reflexivity; lia.
Qed.

Lemma shl_align_neg mx (d : positive) :
  shl_align mx 0 (Zneg d) = (Pos.iter xO mx d, Zneg d).
Proof. reflexivity. Qed.

Lemma binary_round_aux_shift s (m k : positive) :
  canonical_mantissa prec emax m (Zpos k) = true ->
  binary_round_aux prec emax s (Zpos (Pos.iter xO m k)) 0 loc_Exact =
  if Zpos k <=? emax - prec then S754_finite s m (Zpos k) else S754_infinity s.
Proof.
  intros Hc. assert (Hc' := Hc). unfold canonical_mantissa in Hc'. apply Z.eqb_eq in Hc'.
  unfold binary_round_aux.
  assert (Hs : shr_fexp prec emax (Zpos (Pos.iter xO m k)) 0 loc_Exact =
               (Build_shr_record (Zpos m) false false, Zpos k)).
  { unfold shr_fexp. simpl Zdigits2. rewrite digits2_pos_iter_xO.
    replace (Zpos (digits2_pos m + k) + 0) with (Zpos (digits2_pos m) + Zpos k) by lia.
    rewrite Hc'. replace (Zpos k - 0) with (Zpos k) by lia.
    unfold shr. simpl shr_record_of_loc. now rewrite iter_shr_1_exact. }
  rewrite Hs. simpl.
  rewrite (shr_fexp_canonical _ _ Hc). reflexivity.
Qed.

(** Converting a well-formed float without fraction to an integer and
    back gives the float again. *)
Lemma of_int_trunc (f : float64) (z : Z) :
  valid_binary prec emax f = true ->
  has_fraction f = false ->
  trunc f = Some z ->
  eqb f (of_int z) = true.
Proof.
  destruct f as [s|s| |s m e]; simpl; try discriminate.
  - intros _ _ [= <-]. reflexivity.
  - unfold bounded. intros [Hc He]%andb_true_iff Hfr [= <-].
    assert (Hc' := Hc). unfold canonical_mantissa in Hc'. apply Z.eqb_eq in Hc'.
    destruct e as [|pe|pe].
    + rewrite of_int_cond_Zopp. unfold binary_round.
      rewrite Hc', shl_align_ge by lia.
      rewrite binary_round_aux_canonical by exact Hc.
      rewrite He. apply eqb_finite_refl.
    + rewrite <- Zpos_iter_xO, of_int_cond_Zopp.
      unfold binary_round.
      rewrite digits2_pos_iter_xO.
      replace (Zpos (digits2_pos m + pe) + 0) with (Zpos (digits2_pos m) + Zpos pe) by lia.
      rewrite Hc', shl_align_ge by lia.
      rewrite binary_round_aux_shift by exact Hc.
      rewrite He. apply eqb_finite_refl.
    + apply negb_false_iff, Z.eqb_eq in Hfr.
      apply Z.mod_divide in Hfr; [|lia]. destruct Hfr as [q Hq].
      assert (Hqpos : 0 < q).
      { assert (0 < 2 ^ Zpos pe) by (apply Z.pow_pos_nonneg; lia). nia. }
      destruct q as [|t|t]; try lia.
      rewrite Hq, Z.div_mul by lia.
      rewrite <- Zpos_iter_xO in Hq. injection Hq as Hm.
      rewrite of_int_cond_Zopp. unfold binary_round.
      assert (Hft : fexp prec emax (Zpos (digits2_pos t) + 0) = Zneg pe).
      { rewrite <- Hc'. f_equal. rewrite Hm, digits2_pos_iter_xO. lia. }
      rewrite Hft, shl_align_neg, <- Hm.
      rewrite binary_round_aux_canonical by exact Hc.
      rewrite He. apply eqb_finite_refl.
Qed.

Lemma is_int64_to_int64 (f : float64) (z : Z) :
  is_int64 f z -> to_int64 f = z /\ eqb f (of_int z) = true.
Proof.
  intros (Hv & Hfr & Ht & Hlo & Hhi). split.
  - unfold to_int64. rewrite Ht.
    apply Z.leb_le in Hlo, Hhi. now rewrite Hlo, Hhi.
  - now apply of_int_trunc.
Qed.

(** A float whose integer part is beyond [int64] fails the integer test
    [f == float64(int64(f))]. *)
Lemma beyond_int64_rejected (f : float64) :
  beyond_int64 f -> eqb f (of_int (to_int64 f)) = false.
Proof.
  intros (z & Ht & Hz). unfold to_int64. rewrite Ht.
  replace ((min_int64 <=? z) && (z <=? max_int64)) with false.
  2: { symmetry. apply andb_false_iff.
       destruct Hz; [left|right]; apply Z.leb_gt; lia. }
  destruct (eqb f (of_int min_int64)) eqn:Heq; [|reflexivity].
  assert (Hmin : trunc (of_int min_int64) = Some min_int64) by (vm_compute; reflexivity).
  assert (Hf : of_int min_int64 = f).
  { destruct f as [s|s| |s m e]; try discriminate. now apply eqb_finite_inv in Heq. }
  rewrite Hf, Ht in Hmin. injection Hmin as ->.
  unfold min_int64, max_int64 in Hz. lia.
Qed.

End Float64Facts.

(** ** Arithmetic operands *)

Section ArithmeticFacts.
Context `{QuantityLib}.

(** Case analysis on the tests an operation makes, and the two ways a
    case is closed: the value returned has the expected tag, or the
    error returned is not a type mismatch. *)
Ltac split_operation :=
  repeat match goal with
    | Hr : context [if ?b then _ else _] |- _ => destruct b
    | Hr : context [match ParseQuantity ?s with _ => _ end] |- _ =>
        destruct (ParseQuantity s)
    end.

Ltac solve_operation :=
  match goal with
  | Hr : Ok _ = Ok _ |- _ => injection Hr as <-; reflexivity
  | Hr : Err _ = Err _ |- _ => injection Hr as <-; simpl; discriminate
  | Hr : Ok _ = Err _ |- _ => discriminate Hr
  | Hr : Err _ = Ok _ |- _ => discriminate Hr
  end.


Lemma legality_spec_difference (op : Operator) (t1 t2 : Tag) :
  legality op t1 t2 = legality_spec op t1 t2 \/
  (op = OpDivide /\ t2 = TScalar /\ t1 <> TScalar /\
   legality op t1 t2 = Some t1 /\ legality_spec op t1 t2 = None).
Proof.
  destruct op, t1, t2; simpl; auto; right; repeat split; congruence.
Qed.

(** C3, as amended.  Every operation follows the table [legality] of the
    source: on a pair outside the table it fails with the type-mismatch
    error of that operation; on a pair of the table it never fails with a
    type mismatch and every value it returns has the tag of the table.
    [legality] is the table of the specification with two more entries:
    divide of a quantity or of a duration by a scalar, which returns a
    quantity, respectively a duration.  On the pairs of the table, add and
    subtract always return a value, and so does multiply unless a quantity
    is involved. *)
Theorem C3_operator_legality (op : Operator) (op1 op2 : Operand) :
  match legality op (tag_of op1) (tag_of op2) with
  | None =>
      apply_operator op op1 op2 = Err (formatError typeMismatchError (operator_name op) [])
  | Some t =>
      (forall v, apply_operator op op1 op2 = Ok v -> result_tag v = t) /\
      (forall e, apply_operator op op1 op2 = Err e ->
                 kind_of e <> Some typeMismatchError)
  end /\
  (legality op (tag_of op1) (tag_of op2) = legality_spec op (tag_of op1) (tag_of op2) \/
   (op = OpDivide /\ tag_of op2 = TScalar /\ tag_of op1 <> TScalar)) /\
  (forall t, legality op (tag_of op1) (tag_of op2) = Some t ->
             op = OpAdd \/ op = OpSubtract \/ (op = OpMultiply /\ t <> TQuantity) ->
             exists v, apply_operator op op1 op2 = Ok v /\ result_tag v = t).
Proof.
  split; [|split].
  - destruct op, op1 as [q1|d1|f1], op2 as [q2|d2|f2]; simpl;
      try reflexivity;
      (split; [intros v Hv | intros e' He]);
      unfold Quantity_Multiply, Duration_Multiply, Quantity_Divide, Duration_Divide,
        Scalar_Divide, Quantity_Modulo, Duration_Modulo, Scalar_Modulo in *;
      split_operation; solve_operation.
  - destruct (legality_spec_difference op (tag_of op1) (tag_of op2))
      as [Heq|(Hop & H2 & H1 & _ & _)]; [left|right]; auto.
  - intros t Ht Hop.
    destruct op; try (exfalso; intuition congruence);
      destruct op1 as [q1|d1|f1], op2 as [q2|d2|f2]; simpl in Ht; try discriminate;
      injection Ht as <-; try (exfalso; intuition congruence);
      eexists; split; reflexivity.
Qed.


(** C5, as amended.  Modulo on two scalars, and on two quantities through
    their float approximations: when either operand has a fractional part
    the call fails with NonIntegerModulo; when both are integers that fit
    [int64] and the divisor is not zero, it returns the remainder of the
    integer division.  [modulo(7.5, 2)] fails with NonIntegerModulo and
    [modulo(7, 2)] returns [1].  When the integer part of either operand
    is beyond [int64] the call fails with NonIntegerModulo as well (the
    conversion of an out-of-range float being the one of amd64). *)
Theorem C5_modulo_integers :
  (forall a b : float64,
      has_fraction a = true \/ has_fraction b = true ->
      Modulo (OScalar a) (OScalar b) = Err (formatError nonIntModuloError modulo_name [])) /\
  (forall (a b : float64) (za zb : Z),
      is_int64 a za -> is_int64 b zb -> zb <> 0 ->
      Modulo (OScalar a) (OScalar b) = Ok (RFloat (of_int (Z.rem za zb)))) /\
  (forall q1 q2 : Quantity,
      has_fraction (Quantity_AsApproximateFloat64 (Quantity_ToDec q1)) = true \/
      has_fraction (Quantity_AsApproximateFloat64 (Quantity_ToDec q2)) = true ->
      Modulo (OQuantity q1) (OQuantity q2)
      = Err (formatError nonIntModuloError modulo_name [])) /\
  (forall (q1 q2 : Quantity) (z1 z2 : Z),
      is_int64 (Quantity_AsApproximateFloat64 (Quantity_ToDec q1)) z1 ->
      is_int64 (Quantity_AsApproximateFloat64 (Quantity_ToDec q2)) z2 ->
      z2 <> 0 ->
      Modulo (OQuantity q1) (OQuantity q2)
      = Ok (RQuantityString (NewQuantity (Z.rem z1 z2) (Quantity_Format q1)))) /\
  jpModulo [VNumber Reference.f7_5; VNumber Reference.f2]
    = Err (formatError nonIntModuloError modulo_name []) /\
  jpModulo [VNumber Reference.f7; VNumber Reference.f2] = Ok (RFloat Reference.f1) /\
  (forall a b : float64,
      beyond_int64 a \/ beyond_int64 b ->
      Modulo (OScalar a) (OScalar b) = Err (formatError nonIntModuloError modulo_name [])) /\
  (forall q1 q2 : Quantity,
      beyond_int64 (Quantity_AsApproximateFloat64 (Quantity_ToDec q1)) \/
      beyond_int64 (Quantity_AsApproximateFloat64 (Quantity_ToDec q2)) ->
      Modulo (OQuantity q1) (OQuantity q2)
      = Err (formatError nonIntModuloError modulo_name [])).
Proof.
  assert (Hrejected : forall f g : float64,
    eqb f (of_int (to_int64 f)) = false \/ eqb g (of_int (to_int64 g)) = false ->
    negb (eqb f (of_int (to_int64 f))) = true \/
    (negb (eqb f (of_int (to_int64 f))) = false /\
     negb (eqb g (of_int (to_int64 g))) = true)).
  { intros f g [Hf|Hg].
    - left. now rewrite Hf.
    - destruct (negb (eqb f _)); [now left|right].
      split; [reflexivity|]. now rewrite Hg. }
  assert (Hcheck : forall f g : float64,
    has_fraction f = true \/ has_fraction g = true ->
    negb (eqb f (of_int (to_int64 f))) = true \/
    (negb (eqb f (of_int (to_int64 f))) = false /\
     negb (eqb g (of_int (to_int64 g))) = true)).
  { intros f g [Hf|Hg]; apply Hrejected; [left|right];
      now apply has_fraction_neq_of_int. }
  assert (Hbeyond : forall f g : float64,
    beyond_int64 f \/ beyond_int64 g ->
    negb (eqb f (of_int (to_int64 f))) = true \/
    (negb (eqb f (of_int (to_int64 f))) = false /\
     negb (eqb g (of_int (to_int64 g))) = true)).
  { intros f g [Hf|Hg]; apply Hrejected; [left|right];
      now apply beyond_int64_rejected. }
  split; [|split; [|split; [|split; [|split; [|split; [|split]]]]]].
  - intros a b Hab. simpl. unfold Scalar_Modulo.
    destruct (Hcheck a b Hab) as [->|[-> ->]]; reflexivity.
  - intros a b za zb Ha Hb Hnz. simpl. unfold Scalar_Modulo.
    destruct (is_int64_to_int64 a za Ha) as [-> ->].
    destruct (is_int64_to_int64 b zb Hb) as [-> ->]. simpl.
    apply Z.eqb_neq in Hnz. now rewrite Hnz.
  - intros q1 q2 Hq. simpl. unfold Quantity_Modulo.
    destruct (Hcheck _ _ Hq) as [->|[-> ->]]; reflexivity.
  - intros q1 q2 z1 z2 H1 H2 Hnz. simpl. unfold Quantity_Modulo.
    destruct (is_int64_to_int64 _ z1 H1) as [-> ->].
    destruct (is_int64_to_int64 _ z2 H2) as [-> ->]. simpl.
    apply Z.eqb_neq in Hnz. now rewrite Hnz.
  - vm_compute. reflexivity.
  - vm_compute. reflexivity.
  - intros a b Hab. simpl. unfold Scalar_Modulo.
    destruct (Hbeyond a b Hab) as [->|[-> ->]]; reflexivity.
  - intros q1 q2 Hq. simpl. unfold Quantity_Modulo.
    destruct (Hbeyond _ _ Hq) as [->|[-> ->]]; reflexivity.
Qed.

End ArithmeticFacts.

Section ArithmeticExamples.
Import Reference.

(** C3, counterexample to the claim as stated: dividing a duration by a
    scalar is outside the table of the specification, yet
    [divide(10s, 2)] succeeds and returns the duration [5s]. *)
Lemma C3_divide_duration_by_scalar :
  legality_spec OpDivide (tag_of (ODuration 10000000000)) (tag_of (OScalar f2)) = None /\
  apply_operator OpDivide (ODuration 10000000000) (OScalar f2)
  = Ok (RDurationString 5000000000).
Proof. split; vm_compute; reflexivity. Qed.



Lemma is_int64_f7 : is_int64 f7 7.
Proof. repeat split; try reflexivity; unfold min_int64, max_int64; lia. Qed.

Lemma is_int64_f2 : is_int64 f2 2.
Proof. repeat split; try reflexivity; unfold min_int64, max_int64; lia. Qed.

Lemma C5_witness :
  is_int64 f7 7 /\ is_int64 f2 2 /\ 2 <> 0 /\
  Modulo (OScalar f7) (OScalar f2) = Ok (RFloat (of_int (Z.rem 7 2))).
Proof.
  split; [exact is_int64_f7|]. split; [exact is_int64_f2|]. split; [lia|].
  apply (proj1 (proj2 C5_modulo_integers) f7 f2 7 2 is_int64_f7 is_int64_f2). lia.
Defined.

(** C5, counterexample to the claim as stated: [1e19] and [3] are both
    integers, yet [modulo(1e19, 3)] fails with NonIntegerModulo, because
    [1e19] does not fit [int64]. *)
Lemma C5_modulo_beyond_int64 :
  has_fraction f1e19 = false /\
  trunc f1e19 = Some (10 ^ 19) /\
  jpModulo [VNumber f1e19; VNumber f3] = Err (formatError nonIntModuloError modulo_name []).
Proof. repeat split; vm_compute; reflexivity. Qed.

End ArithmeticExamples.

(** ** The [items] function *)

Section ItemsFacts.

Lemma Ascii_compare_trans_le (a b c : Ascii.ascii) :
  Ascii.compare a b <> Gt -> Ascii.compare b c <> Gt -> Ascii.compare a c <> Gt.
Proof.
  unfold Ascii.compare. rewrite !N.compare_le_iff. lia.
Qed.

Lemma String_leb_trans (s1 s2 s3 : string) :
  String.leb s1 s2 = true -> String.leb s2 s3 = true -> String.leb s1 s3 = true.
Proof.
  unfold String.leb.
  revert s2 s3. induction s1 as [|c1 s1 IH]; intros [|c2 s2] [|c3 s3]; simpl;
    try reflexivity; try discriminate.
  destruct (Ascii.compare c1 c2) eqn:H12; try discriminate;
    destruct (Ascii.compare c2 c3) eqn:H23; try discriminate; intros Ha Hb.
  - apply Ascii.compare_eq_iff in H12, H23. subst.
    assert (Hr : Ascii.compare c3 c3 = Eq).
    { unfold Ascii.compare. apply N.compare_refl. }
    rewrite Hr. now apply (IH s2 s3).
  - apply Ascii.compare_eq_iff in H12. subst. now rewrite H23.
  - apply Ascii.compare_eq_iff in H23. subst. now rewrite H12.
  - assert (Hlt : Ascii.compare c1 c3 = Lt).
    { unfold Ascii.compare in *. rewrite N.compare_lt_iff in *. lia. }
    now rewrite Hlt.
Qed.

#[local] Instance string_le_trans : Transitive string_le.
Proof. intros s1 s2 s3. apply String_leb_trans. Qed.

#[local] Instance string_le_antisym : AntiSymm (=) string_le.
Proof. intros s1 s2. apply String.leb_antisym. Qed.

#[local] Instance string_le_total : Total string_le.
Proof. intros s1 s2. apply String.leb_total. Qed.

Lemma sort_Strings_Permutation (keys : list string) : sort_Strings keys ≡ₚ keys.
Proof. apply merge_sort_Permutation. Qed.

Lemma sort_Strings_Sorted (keys : list string) : Sorted string_le (sort_Strings keys).
Proof. apply (Sorted_merge_sort string_le). Qed.

(** The sorted list depends on the keys only, not on the order in which
    they come. *)
Lemma sort_Strings_order_irrelevant (keys1 keys2 : list string) :
  keys1 ≡ₚ keys2 -> sort_Strings keys1 = sort_Strings keys2.
Proof.
  intros Hp. apply (Sorted_unique string_le); try apply sort_Strings_Sorted.
  now rewrite !sort_Strings_Permutation.
Qed.

Lemma jpItems_object (range_keys : gmap string value -> list string)
    (input : gmap string value) (keyName valName : string) :
  jpItems range_keys [VObject input; VString keyName; VString valName]
  = Some (Ok (VArray (map (fun k => item keyName valName (VString k) (map_index input k))
                        (sort_Strings (range_keys input))))).
Proof. reflexivity. Qed.

Lemma ab_map_keys : (map_to_list Reference.ab_map).*1 ≡ₚ ["a"; "b"]%string.
Proof.
  unfold Reference.ab_map.
  rewrite map_to_list_insert by (rewrite lookup_insert_ne by discriminate; apply lookup_empty).
  rewrite map_to_list_insert by apply lookup_empty.
  rewrite map_to_list_empty. reflexivity.
Qed.

(** C8.  On a map, [items] returns one [{keyName: k, valName: v}] object
    per entry, in the byte-wise lexicographic order of the keys, whatever
    the order in which the map is iterated; so two iteration orders give
    the same array, and [items({"a":1,"b":2}, "key", "value")] is
    [[{"key":"a","value":1},{"key":"b","value":2}]]. *)
Theorem C8_items_sorted :
  (forall (range_keys : gmap string value -> list string)
          (input : gmap string value) (keyName valName : string),
      range_keys input ≡ₚ (map_to_list input).*1 ->
      exists keys : list string,
        jpItems range_keys [VObject input; VString keyName; VString valName]
        = Some (Ok (VArray (map (fun k => item keyName valName (VString k) (map_index input k))
                              keys))) /\
        keys = sort_Strings (map_to_list input).*1 /\
        Sorted string_le keys /\
        keys ≡ₚ (map_to_list input).*1 /\
        NoDup keys /\
        length keys = size input /\
        (forall k, k ∈ keys -> exists v, input !! k = Some v /\ map_index input k = v)) /\
  (forall (range1 range2 : gmap string value -> list string)
          (input : gmap string value) (keyName valName : string),
      range1 input ≡ₚ (map_to_list input).*1 ->
      range2 input ≡ₚ (map_to_list input).*1 ->
      jpItems range1 [VObject input; VString keyName; VString valName]
      = jpItems range2 [VObject input; VString keyName; VString valName]) /\
  (forall range_keys : gmap string value -> list string,
      range_keys Reference.ab_map ≡ₚ (map_to_list Reference.ab_map).*1 ->
      jpItems range_keys [VObject Reference.ab_map; VString "key"; VString "value"]
      = Some (Ok (VArray Reference.ab_items))).
Proof.
  split; [|split].
  - intros range_keys input keyName valName Hrange.
    exists (sort_Strings (map_to_list input).*1).
    split; [|split; [|split; [|split; [|split; [|split]]]]].
    + rewrite jpItems_object. now rewrite (sort_Strings_order_irrelevant _ _ Hrange).
    + reflexivity.
    + apply sort_Strings_Sorted.
    + apply sort_Strings_Permutation.
    + rewrite sort_Strings_Permutation. apply NoDup_fst_map_to_list.
    + rewrite sort_Strings_Permutation, length_fmap. apply length_map_to_list.
    + intros k Hk. rewrite sort_Strings_Permutation in Hk.
      apply list_elem_of_fmap in Hk as [[k' v] [-> Hkv]].
      apply elem_of_map_to_list in Hkv. exists v. split; [exact Hkv|].
      unfold map_index. simpl. now rewrite Hkv.
  - intros range1 range2 input keyName valName H1 H2.
    rewrite !jpItems_object.
    rewrite (sort_Strings_order_irrelevant (range1 input) (range2 input)); [reflexivity|].
    now rewrite H1, H2.
  - intros range_keys Hrange. rewrite jpItems_object.
    rewrite (sort_Strings_order_irrelevant _ ["a"; "b"]%string)
      by (rewrite Hrange; apply ab_map_keys).
    reflexivity.
Qed.

Lemma C8_witness :
  Reference.range_backward Reference.ab_map ≡ₚ (map_to_list Reference.ab_map).*1 /\
  jpItems Reference.range_backward [VObject Reference.ab_map; VString "key"; VString "value"]
  = Some (Ok (VArray Reference.ab_items)).
Proof.
  split.
  - apply reverse_Permutation.
  - apply (proj2 (proj2 C8_items_sorted) Reference.range_backward).
    apply reverse_Permutation.
Defined.

End ItemsFacts.

(** ** The JSON-patch handler *)

Section PatchFacts.
Variable ConvertPatchesToJSON : string -> res string string.
Variable ProcessPatchJSON6902 :
  string -> string -> Unstructured -> RuleResponse * Unstructured.

(** C2, as amended.  When the conversion of the patch text fails, [Patch]
    returns a response of status Fail (not Error) for the rule, of type
    Mutation, whose message is the conversion error, together with the
    empty document. *)
Theorem C2_patch_conversion_error (h : patchesJSON6902Handler) (err : string) :
  ConvertPatchesToJSON (patches h) = Err err ->
  Patch ConvertPatchesToJSON ProcessPatchJSON6902 h
  = (mkRuleResponse (ruleName h) Mutation err RuleStatusFail, empty_Unstructured).
Proof. intros Hconv. unfold Patch. now rewrite Hconv. Qed.

End PatchFacts.


(** ** Strings *)

Section StringFacts.

Lemma append_cons (x : Ascii.ascii) (a b : string) : String x a +:+ b = String x (a +:+ b).
Proof. reflexivity. Qed.

Lemma append_assoc (a b c : string) : (a +:+ b) +:+ c = a +:+ (b +:+ c).
Proof.
  induction a as [|x a IH]; [reflexivity|]. rewrite !append_cons. now rewrite IH.
Qed.

Lemma length_append (a b : string) :
  String.length (a +:+ b) = (String.length a + String.length b)%nat.
Proof.
  induction a as [|x a IH]; [reflexivity|]. rewrite append_cons. simpl. now rewrite IH.
Qed.

Lemma substring_last (m : string) (c : Ascii.ascii) :
  String.substring (String.length m) 1 (m +:+ String c "") = String c "".
Proof.
  induction m as [|x m IH]; [reflexivity|]. rewrite append_cons. simpl. exact IH.
Qed.

Lemma HasSuffix_append_period (m : string) : HasSuffix (m +:+ ".") "." = true.
Proof.
  unfold HasSuffix. rewrite length_append. simpl String.length.
  replace (String.length m + 1 - 1)%nat with (String.length m) by lia.
  rewrite substring_last.
  replace (1 <=? String.length m + 1)%nat with true; [reflexivity|].
  symmetry. apply Nat.leb_le. lia.
Qed.

Lemma append_period_not_empty (m : string) : String.eqb (m +:+ ".") "" = false.
Proof. destruct m; reflexivity. Qed.

Lemma append_nil_r (a : string) : a +:+ "" = a.
Proof.
  induction a as [|x a IH]; [reflexivity|]. rewrite append_cons. now rewrite IH.
Qed.

Lemma fold_left_append_prefix (a : string) (l : list string) :
  forall x : string,
    fold_left (fun text reason => text +:+ " " +:+ reason) l (a +:+ x)
    = a +:+ fold_left (fun text reason => text +:+ " " +:+ reason) l x.
Proof.
  induction l as [|y l IH]; intros x; simpl; [reflexivity|].
  now rewrite append_assoc, IH.
Qed.

Lemma concatenated_cons (first second : string) (others : list string) :
  concatenated (first :: second :: others)
  = first +:+ " " +:+ concatenated (second :: others).
Proof.
  unfold concatenated. simpl. now rewrite !fold_left_append_prefix.
Qed.

(** [strings.Join] with a space writes the texts one after the other. *)
Lemma Join_concatenated (l : list string) : Join l " " = concatenated l.
Proof.
  induction l as [|first [|second others] IH]; [reflexivity|reflexivity|].
  rewrite concatenated_cons, <- IH. reflexivity.
Qed.

(** Every text of the list occurs in the concatenation. *)
Lemma concatenated_occurs (l : list string) (msg : string) :
  msg ∈ l -> occurs_in msg (concatenated l).
Proof.
  induction l as [|first [|second others] IH]; intros Hin.
  - now apply elem_of_nil in Hin.
  - apply list_elem_of_singleton in Hin as ->. exists "", "".
    change ("" +:+ first +:+ "") with (first +:+ ""). now rewrite append_nil_r.
  - rewrite concatenated_cons. apply elem_of_cons in Hin as [->|Hin].
    + exists "", (" " +:+ concatenated (second :: others)). reflexivity.
    + destruct (IH Hin) as (before & after & Heq).
      exists (first +:+ " " +:+ before), after.
      rewrite Heq. now rewrite !append_assoc.
Qed.

End StringFacts.

(** ** anyPattern *)

Section AnyPatternFacts.
Context `{EngineEnv}.

Lemma anyPattern_loop_no_match (v : validator) (resource : Unstructured)
    (candidates : list value) :
  forall (idx : nat) (failed skipped : list string),
    Forall (fun q => ~ matches resource q) candidates ->
    anyPattern_loop v resource idx candidates failed skipped
    = inr (failed ++ reasons (failure_reason (Rule_Name (rule v))) resource idx candidates,
           skipped ++ reasons (skip_reason (Rule_Name (rule v))) resource idx candidates).
Proof.
  induction candidates as [|p rest IH]; intros idx failed skipped Hno; simpl.
  - now rewrite !app_nil_r.
  - inversion Hno as [|? ? Hp Hrest]; subst. unfold matches in Hp.
    destruct (MatchPattern (Object resource) p) as [[err Path [|]|err]|]; simpl;
      try congruence; rewrite IH by assumption; now rewrite <- ?app_assoc.
Qed.

Lemma anyPattern_loop_first_match (v : validator) (resource : Unstructured)
    (pre : list value) (p : value) (post : list value) :
  forall (idx : nat) (failed skipped : list string),
    Forall (fun q => ~ matches resource q) pre ->
    matches resource p ->
    anyPattern_loop v resource idx (pre ++ p :: post) failed skipped
    = inl (RulePass (rule v) Validation
             ("validation rule '" +:+ Rule_Name (rule v) +:+ "' anyPattern["
                +:+ pretty (idx + length pre)%nat +:+ "] passed.")).
Proof.
  induction pre as [|q pre IH]; intros idx failed skipped Hno Hp; simpl.
  - unfold matches in Hp. rewrite Hp. now rewrite Nat.add_0_r.
  - inversion Hno as [|? ? Hq Hrest]; subst. unfold matches in Hq.
    destruct (MatchPattern (Object resource) q) as [[err Path [|]|err]|]; simpl;
      try congruence; rewrite IH by assumption;
      now replace (S idx + length pre)%nat with (idx + S (length pre))%nat by lia.
Qed.

Lemma reasons_failure_nonempty (name : string) (resource : Unstructured)
    (candidates : list value) :
  forall idx, Exists (fails_outright resource) candidates ->
              reasons (failure_reason name) resource idx candidates <> [].
Proof.
  induction candidates as [|p rest IH]; intros idx Hex; inversion Hex as [? ? Hp|? ? Hrest]; subst.
  - destruct Hp as (err & Path & Hp). simpl. rewrite Hp. simpl. discriminate.
  - simpl. destruct (MatchPattern (Object resource) p ≫= failure_reason name idx);
      [discriminate|now apply IH].
Qed.

Lemma reasons_all_skip (name : string) (resource : Unstructured)
    (candidates : list value) :
  forall idx, Forall (skip_worthy resource) candidates ->
              reasons (failure_reason name) resource idx candidates = [] /\
              (candidates <> [] -> reasons (skip_reason name) resource idx candidates <> []) /\
              Forall (fun q => ~ matches resource q) candidates.
Proof.
  induction candidates as [|p rest IH]; intros idx Hall.
  - repeat split; [congruence|constructor].
  - inversion Hall as [|? ? Hp Hrest]; subst.
    destruct Hp as (err & Path & Hp).
    destruct (IH (S idx) Hrest) as (IH1 & _ & IH3).
    simpl. rewrite Hp. simpl. repeat split; [exact IH1|discriminate|].
    constructor; [unfold matches; congruence|exact IH3].
Qed.

(** Every candidate that [reason] selects contributes its message. *)
Lemma reasons_complete (reason : nat -> match_error -> option string)
    (resource : Unstructured) (candidates : list value) :
  forall (idx i : nat) (p : value) (e : match_error) (msg : string),
    candidates !! i = Some p ->
    MatchPattern (Object resource) p = Some e ->
    reason (idx + i)%nat e = Some msg ->
    msg ∈ reasons reason resource idx candidates.
Proof.
  induction candidates as [|q rest IH]; intros idx i p e msg Hi Hp Hmsg; [discriminate|].
  destruct i as [|i]; simpl in *.
  - injection Hi as ->. rewrite Hp. simpl. rewrite Nat.add_0_r in Hmsg. rewrite Hmsg.
    apply list_elem_of_here.
  - assert (Hin : msg ∈ reasons reason resource (S idx) rest).
    { apply (IH (S idx) i p e msg Hi Hp).
      now replace (S idx + i)%nat with (idx + S i)%nat by lia. }
    destruct (MatchPattern (Object resource) q ≫= reason idx);
      [now apply list_elem_of_further|exact Hin].
Qed.

Lemma buildAnyPatternErrorMessage_text (r : Rule ContextEntry) (errors : list string) :
  buildAnyPatternErrorMessage r errors
  = (if String.eqb (Validation_Message r) "" then "validation error: "
     else if HasSuffix (Validation_Message r) "." then
       "validation error: " +:+ Validation_Message r +:+ " "
     else "validation error: " +:+ Validation_Message r +:+ ". ")
    +:+ concatenated errors.
Proof.
  unfold buildAnyPatternErrorMessage. rewrite Join_concatenated.
  destruct (String.eqb (Validation_Message r) ""); [reflexivity|].
  destruct (HasSuffix (Validation_Message r) "."); now rewrite !append_assoc.
Qed.

(** C6, as amended.  With no [pattern] and the candidates of [anyPattern]
    tried in order: the first candidate that matches gives Pass, the
    message naming its index.  When none matches and one at least fails
    outright the result is Fail; its message is "validation error: ",
    then the rule's message closed by a period when there is one, then
    the failure reasons of all failing candidates, in candidate order
    with a space between two of them.  When there is at least one
    candidate and each of them is skip-worthy the result is Skip, the
    message being the skip reasons written the same way.  With no
    candidate at all the result is Pass with the rule's message.  Every
    failing candidate's reason occurs in the text of the Fail message and
    every skip-worthy candidate's reason in the text of the Skip
    message. *)
Theorem C6_anyPattern (v : validator) (resource : Unstructured)
    (candidates : list value) (s : JSONContext) :
  pattern v = VNull ->
  anyPattern v = VArray candidates ->
  (forall pre p post,
      candidates = pre ++ p :: post ->
      Forall (fun q => ~ matches resource q) pre ->
      matches resource p ->
      validatePatterns v resource s
      = (Returned (Some (RulePass (rule v) Validation
                           ("validation rule '" +:+ Rule_Name (rule v) +:+ "' anyPattern["
                              +:+ pretty (length pre) +:+ "] passed."))), s)) /\
  (Forall (fun q => ~ matches resource q) candidates ->
   Exists (fails_outright resource) candidates ->
   validatePatterns v resource s
   = (Returned (Some (internal_RuleResponse (rule v) Validation
                        ((if String.eqb (Validation_Message (rule v)) ""
                          then "validation error: "
                          else if HasSuffix (Validation_Message (rule v)) "."
                          then "validation error: " +:+ Validation_Message (rule v) +:+ " "
                          else "validation error: " +:+ Validation_Message (rule v) +:+ ". ")
                         +:+ concatenated
                               (reasons (failure_reason (Rule_Name (rule v))) resource 0
                                  candidates))
                        RuleStatusFail)), s)) /\
  (candidates <> [] ->
   Forall (skip_worthy resource) candidates ->
   validatePatterns v resource s
   = (Returned (Some (RuleSkip (rule v) Validation
                        (concatenated
                           (reasons (skip_reason (Rule_Name (rule v))) resource 0
                              candidates)))), s)) /\
  (candidates = [] ->
   validatePatterns v resource s
   = (Returned (Some (RulePass (rule v) Validation (Validation_Message (rule v)))), s)) /\
  (forall i p err Path,
      candidates !! i = Some p ->
      MatchPattern (Object resource) p = Some (PatternError err Path false) ->
      exists msg,
        failure_reason (Rule_Name (rule v)) i (PatternError err Path false) = Some msg /\
        occurs_in msg
          (concatenated (reasons (failure_reason (Rule_Name (rule v))) resource 0 candidates))) /\
  (forall i p err Path,
      candidates !! i = Some p ->
      MatchPattern (Object resource) p = Some (PatternError err Path true) ->
      exists msg,
        skip_reason (Rule_Name (rule v)) i (PatternError err Path true) = Some msg /\
        occurs_in msg
          (concatenated (reasons (skip_reason (Rule_Name (rule v))) resource 0 candidates))).
Proof.
  intros Hpat Hany.
  assert (Hunfold : validatePatterns v resource s =
    match anyPattern_loop v resource 0 candidates [] [] with
    | inl resp => (Returned (Some resp), s)
    | inr (failed, skipped) =>
        if (0 <? length skipped)%nat && (length failed =? 0)%nat then
          (Returned (Some (RuleSkip (rule v) Validation (Join skipped " "))), s)
        else if (0 <? length failed)%nat then
          (Returned (Some (internal_RuleResponse (rule v) Validation
                             (buildAnyPatternErrorMessage (rule v) failed) RuleStatusFail)), s)
        else (Returned (Some (RulePass (rule v) Validation (Validation_Message (rule v)))), s)
    end).
  { unfold validatePatterns. rewrite Hpat, Hany. simpl.
    destruct (anyPattern_loop v resource 0 candidates [] []) as [resp|[failed skipped]];
      [reflexivity|].
    destruct ((0 <? length skipped)%nat && (length failed =? 0)%nat); [reflexivity|].
    destruct (0 <? length failed)%nat; reflexivity. }
  split; [|split; [|split; [|split; [|split]]]].
  - intros pre p post -> Hno Hp. rewrite Hunfold.
    now rewrite (anyPattern_loop_first_match v resource pre p post 0 [] [] Hno Hp).
  - intros Hno Hex. rewrite Hunfold, anyPattern_loop_no_match by assumption. simpl.
    pose proof (reasons_failure_nonempty (Rule_Name (rule v)) resource candidates 0 Hex) as Hne.
    rewrite <- buildAnyPatternErrorMessage_text.
    destruct (reasons (failure_reason (Rule_Name (rule v))) resource 0 candidates)
      as [|m ms]; [congruence|].
    simpl. now rewrite andb_false_r.
  - intros Hne Hall.
    destruct (reasons_all_skip (Rule_Name (rule v)) resource candidates 0 Hall)
      as (Hf & Hs & Hno).
    rewrite Hunfold, anyPattern_loop_no_match by assumption. simpl. rewrite Hf.
    specialize (Hs Hne). rewrite <- Join_concatenated.
    destruct (reasons (skip_reason (Rule_Name (rule v))) resource 0 candidates)
      as [|m ms]; [congruence|]. reflexivity.
  - intros ->. rewrite Hunfold. reflexivity.
  - intros i p err Path Hi Hp.
    exists (if String.eqb Path ""
            then "rule " +:+ Rule_Name (rule v) +:+ "[" +:+ pretty i +:+ "] failed: " +:+ err
            else "rule " +:+ Rule_Name (rule v) +:+ "[" +:+ pretty i +:+ "] failed at path "
                   +:+ Path).
    split; [reflexivity|]. apply concatenated_occurs.
    now apply (reasons_complete _ resource candidates 0 i p (PatternError err Path false)).
  - intros i p err Path Hi Hp.
    exists ("rule " +:+ Rule_Name (rule v) +:+ "[" +:+ pretty i +:+ "] skipped: " +:+ err).
    split; [reflexivity|]. apply concatenated_occurs.
    now apply (reasons_complete _ resource candidates 0 i p (PatternError err Path true)).
Qed.

End AnyPatternFacts.

(** ** Validating for-each *)

Section ForEachFacts.
Context `{EngineEnv}.
Variable validate_nested :
  ForEachValidation ContextEntry -> validator -> M JSONContext (option RuleResponse).

(** One round of the loop of [validateElements] on an element that is not
    nil, is added to the context and gets a validator: what follows the
    nested validation. *)
Lemma validateElements_loop_step (v : validator)
    (foreach : ForEachValidation ContextEntry) (elementScope : option bool)
    (len index : nat) (element : value) (rest : list value) (applyCount : nat)
    (s s1 s2 : JSONContext) (pc' : PolicyContext) (fv : validator)
    (r : option RuleResponse) :
  is_nil element = false ->
  AddElementToContext (pc_Copy (policyContext v)) element index (nesting v) elementScope
    (ctx_Reset s) = ((pc', None), s1) ->
  newForEachValidator foreach (nesting v + 1) (rule v) pc' = Ok fv ->
  validate_nested foreach fv s1 = (Returned r, s2) ->
  validateElements_loop validate_nested v foreach elementScope len index
    (element :: rest) applyCount s
  = match r with
    | None =>
        validateElements_loop validate_nested v foreach elementScope len (S index)
          rest applyCount s2
    | Some r =>
        if decide (Status r = RuleStatusSkip) then
          validateElements_loop validate_nested v foreach elementScope len (S index)
            rest applyCount s2
        else if decide (Status r <> RuleStatusPass) then
          if decide (Status r = RuleStatusError) then
            if (Z.of_nat index <? Z.of_nat len - 1) then
              validateElements_loop validate_nested v foreach elementScope len (S index)
                rest applyCount s2
            else
              (Returned (internal_RuleResponse (rule v) Validation
                           ("validation failure: " +:+ Message r) (Status r),
                         applyCount), s2)
          else
            (Returned (internal_RuleResponse (rule v) Validation
                         ("validation failure: " +:+ Message r) (Status r),
                       applyCount), s2)
        else
          validateElements_loop validate_nested v foreach elementScope len (S index)
            rest (S applyCount) s2
    end.
Proof.
  intros Hnil Hadd Hnew Hnested.
  unfold validateElements_loop at 1. cbn -[Z.of_nat Z.sub Z.ltb].
  rewrite Hnil. unfold bind at 1, modify at 1. unfold bind at 1.
  rewrite Hadd. cbn [fst snd]. rewrite Hnew. unfold bind at 1. rewrite Hnested.
  destruct r as [r|]; [|reflexivity].
  repeat case_decide; try reflexivity.
  destruct (Z.of_nat index <? Z.of_nat len - 1); reflexivity.
Qed.

Lemma validateForEach_loop_abort (v : validator)
    (foreach : ForEachValidation ContextEntry)
    (rest : list (ForEachValidation ContextEntry)) (applyCount : nat)
    (s s' : JSONContext) (elements : list value) (resp : RuleResponse) (count : nat) :
  EvaluateList (fe_List foreach) s = Ok elements ->
  validateElements validate_nested v foreach elements (fe_ElementScope foreach) s
  = (Returned (resp, count), s') ->
  Status resp <> RuleStatusPass ->
  validateForEach_loop validate_nested v (foreach :: rest) applyCount s
  = (Returned (Some resp), s').
Proof.
  intros Hlist Hel Hstatus.
  unfold validateForEach_loop. cbn. unfold bind at 1, get at 1.
  rewrite Hlist. unfold bind at 1. rewrite Hel. cbn [fst snd].
  now rewrite decide_True.
Qed.

(** C1, as amended.  When the nested validation of an element returns
    status Error: if the element is not the last of the list the loop goes
    on with the next element and the same count; if it is the last, the
    loop stops and [validateElements] returns a response that keeps the
    element's status, Error (not Fail), with the message
    ["validation failure: "] followed by the element's message.  A response
    of [validateElements] whose status is not Pass is returned by
    [validateForEach] as the response of the rule. *)
Theorem C1_foreach_element_error (v : validator)
    (foreach : ForEachValidation ContextEntry) (elementScope : option bool)
    (pre : list value) (element : value) (rest : list value) (applyCount : nat)
    (s s1 s2 : JSONContext) (pc' : PolicyContext) (fv : validator) (r : RuleResponse) :
  is_nil element = false ->
  AddElementToContext (pc_Copy (policyContext v)) element (length pre) (nesting v)
    elementScope (ctx_Reset s) = ((pc', None), s1) ->
  newForEachValidator foreach (nesting v + 1) (rule v) pc' = Ok fv ->
  validate_nested foreach fv s1 = (Returned (Some r), s2) ->
  Status r = RuleStatusError ->
  let len := length (pre ++ element :: rest) in
  (rest <> [] ->
   validateElements_loop validate_nested v foreach elementScope len (length pre)
     (element :: rest) applyCount s
   = validateElements_loop validate_nested v foreach elementScope len (S (length pre))
       rest applyCount s2) /\
  (rest = [] ->
   validateElements_loop validate_nested v foreach elementScope len (length pre)
     (element :: rest) applyCount s
   = (Returned (internal_RuleResponse (rule v) Validation
                  ("validation failure: " +:+ Message r) RuleStatusError,
                applyCount), s2)) /\
  (forall (foreachs : list (ForEachValidation ContextEntry)) (elements : list value)
          (resp : RuleResponse) (count total : nat) (s0 s' : JSONContext),
      EvaluateList (fe_List foreach) s0 = Ok elements ->
      validateElements validate_nested v foreach elements (fe_ElementScope foreach) s0
      = (Returned (resp, count), s') ->
      Status resp <> RuleStatusPass ->
      validateForEach_loop validate_nested v (foreach :: foreachs) total s0
      = (Returned (Some resp), s')).
Proof.
  intros Hnil Hadd Hnew Hnested Hstatus len.
  pose proof (validateElements_loop_step v foreach elementScope len (length pre)
                element rest applyCount s s1 s2 pc' fv (Some r)
                Hnil Hadd Hnew Hnested) as Hstep.
  cbv beta iota in Hstep. rewrite Hstatus in Hstep.
  rewrite decide_False in Hstep by discriminate.
  rewrite decide_True in Hstep by discriminate.
  rewrite decide_True in Hstep by reflexivity.
  split; [|split].
  - intros Hrest. rewrite Hstep.
    assert (Hlt : (Z.of_nat (length pre) <? Z.of_nat len - 1) = true).
    { apply Z.ltb_lt. subst len. rewrite length_app. simpl.
      destruct rest; [congruence|simpl; lia]. }
    now rewrite Hlt.
  - intros ->. rewrite Hstep.
    assert (Hge : (Z.of_nat (length pre) <? Z.of_nat len - 1) = false).
    { apply Z.ltb_ge. subst len. rewrite length_app. simpl. lia. }
    now rewrite Hge.
  - intros foreachs elements resp count total s0 s' Hlist Hel Hresp.
    now apply (validateForEach_loop_abort v foreach foreachs total s0 s' elements resp count).
Qed.

Lemma validateForEach_loop_exhausted (v : validator)
    (foreachs : list (ForEachValidation ContextEntry)) (c : nat) (s : JSONContext)
    (n : nat) (s' : JSONContext) :
  lists_exhausted validate_nested v foreachs c s n s' ->
  validateForEach_loop validate_nested v foreachs c s
  = validateForEach_loop validate_nested v [] n s'.
Proof.
  induction 1 as [c s|foreach rest c s err n s' Hlist _ IH
                 |foreach rest c s elements resp count s1 n s' Hlist Hel Hpass _ IH].
  - reflexivity.
  - rewrite <- IH. unfold validateForEach_loop. cbn. unfold bind at 1, get at 1.
    now rewrite Hlist.
  - rewrite <- IH. unfold validateForEach_loop. cbn. unfold bind at 1, get at 1.
    rewrite Hlist. unfold bind at 1. rewrite Hel. cbn [fst snd].
    rewrite decide_False by (intros Hne; now apply Hne). reflexivity.
Qed.

(** C7.  For a validator with a for-each specification, once all its
    lists have been iterated without abort: with no element applied the
    response is "rule skipped" of status Skip, with at least one element
    applied it is "rule passed" of status Pass.  A for-each over one list
    that is empty yields Skip. *)
Theorem C7_foreach_skip_or_pass (v : validator)
    (foreachs : list (ForEachValidation ContextEntry)) (s : JSONContext)
    (n : nat) (s' : JSONContext) :
  forEach v = Some foreachs ->
  lists_exhausted validate_nested v foreachs 0 s n s' ->
  (n = 0%nat ->
   validateForEach validate_nested v s
   = (Returned (Some (RuleSkip (rule v) Validation "rule skipped")), s')) /\
  ((0 < n)%nat ->
   validateForEach validate_nested v s
   = (Returned (Some (RulePass (rule v) Validation "rule passed")), s')) /\
  (exists resp, validateForEach validate_nested v s = (Returned (Some resp), s') /\
                Status resp = if (n =? 0)%nat then RuleStatusSkip else RuleStatusPass) /\
  (forall foreach, foreachs = [foreach] -> EvaluateList (fe_List foreach) s = Ok [] ->
                   n = 0%nat /\ s' = ctx_Restore (ctx_Checkpoint s)).
Proof.
  intros Hfe Hrun.
  assert (Hv : validateForEach validate_nested v s
               = validateForEach_loop validate_nested v [] n s').
  { unfold validateForEach. rewrite Hfe. now apply validateForEach_loop_exhausted. }
  assert (Hend : validateForEach_loop validate_nested v [] n s'
                 = if (n =? 0)%nat
                   then (Returned (Some (RuleSkip (rule v) Validation "rule skipped")), s')
                   else (Returned (Some (RulePass (rule v) Validation "rule passed")), s')).
  { unfold validateForEach_loop. rewrite Hfe. now destruct (n =? 0)%nat. }
  rewrite Hv, Hend.
  split; [|split; [|split]].
  - intros ->. reflexivity.
  - intros Hn. destruct n; [lia|reflexivity].
  - destruct (n =? 0)%nat; eexists; split; reflexivity.
  - intros foreach -> Hlist.
    inversion Hrun as [|? ? ? ? ? ? ? Herr Hrest|? ? ? ? ? ? ? ? ? ? Hok Hel Hpass Hrest]; subst.
    + congruence.
    + rewrite Hlist in Hok. injection Hok as <-.
      unfold validateElements, bind, modify, defer in Hel. cbn in Hel.
      injection Hel as <- <- <-.
      inversion Hrest; subst. split; [lia|reflexivity].
Qed.

End ForEachFacts.

(** ** [validate] and the handler *)

Section ValidateFacts.
Context `{EngineEnv}.

(** The validator that [newForEachValidator] builds from a declaration
    carries the nested declarations of that declaration, so
    [validate_foreach] on it is [validate]. *)
Lemma validate_foreach_newForEachValidator
    (foreach : ForEachValidation ContextEntry) (n : nat) (r : Rule ContextEntry)
    (ctx : PolicyContext) (fv : validator) :
  newForEachValidator foreach n r ctx = Ok fv ->
  validate_foreach foreach fv = validate fv.
Proof.
  unfold newForEachValidator.
  destruct foreach as [l c conds p ap d nested sc]; simpl.
  destruct conds as [conds|e]; [|discriminate].
  destruct nested as [nested|e]; [|discriminate].
  intros [= <-]. reflexivity.
Qed.

(** C10.  When the context loads, the preconditions hold and the
    validator has no deny, no pattern, no anyPattern and no for-each,
    [validate] returns nil: no response, not an Error response; the
    handler then returns the resource with an empty list of responses. *)
Theorem C10_empty_validation_spec (v : validator) (s s1 : JSONContext) :
  contextLoader (contextEntries v) s = (None, s1) ->
  CheckPreconditions s1 (anyAllConditions v) = Ok true ->
  deny v = None ->
  pattern v = VNull ->
  anyPattern v = VNull ->
  forEach v = None ->
  validate v s = (Returned None, s1) /\
  (forall (policyContext : PolicyContext) (resource : Unstructured) (r : Rule ContextEntry),
      v = newValidator policyContext r ->
      Process policyContext resource r s = (Returned (resource, []), s1)).
Proof.
  intros Hload Hpre Hdeny Hpat Hany Hfe.
  assert (Hv : validate v s = (Returned None, s1)).
  { unfold validate, validate_with. unfold bind at 1, loadContext at 1.
    rewrite Hload. unfold bind at 1, get at 1. rewrite Hpre. simpl.
    rewrite Hdeny, Hpat, Hany, Hfe. reflexivity. }
  split; [exact Hv|].
  intros pc resource r ->. unfold Process, bind. now rewrite Hv.
Qed.

End ValidateFacts.

(** ** The image-verification pass *)

Section ImageVerifyFacts.
Context `{EngineEnv}.
Variable Handler : Type.
Variable ImageVerificationMetadata : Type.
Variable NewMutateImageHandler :
  PolicyContext -> Unstructured -> Rule ContextEntry -> res string Handler.
Variable invokeRuleHandler :
  res string (option Handler) -> PolicyContext -> Unstructured -> Rule ContextEntry ->
  RuleType -> JSONContext * ImageVerificationMetadata ->
  (Unstructured * list RuleResponse) * (JSONContext * ImageVerificationMetadata).
Variable counts_as_applied : RuleResponse -> bool.

Local Abbreviation loop :=
  (verifyAndPatchImages_loop Handler ImageVerificationMetadata NewMutateImageHandler
     invokeRuleHandler counts_as_applied).

(** C9.  In mode ApplyOne the loop over the rules stops at the first rule
    after which a response has been counted as applied: whatever the
    handlers do to the shared state, the outcome on a rule list is the
    outcome on the list cut after that rule, so no later rule is
    evaluated. *)
Theorem C9_apply_one_stops (policyContext : PolicyContext)
    (pre : list (Rule ContextEntry)) (r : Rule ContextEntry)
    (post : list (Rule ContextEntry)) (resp : PolicyResponse)
    (matchedResource : Unstructured) (w : JSONContext * ImageVerificationMetadata) :
  (0 < RulesAppliedCount
         (fst (loop policyContext ApplyOne (pre ++ [r]) resp matchedResource w)))%nat ->
  loop policyContext ApplyOne (pre ++ r :: post) resp matchedResource w
  = loop policyContext ApplyOne (pre ++ [r]) resp matchedResource w.
Proof.
  revert resp matchedResource w.
  induction pre as [|a pre IH]; intros resp matchedResource w Hcount; simpl in *.
  - destruct (invokeRuleHandler _ policyContext matchedResource r ImageVerify w)
      as [[resource ruleResp] w'].
    destruct (0 <? RulesAppliedCount (fold_left _ ruleResp resp))%nat eqn:Hc.
    + reflexivity.
    + simpl in Hcount. apply Nat.ltb_ge in Hc. lia.
  - destruct (invokeRuleHandler _ policyContext matchedResource a ImageVerify w)
      as [[resource ruleResp] w'].
    destruct (0 <? RulesAppliedCount (fold_left _ ruleResp resp))%nat eqn:Hc.
    + reflexivity.
    + simpl in *. now apply IH.
Qed.

End ImageVerifyFacts.

(** ** Runs on the stand-ins *)

Section Examples.
Import Reference.

(** C2, counterexample to the claim as stated: on a patch text that does
    not convert, the status of the response is Fail, not Error; the
    document returned is the empty one. *)
Lemma C2_status_is_Fail :
  convert_empty_only (patches broken_patch) = Err "unexpected end of JSON input" /\
  Status (fst (Patch convert_empty_only process_nothing broken_patch)) = RuleStatusFail /\
  Status (fst (Patch convert_empty_only process_nothing broken_patch)) <> RuleStatusError /\
  snd (Patch convert_empty_only process_nothing broken_patch) = empty_Unstructured.
Proof. repeat split. discriminate. Qed.

Lemma C2_witness :
  convert_empty_only (patches broken_patch) = Err "unexpected end of JSON input" /\
  Patch convert_empty_only process_nothing broken_patch
  = (mkRuleResponse "add-label" Mutation "unexpected end of JSON input" RuleStatusFail,
     empty_Unstructured).
Proof.
  split; [reflexivity|].
  apply (C2_patch_conversion_error convert_empty_only process_nothing broken_patch).
  reflexivity.
Defined.

(** C1, counterexample to the claim as stated: a rule with one for-each
    list of a single element whose validation ends in Error.  The
    response of the rule has status Error, not Fail. *)
Lemma C1_last_error_keeps_status :
  validate (newValidator VNull (rule_foreach "r" (VString ""))) [VNumber f1]
  = (Returned (Some (mkRuleResponse "r" Validation
       "validation failure: validation error: rule r execution error: mismatch"
       RuleStatusError)), [VNumber f1]) /\
  RuleStatusError <> RuleStatusFail.
Proof. split; [vm_compute; reflexivity|discriminate]. Qed.

Lemma C1_witness :
  is_nil (VString "boom") = false /\
  nested_by_element (foreach_pattern VNull) v_boom []
  = (Returned (Some (mkRuleResponse "r" Validation "boom" RuleStatusError)), []) /\
  validateElements_loop nested_by_element v_foreach (foreach_pattern VNull) None 2 0
    [VString "boom"; VBool true] 0 []
  = validateElements_loop nested_by_element v_foreach (foreach_pattern VNull) None 2 1
      [VBool true] 0 [].
Proof.
  split; [reflexivity|]. split; [reflexivity|].
  refine (proj1 (C1_foreach_element_error (H := list_engine) nested_by_element
                   v_foreach (foreach_pattern VNull) None
                   [] (VString "boom") [VBool true] 0%nat [] [] [] (VString "boom")
                   v_boom (mkRuleResponse "r" Validation "boom" RuleStatusError)
                   eq_refl eq_refl eq_refl eq_refl eq_refl) _).
  discriminate.
Defined.

(** An error on an element that is not the last does not keep a later
    element from passing: the rule passes. *)
Lemma foreach_error_then_pass :
  validateForEach nested_by_element v_foreach
    [VString "boom"; VBool true]
  = (Returned (Some (mkRuleResponse "r" Validation "rule passed" RuleStatusPass)),
     [VString "boom"; VBool true]).
Proof. vm_compute. reflexivity. Qed.

Lemma exhausted_one_pass :
  lists_exhausted nested_by_element v_foreach
    [foreach_pattern VNull] 0 [VBool true] 1 [VBool true].
Proof.
  eapply exhausted_validated with
    (elements := [VBool true])
    (resp := mkRuleResponse "r" Validation "" RuleStatusPass)
    (count := 1%nat) (s1 := [VBool true]); try reflexivity.
  apply (@exhausted_nil list_engine).
Qed.

Lemma C7_witness :
  forEach v_foreach = Some [foreach_pattern VNull] /\
  (0 < 1)%nat /\
  validateForEach nested_by_element v_foreach [VBool true]
  = (Returned (Some (mkRuleResponse "r" Validation "rule passed" RuleStatusPass)),
     [VBool true]).
Proof.
  split; [reflexivity|]. split; [lia|].
  apply (proj1 (proj2 (C7_foreach_skip_or_pass (H := list_engine) nested_by_element
                         v_foreach
                         [foreach_pattern VNull] [VBool true] 1 [VBool true]
                         eq_refl exhausted_one_pass))).
  lia.
Defined.

(** A for-each all of whose elements are skipped or nil yields Skip. *)
Lemma foreach_all_skipped :
  validateForEach nested_by_element v_foreach [VBool false; VNull; VBool false]
  = (Returned (Some (mkRuleResponse "r" Validation "rule skipped" RuleStatusSkip)),
     [VBool false; VNull; VBool false]).
Proof. vm_compute. reflexivity. Qed.

(** A for-each over an empty list yields Skip. *)
Lemma foreach_over_empty_list :
  validate (newValidator VNull (rule_foreach "r" (VBool true))) []
  = (Returned (Some (mkRuleResponse "r" Validation "rule skipped" RuleStatusSkip)), []).
Proof. vm_compute. reflexivity. Qed.

Lemma C6_witness :
  pattern v_anyPattern = VNull /\
  anyPattern v_anyPattern = VArray [VString "spec.replicas"; VBool true] /\
  validatePatterns v_anyPattern (mkUnstructured (Some ∅)) []
  = (Returned (Some (mkRuleResponse "r" Validation
                       "validation rule 'r' anyPattern[1] passed." RuleStatusPass)), []).
Proof.
  split; [reflexivity|]. split; [reflexivity|].
  refine (proj1 (C6_anyPattern (H := list_engine) v_anyPattern (mkUnstructured (Some ∅))
                   [VString "spec.replicas"; VBool true] [] eq_refl eq_refl)
            [VString "spec.replicas"] (VBool true) [] eq_refl _ eq_refl).
  repeat constructor. discriminate.
Defined.

(** C6, counterexample to the claim as stated: an anyPattern without
    candidates.  Every candidate is skip-worthy and none fails outright,
    yet the result is Pass (with the rule's message), not Skip. *)
Lemma C6_no_candidates_pass :
  Forall (skip_worthy (mkUnstructured (Some ∅))) [] /\
  ~ Exists (fails_outright (mkUnstructured (Some ∅))) [] /\
  validatePatterns (newValidator VNull (rule_anyPattern "r" [])) (mkUnstructured (Some ∅)) []
  = (Returned (Some (mkRuleResponse "r" Validation "" RuleStatusPass)), []) /\
  RuleStatusPass <> RuleStatusSkip.
Proof.
  split; [constructor|]. split; [intros Hex; inversion Hex|].
  split; [reflexivity|discriminate].
Qed.

(** Two candidates of which neither matches: Fail, with both reasons. *)
Lemma anyPattern_two_failures :
  validatePatterns
    (newValidator VNull (rule_anyPattern "r" [VString "spec.a"; VString "spec.b"]))
    (mkUnstructured (Some ∅)) []
  = (Returned (Some (mkRuleResponse "r" Validation
       "validation error: rule r[0] failed at path spec.a rule r[1] failed at path spec.b"
       RuleStatusFail)), []).
Proof. vm_compute. reflexivity. Qed.

Lemma C10_witness :
  contextLoader (contextEntries v_nothing) [] = (None, []) /\
  CheckPreconditions [] (anyAllConditions v_nothing) = Ok true /\
  Process VNull (mkUnstructured (Some ∅)) (rule_without_validation "r") []
  = (Returned (mkUnstructured (Some ∅), []), []).
Proof.
  split; [reflexivity|]. split; [reflexivity|].
  apply (proj2 (C10_empty_validation_spec (H := list_engine) v_nothing [] []
                  eq_refl eq_refl eq_refl eq_refl eq_refl eq_refl)).
  reflexivity.
Defined.

Lemma C9_witness :
  (0 < RulesAppliedCount (fst (image_run ([] ++ [image_rule "r1"]))))%nat /\
  image_run ([] ++ image_rule "r1" :: [image_rule "r2"; image_rule "r3"])
  = image_run ([] ++ [image_rule "r1"]) /\
  snd (snd (image_run [image_rule "r1"; image_rule "r2"; image_rule "r3"]))
  = ["r1"]%string.
Proof.
  split; [vm_compute; lia|]. split; [|reflexivity].
  apply (C9_apply_one_stops (H := list_engine) unit (list string) (fun _ _ _ => Ok tt)
           logging_invoke pass_or_fail VNull [] (image_rule "r1")
           [image_rule "r2"; image_rule "r3"]).
  vm_compute. lia.
Defined.

End Examples.

(** * Part III: further properties of the code *)

(** ** More on the arithmetic operands *)

Section MoreArithmeticFacts.
Context `{QuantityLib}.

Lemma mul_comm (x y : float64) : mul x y = mul y x.
Proof.
  unfold mul. destruct x as [sx|sx| |sx mx ex], y as [sy|sy| |sy my ey]; simpl;
    try reflexivity; try (now rewrite xorb_comm).
  now rewrite xorb_comm, Pos.mul_comm, Z.add_comm.
Qed.

Lemma wrap64_range (z : Z) : min_int64 <= wrap64 z <= max_int64.
Proof.
  unfold wrap64, min_int64, max_int64.
  pose proof (Z.mod_pos_bound (z + 2 ^ 63) (2 ^ 64) ltac:(lia)). lia.
Qed.

Lemma wrap64_small (z : Z) : min_int64 <= z <= max_int64 -> wrap64 z = z.
Proof.
  unfold wrap64, min_int64, max_int64. intros Hz.
  rewrite Z.mod_small by lia. lia.
Qed.

Lemma wrap64_add_sub (a b : Z) : wrap64 (wrap64 (a + b) - b) = wrap64 a.
Proof.
  unfold wrap64. f_equal.
  rewrite (Z.mod_eq (a + b + 2 ^ 63) (2 ^ 64)) by lia.
  set (q := (a + b + 2 ^ 63) / 2 ^ 64).
  replace (a + b + 2 ^ 63 - 2 ^ 64 * q - 2 ^ 63 - b + 2 ^ 63)
    with (a + 2 ^ 63 + (- q) * 2 ^ 64) by ring.
  apply Z_mod_plus_full.
Qed.

(** X1.  Multiply does not depend on the order of its operands: for every
    pair of operands, of any tags, [multiply(a, b)] and [multiply(b, a)]
    return the same value or the same error. *)
Theorem X1_multiply_commutes (op1 op2 : Operand) :
  Multiply op1 op2 = Multiply op2 op1.
Proof.
  destruct op1 as [q1|d1|f1], op2 as [q2|d2|f2]; simpl; try reflexivity.
  now rewrite mul_comm.
Qed.

(** X2.  On durations, subtract undoes add even when the sum overflows:
    for durations [a] and [b] (of the [int64] range), [add(a, b)] returns
    a duration [c] of the [int64] range, and [subtract(c, b)] returns
    [a]. *)
Theorem X2_duration_add_subtract (a b : Duration.Duration) :
  min_int64 <= a <= max_int64 ->
  exists c,
    Add (ODuration a) (ODuration b) add_name = Ok (RDurationString c) /\
    min_int64 <= c <= max_int64 /\
    Subtract (ODuration c) (ODuration b) = Ok (RDurationString a).
Proof.
  intros Ha. exists (wrap64 (a + b)). split; [reflexivity|]. split; [apply wrap64_range|].
  simpl. now rewrite wrap64_add_sub, wrap64_small.
Qed.

(** X3.  When modulo on two scalars returns a value, the value is a float
    without fractional part, and both operands are the floats of the
    integers the remainder was taken of. *)
Theorem X3_scalar_modulo_result (a b : float64) (v : Result) :
  Modulo (OScalar a) (OScalar b) = Ok v ->
  exists f, v = RFloat f /\ has_fraction f = false /\
            f = of_int (Z.rem (to_int64 a) (to_int64 b)) /\
            eqb a (of_int (to_int64 a)) = true /\
            eqb b (of_int (to_int64 b)) = true /\
            to_int64 b <> 0.
Proof.
  simpl. unfold Scalar_Modulo.
  destruct (eqb a (of_int (to_int64 a))) eqn:Ha; [|discriminate].
  destruct (eqb b (of_int (to_int64 b))) eqn:Hb; [|discriminate]. simpl.
  destruct (to_int64 b =? 0) eqn:Hz; [discriminate|].
  intros [= <-]. eexists. split; [reflexivity|]. split; [apply of_int_no_fraction|].
  repeat split. now apply Z.eqb_neq.
Qed.

Lemma parseOperand_None (arguments : list value) (i : nat) :
  parseOperand arguments i = None <-> unreadable arguments i.
Proof.
  unfold parseOperand, unreadable, validateArg.
  destruct (arguments !! i) as [[| | |s| |]|]; simpl; try (split; [tauto|reflexivity]).
  - split; [discriminate|tauto].
  - destruct (ParseQuantity s) as [q|e1]; [split; [discriminate|intros [[e He] _]; discriminate]|].
    destruct (ParseDuration s) as [d|e2]; [split; [discriminate|intros [_ [e He]]; discriminate]|].
    split; [intros _; split; eauto|reflexivity].
Qed.

Lemma operation_not_generic (op : Operator) (op1 op2 : Operand) (e : error) :
  apply_operator op op1 op2 = Err e -> kind_of e <> Some genericError.
Proof.
  destruct op, op1 as [q1|d1|f1], op2 as [q2|d2|f2]; simpl;
    unfold Quantity_Multiply, Duration_Multiply, Quantity_Divide, Duration_Divide,
      Scalar_Divide, Quantity_Modulo, Duration_Modulo, Scalar_Modulo;
    intros He;
    repeat match type of He with
      | context [if ?b then _ else _] => destruct b
      | context [match ParseQuantity ?s with _ => _ end] => destruct (ParseQuantity s)
      end;
    try discriminate He; injection He as <-; simpl; discriminate.
Qed.

Lemma jp_handler_unfold (op : Operator) (arguments : list value) :
  jp_handler op arguments =
  match ParseArithemticOperands arguments (operator_name op) with
  | Err err => Err err
  | Ok (op1, op2) => apply_operator op op1 op2
  end.
Proof.
  destruct op; simpl; unfold jpAdd, _jpAdd, jpSubtract, jpMultiply, jpDivide, jpModulo;
    destruct (ParseArithemticOperands arguments _) as [[op1 op2]|e]; reflexivity.
Qed.

(** X4.  An arithmetic function fails with the generic "invalid operands"
    error exactly when one of its two arguments is unreadable: missing,
    neither a number nor a string (null, a boolean, an array, an object),
    or a string that is neither a quantity nor a duration.  The error
    names the function that was called. *)
Theorem X4_invalid_operands (op : Operator) (arguments : list value) :
  (unreadable arguments 0 \/ unreadable arguments 1 ->
   jp_handler op arguments
   = Err (formatError genericError (operator_name op) ["invalid operands"])) /\
  (forall e, jp_handler op arguments = Err e -> kind_of e = Some genericError ->
             unreadable arguments 0 \/ unreadable arguments 1).
Proof.
  rewrite jp_handler_unfold. unfold ParseArithemticOperands. split.
  - intros [Hu|Hu]; apply parseOperand_None in Hu; rewrite Hu; [reflexivity|].
    now destruct (parseOperand arguments 0).
  - intros e He Hk.
    destruct (parseOperand arguments 0) as [op1|] eqn:H0;
      [|left; now apply parseOperand_None].
    destruct (parseOperand arguments 1) as [op2|] eqn:H1;
      [|right; now apply parseOperand_None].
    exfalso. now apply (operation_not_generic op op1 op2 e).
Qed.

End MoreArithmeticFacts.

(** ** [sum], [items] on arrays, [object_from_lists], [label_match], [compare] *)

Section SumFacts.
Context `{QuantityLib}.
Variable Quantity_String : Quantity -> string.
Variable Duration_String : Duration.Duration -> string.

Local Abbreviation sum := (jpSum Quantity_String Duration_String).
Local Abbreviation sum_loop := (jpSum_loop Quantity_String Duration_String).

Lemma jpSum_loop_numbers (xs : list float64) (x : float64) :
  sum_loop (VNumber <$> xs) (VNumber x) = Ok (VNumber (fold_left add xs x)).
Proof.
  revert x. induction xs as [|y xs IH]; intros x; [reflexivity|].
  simpl. apply IH.
Qed.

(** X5.  [sum] of an array of numbers is their sum taken from left to
    right in floating point, starting with the first; [sum] of a
    one-element array returns the element as it is, whatever its type. *)
Theorem X5_sum_of_numbers :
  (forall (x : float64) (xs : list float64),
      sum [VArray (VNumber <$> (x :: xs))] = Returned (Ok (VNumber (fold_left add xs x)))) /\
  (forall v : value, sum [VArray [v]] = Returned (Ok v)).
Proof.
  split.
  - intros x xs.
    change (sum [VArray (VNumber <$> (x :: xs))])
      with (Returned (sum_loop (VNumber <$> xs) (VNumber x))).
    now rewrite jpSum_loop_numbers.
  - reflexivity.
Qed.

Lemma jpSum_loop_error (items : list value) (result : value) (e : error) :
  sum_loop items result = Err e ->
  exists k d, e = formatError k sum_name d /\ (k = genericError \/ k = typeMismatchError).
Proof.
  revert result. induction items as [|item rest IH]; intros result; simpl; [discriminate|].
  unfold _jpAdd.
  destruct (ParseArithemticOperands [result; item] sum_name) as [[op1 op2]|e0] eqn:Hp.
  - destruct (Add op1 op2 sum_name) as [r|e1] eqn:Ha.
    + apply IH.
    + intros [= <-].
      destruct op1, op2; simpl in Ha; try discriminate; injection Ha as <-; eauto.
  - intros [= <-]. unfold ParseArithemticOperands in Hp.
    destruct (parseOperand [result; item] 0), (parseOperand [result; item] 1);
      try discriminate; injection Hp as <-; eauto.
Qed.

(** X6.  Whatever goes wrong in [sum] is reported under the name "sum":
    every error it returns is a type mismatch or a generic error of the
    function [sum], never an error of [add]; on an empty array it is the
    generic error, on an argument that is not an array the type
    mismatch. *)
Theorem X6_sum_errors (arguments : list value) (e : error) :
  sum arguments = Returned (Err e) ->
  (exists k d, e = formatError k sum_name d /\ (k = genericError \/ k = typeMismatchError)) /\
  (arguments !! 0%nat = Some (VArray []) ->
   e = formatError genericError sum_name ["at least one element in the array is required"]) /\
  ((forall items, arguments !! 0%nat <> Some (VArray items)) ->
   e = formatError typeMismatchError sum_name []).
Proof.
  unfold jpSum. intros Hsum.
  destruct (arguments !! 0%nat) as [[| | | |items|]|] eqn:H0; try discriminate;
    try (injection Hsum as <-; split; [eauto|split; [discriminate|reflexivity]]).
  destruct items as [|first rest].
  - injection Hsum as <-. split; [eauto|]. split; [reflexivity|].
    intros Hno. now destruct (Hno []).
  - injection Hsum as Hloop. split; [now apply (jpSum_loop_error rest first)|].
    split; [discriminate|]. intros Hno. now destruct (Hno (first :: rest)).
Qed.

End SumFacts.

Section ItemsArrayFacts.

Lemma items_of_array_lookup (keyName valName : string) (l : list value) :
  forall (index : Z) (i : nat),
    items_of_array keyName valName index l !! i
    = (fun x => item keyName valName (VNumber (of_int (index + Z.of_nat i))) x) <$> (l !! i).
Proof.
  induction l as [|x l IH]; intros index i; [reflexivity|].
  destruct i as [|i]; simpl.
  - now rewrite Z.add_0_r.
  - rewrite IH. now replace (index + 1 + Z.of_nat i) with (index + Z.pos (Pos.of_succ_nat i)) by lia.
Qed.

Lemma items_of_array_length (keyName valName : string) (l : list value) :
  forall index, length (items_of_array keyName valName index l) = length l.
Proof. induction l as [|x l IH]; intros index; simpl; [reflexivity|now rewrite IH]. Qed.

(** X7.  On an array, [items] returns an array of the same length whose
    entry at position [i] is the object [{keyName: i, valName: x}], [x]
    being the element at position [i] and the index a number; the order of
    the elements is kept and the map-iteration order plays no part. *)
Theorem X7_items_of_array (range_keys : gmap string value -> list string)
    (input : list value) (keyName valName : string) :
  exists out : list value,
    jpItems range_keys [VArray input; VString keyName; VString valName]
    = Some (Ok (VArray out)) /\
    length out = length input /\
    (forall i, out !! i
               = (fun x => item keyName valName (VNumber (of_int (Z.of_nat i))) x)
                   <$> (input !! i)).
Proof.
  exists (items_of_array keyName valName 0 input).
  split; [reflexivity|]. split; [apply items_of_array_length|].
  intros i. now rewrite items_of_array_lookup.
Qed.

End ItemsArrayFacts.

Section ObjectFromListsFacts.
Variable FormatFloat : float64 -> string.

Local Abbreviation toString := (ifaceToString FormatFloat).
Local Abbreviation loop := (objectFromLists_loop FormatFloat).

Lemma objectFromLists_loop_ok (values : list value) (keys : list value) (ks : list string) :
  Forall2 (fun ikey k => toString ikey = Ok k) keys ks ->
  forall (i : nat) (output : gmap string value),
  exists output',
    loop values i keys output = Ok output' /\
    (forall k, k ∉ ks -> output' !! k = output !! k) /\
    (forall j k, ks !! j = Some k ->
                 (forall j', (j < j')%nat -> ks !! j' <> Some k) ->
                 output' !! k = Some (default VNull (values !! (i + j)%nat))).
Proof.
  induction 1 as [|ikey k0 keys ks Hk0 _ IH]; intros i output.
  - exists output. split; [reflexivity|]. split; [reflexivity|]. intros j k Hj. discriminate.
  - simpl. rewrite Hk0.
    set (v := if (i <? length values)%nat then default VNull (values !! i) else VNull).
    assert (Hv : v = default VNull (values !! i)).
    { subst v. destruct (i <? length values)%nat eqn:Hlt; [reflexivity|].
      apply Nat.ltb_ge in Hlt. now rewrite lookup_ge_None_2. }
    destruct (IH (S i) (<[k0 := v]> output)) as (output' & Hloop & Hout & Hin).
    exists output'. split; [exact Hloop|]. split.
    + intros k Hk. apply not_elem_of_cons in Hk as [Hne Hk].
      rewrite (Hout k Hk). now rewrite lookup_insert_ne.
    + intros [|j] k Hj Hlast.
      * injection Hj as ->.
        assert (Hnot : k ∉ ks).
        { intros [j' Hj']%list_elem_of_lookup. apply (Hlast (S j')); [lia|exact Hj']. }
        rewrite (Hout k Hnot), lookup_insert_eq, Hv. now rewrite Nat.add_0_r.
      * simpl in Hj. replace (i + S j)%nat with (S i + j)%nat by lia.
        apply Hin; [exact Hj|]. intros j' Hlt. apply (Hlast (S j')). lia.
Qed.

Lemma objectFromLists_loop_error (values : list value) (keys : list value) :
  Exists (fun ikey => exists e, toString ikey = Err e) keys ->
  forall (i : nat) (output : gmap string value),
    loop values i keys output
    = Err (formatError invalidArgumentTypeError objectFromLists_name ["0"; "StringArray"]).
Proof.
  induction 1 as [ikey keys [e He]|ikey keys _ IH]; intros i output; simpl.
  - now rewrite He.
  - destruct (toString ikey); [apply IH|reflexivity].
Qed.

(** X8.  [object_from_lists(keys, values)], when every key has a text
    (string, number or boolean), returns an object that has exactly the
    texts of the keys as fields; a key that occurs several times takes the
    value at its last position, and a key at a position beyond the end of
    [values] takes null.  When some key is null, an array or an object the
    call fails with an InvalidArgumentType error. *)
Theorem X8_object_from_lists (keys values : list value) :
  (forall ks : list string,
      Forall2 (fun ikey k => toString ikey = Ok k) keys ks ->
      exists output : gmap string value,
        jpObjectFromLists FormatFloat [VArray keys; VArray values]
        = Returned (Ok (VObject output)) /\
        (forall k, is_Some (output !! k) <-> k ∈ ks) /\
        (forall j k, ks !! j = Some k ->
                     (forall j', (j < j')%nat -> ks !! j' <> Some k) ->
                     output !! k = Some (default VNull (values !! j)))) /\
  (Exists (fun ikey => exists e, toString ikey = Err e) keys ->
   jpObjectFromLists FormatFloat [VArray keys; VArray values]
   = Returned (Err (formatError invalidArgumentTypeError objectFromLists_name
                      ["0"; "StringArray"]))).
Proof.
  split.
  - intros ks Hks.
    destruct (objectFromLists_loop_ok values keys ks Hks 0 ∅) as (output & Hloop & Hout & Hin).
    exists output. split; [|split].
    + unfold jpObjectFromLists. simpl. now rewrite Hloop.
    + intros k. split.
      * intros Hsome. destruct (decide (k ∈ ks)) as [|Hnot]; [assumption|].
        rewrite (Hout k Hnot), lookup_empty in Hsome. now destruct Hsome.
      * intros Hk.
        assert (Hlast : exists j, ks !! j = Some k /\
                                  forall j', (j < j')%nat -> ks !! j' <> Some k).
        { clear -Hk. induction ks as [|k0 ks IH]; [now apply elem_of_nil in Hk|].
          destruct (decide (k ∈ ks)) as [Hin|Hnot].
          - destruct (IH Hin) as (j & Hj & Hlast). exists (S j). split; [exact Hj|].
            intros [|j'] Hlt; [lia|]. apply Hlast. lia.
          - apply elem_of_cons in Hk as [->|Hin]; [|contradiction].
            exists 0%nat. split; [reflexivity|].
            intros [|j'] Hlt; [lia|]. simpl. intros Hj'.
            apply Hnot. now apply list_elem_of_lookup_2 in Hj'. }
        destruct Hlast as (j & Hj & Hlast). rewrite (Hin j k Hj Hlast). eauto.
    + intros j k Hj Hlast. now rewrite (Hin j k Hj Hlast).
  - intros Hex. unfold jpObjectFromLists. simpl.
    now rewrite (objectFromLists_loop_error values keys Hex).
Qed.

(** X9.  A map is rebuilt from its keys and its values: for a list [ks]
    of the keys of [m] without repetition, in any order,
    [object_from_lists(ks, values of m at ks)] is [m]. *)
Theorem X9_object_from_lists_round_trip (m : gmap string value) (ks : list string) :
  ks ≡ₚ (map_to_list m).*1 ->
  jpObjectFromLists FormatFloat [VArray (VString <$> ks); VArray (map_index m <$> ks)]
  = Returned (Ok (VObject m)).
Proof.
  intros Hperm.
  assert (Hnd : NoDup ks) by (rewrite Hperm; apply NoDup_fst_map_to_list).
  assert (Hks : Forall2 (fun ikey k => toString ikey = Ok k) (VString <$> ks) ks).
  { clear. induction ks; constructor; auto. }
  destruct (objectFromLists_loop_ok (map_index m <$> ks) (VString <$> ks) ks Hks 0 ∅)
    as (output & Hloop & Hout & Hin).
  unfold jpObjectFromLists. simpl. rewrite Hloop. do 3 f_equal.
  apply map_eq. intros k.
  destruct (decide (k ∈ ks)) as [Hk|Hnot].
  - apply list_elem_of_lookup in Hk as [j Hj].
    rewrite (Hin j k Hj).
    + simpl. rewrite list_lookup_fmap, Hj. simpl. unfold map_index.
      assert (Hm : k ∈ (map_to_list m).*1).
      { rewrite <- Hperm. now apply list_elem_of_lookup_2 in Hj. }
      apply list_elem_of_fmap in Hm as [[k' v] [-> Hkv]].
      apply elem_of_map_to_list in Hkv. simpl. now rewrite Hkv.
    + intros j' Hlt Hj'. pose proof (NoDup_lookup ks j j' k Hnd Hj Hj'). lia.
  - rewrite (Hout k Hnot), lookup_empty. symmetry.
    apply not_elem_of_dom. intros Hdom. apply Hnot. rewrite Hperm.
    apply elem_of_dom in Hdom as [v Hv].
    apply list_elem_of_fmap. exists (k, v). split; [reflexivity|].
    now apply elem_of_map_to_list.
Qed.

End ObjectFromListsFacts.

Section LabelMatchFacts.

Lemma iface_eq_scalar (val v : value) : is_scalar v -> is_Some (iface_eq val v).
Proof. destruct val, v; simpl; intros Hs; try contradiction; eauto. Qed.

Lemma iface_eq_string (val : value) (s : string) :
  iface_eq val (VString s) = Some true <-> val = VString s.
Proof.
  destruct val; simpl; split; try discriminate.
  - intros [= Heq]. apply String.eqb_eq in Heq. now subst.
  - intros [= ->]. now rewrite String.eqb_refl.
Qed.

Lemma labelMatch_loop_scalar (labelMap matchMap : gmap string value) (keys : list string) :
  Forall (fun k => is_scalar (map_index labelMap k)) keys ->
  exists b : bool,
    labelMatch_loop labelMap matchMap keys = Some b /\
    (b = true <->
     forall k, k ∈ keys ->
               exists val, matchMap !! k = Some val /\
                           iface_eq val (map_index labelMap k) = Some true).
Proof.
  induction 1 as [|key keys Hkey _ (b & Hloop & Hb)]; simpl.
  - exists true. split; [reflexivity|]. split; [|reflexivity].
    intros _ k Hk. now apply elem_of_nil in Hk.
  - destruct (matchMap !! key) as [val|] eqn:Hm.
    + destruct (iface_eq_scalar val _ Hkey) as [[|] Heq]; rewrite Heq.
      * exists b. split; [exact Hloop|]. rewrite Hb. split.
        -- intros Hall k [->|Hk]%elem_of_cons; [eauto|now apply Hall].
        -- intros Hall k Hk. apply Hall. now apply list_elem_of_further.
      * exists false. split; [reflexivity|]. split; [discriminate|].
        intros Hall. destruct (Hall key (list_elem_of_here _ _)) as (val' & Hval & Heq').
        congruence.
    + exists false. split; [reflexivity|]. split; [discriminate|].
      intros Hall. destruct (Hall key (list_elem_of_here _ _)) as (val' & Hval & _).
      congruence.
Qed.

(** X10.  On a label map whose values are scalars, [label_match] never
    panics, does not depend on the order in which the map is iterated, and
    returns [true] exactly when every label is a field of the other map
    with an equal value; when the values of the label map are strings this
    is map inclusion. *)
Theorem X10_label_match (range_keys : gmap string value -> list string)
    (labelMap matchMap : gmap string value) :
  range_keys labelMap ≡ₚ (map_to_list labelMap).*1 ->
  (forall k v, labelMap !! k = Some v -> is_scalar v) ->
  exists b : bool,
    jpLabelMatch range_keys [VObject labelMap; VObject matchMap] = Returned (Ok (VBool b)) /\
    (b = true <->
     forall k v, labelMap !! k = Some v ->
                 exists val, matchMap !! k = Some val /\ iface_eq val v = Some true) /\
    ((forall k v, labelMap !! k = Some v -> exists s, v = VString s) ->
     (b = true <-> labelMap ⊆ matchMap)).
Proof.
  intros Hrange Hscalar.
  assert (Hin : forall k, k ∈ range_keys labelMap <-> is_Some (labelMap !! k)).
  { intros k. rewrite Hrange. split.
    - intros [[k' v] [-> Hkv]]%list_elem_of_fmap. apply elem_of_map_to_list in Hkv. eauto.
    - intros [v Hv]. apply list_elem_of_fmap. exists (k, v).
      split; [reflexivity|now apply elem_of_map_to_list]. }
  assert (Hall : Forall (fun k => is_scalar (map_index labelMap k)) (range_keys labelMap)).
  { apply Forall_forall. intros k [v Hv]%Hin. unfold map_index. rewrite Hv.
    now apply (Hscalar k v). }
  destruct (labelMatch_loop_scalar labelMap matchMap _ Hall) as (b & Hloop & Hb).
  exists b. split; [|split].
  - unfold jpLabelMatch. simpl. now rewrite Hloop.
  - rewrite Hb. split.
    + intros Hk k v Hv. destruct (Hk k) as (val & Hval & Heq); [apply Hin; eauto|].
      unfold map_index in Heq. rewrite Hv in Heq. eauto.
    + intros Hk k [v Hv]%Hin. destruct (Hk k v Hv) as (val & Hval & Heq).
      exists val. unfold map_index. rewrite Hv. eauto.
  - intros Hstr. rewrite Hb, map_subseteq_spec. split.
    + intros Hk k v Hv. destruct (Hk k) as (val & Hval & Heq); [apply Hin; eauto|].
      unfold map_index in Heq. rewrite Hv in Heq.
      destruct (Hstr k v Hv) as [s ->]. apply iface_eq_string in Heq. congruence.
    + intros Hsub k [v Hv]%Hin. exists v. split; [now apply Hsub|].
      unfold map_index. rewrite Hv. destruct (Hstr k v Hv) as [s ->].
      now apply iface_eq_string.
Qed.

End LabelMatchFacts.

Section CompareFacts.
Context `{QuantityLib}.

Lemma String_compare_refl (s : string) : String.compare s s = Eq.
Proof.
  pose proof (String.compare_antisym s s) as Ha.
  destruct (String.compare s s); try reflexivity; discriminate.
Qed.

(** X11.  [compare] on two strings returns [0] exactly when they are
    equal; swapping the arguments negates the result; and the result is at
    most [0] exactly when the first string comes no later than the second
    in the byte-wise order, the order in which [items] lists keys. *)
Theorem X11_compare (a b : string) :
  exists c c' : Z,
    jpfCompare [VString a; VString b] = Ok c /\
    jpfCompare [VString b; VString a] = Ok c' /\
    c' = - c /\
    (c = 0 <-> a = b) /\
    (c <= 0 <-> string_le a b) /\
    (c = -1 \/ c = 0 \/ c = 1).
Proof.
  exists (strings_Compare a b), (strings_Compare b a).
  split; [reflexivity|]. split; [reflexivity|].
  unfold strings_Compare, string_le, String.leb.
  rewrite (String.compare_antisym a b).
  destruct (String.compare b a) eqn:Hc; simpl.
  - apply String.compare_eq_iff in Hc. subst.
    split; [reflexivity|]. split; [tauto|]. split; [|tauto]. split; [reflexivity|lia].
  - assert (Hne : a <> b).
    { intros ->. rewrite String_compare_refl in Hc. discriminate. }
    split; [reflexivity|]. split; [split; [lia|tauto]|].
    split; [split; [lia|discriminate]|tauto].
  - assert (Hne : a <> b).
    { intros ->. rewrite String_compare_refl in Hc. discriminate. }
    split; [reflexivity|]. split; [split; [lia|tauto]|].
    split; [split; [reflexivity|lia]|tauto].
Qed.

End CompareFacts.

(** ** Invariants of the validator *)

Section ValidatorInvariants.
Context `{EngineEnv}.
Variable validate_nested :
  ForEachValidation ContextEntry -> validator -> M JSONContext (option RuleResponse).

Lemma bind_returned {S A B} (c : M S A) (k : A -> M S B) (s s' : S) (b : B) :
  bind c k s = (Returned b, s') ->
  exists a s1, c s = (Returned a, s1) /\ k a s1 = (Returned b, s').
Proof.
  unfold bind. destruct (c s) as [[a|msg] s1]; [eauto|discriminate].
Qed.

(** Case analysis on the next test of a computation that returned. *)
Ltac step Hr :=
  match type of Hr with
  | bind _ _ _ = (Returned _, _) =>
      let a := fresh "a" in let s1 := fresh "s" in
      let Hc := fresh "Hc" in
      apply bind_returned in Hr as (a & s1 & Hc & Hr)
  | ret _ _ = _ => unfold ret in Hr
  | get _ = _ => unfold get in Hr
  | panic _ _ = _ => discriminate Hr
  | (if ?b then _ else _) _ = _ => destruct b eqn:?
  | (if ?b then _ else _) = _ => destruct b eqn:?
  | (match ?x with _ => _ end) _ = _ => destruct x eqn:?
  | (match ?x with _ => _ end) = _ => destruct x eqn:?
  | (let (_, _) := ?x in _) = _ => destruct x eqn:?
  end.

Lemma of_rule_internal (r : Rule ContextEntry) (msg : string) (status : RuleStatus) :
  of_rule r (internal_RuleResponse r Validation msg status).
Proof. split; reflexivity. Qed.


Lemma validateDeny_total (v : validator) (d : value) (s : JSONContext) :
  exists r, validateDeny v d s = (Returned (Some r), s) /\ of_rule (rule v) r /\
    match CheckDenyPreconditions s d with
    | Err _ => Status r = RuleStatusError
    | Ok true => Status r = RuleStatusFail
    | Ok false => Status r = RuleStatusPass
    end.
Proof.
  unfold validateDeny, bind, get.
  destruct (CheckDenyPreconditions s d) as [[|]|e]; simpl.
  - unfold getDenyMessage. simpl.
    destruct (String.eqb (Validation_Message (rule v)) ""); simpl.
    + eexists. split; [reflexivity|]. split; [apply of_rule_internal|reflexivity].
    + unfold bind, get.
      destruct (SubstituteAll s (VString (Validation_Message (rule v)))) as [[]|]; simpl;
        eexists; (split; [reflexivity|]); (split; [apply of_rule_internal|reflexivity]).
  - eexists. split; [reflexivity|]. split; [apply of_rule_internal|reflexivity].
  - eexists. split; [reflexivity|]. split; [apply of_rule_internal|reflexivity].
Qed.

Lemma anyPattern_loop_of_rule (v : validator) (resource : Unstructured)
    (candidates : list value) :
  forall idx failed skipped r,
    anyPattern_loop v resource idx candidates failed skipped = inl r ->
    of_rule (rule v) r /\ Status r = RuleStatusPass.
Proof.
  induction candidates as [|p rest IH]; intros idx failed skipped r; simpl; [discriminate|].
  destruct (MatchPattern (Object resource) p) as [[err Path [|]|err]|]; try apply IH.
  intros [= <-]. split; [apply of_rule_internal|reflexivity].
Qed.

Lemma validatePatterns_of_rule (v : validator) (resource : Unstructured)
    (s s' : JSONContext) (r : RuleResponse) :
  validatePatterns v resource s = (Returned (Some r), s') -> of_rule (rule v) r.
Proof.
  unfold validatePatterns. intros Hr.
  repeat (step Hr);
    try (injection Hr as <- <-; apply of_rule_internal);
    try discriminate Hr.
  injection Hr as <- <-.
  match goal with Hl : anyPattern_loop _ _ _ _ _ _ = inl _ |- _ =>
    now apply anyPattern_loop_of_rule in Hl end.
Qed.

Lemma substitutePatterns_rule (v v' : validator) (s s' : JSONContext) :
  substitutePatterns v s = (Returned (Ok v'), s') ->
  s' = s /\ rule v' = rule v /\ policyContext v' = policyContext v /\
  forEach v' = forEach v /\ deny v' = deny v.
Proof.
  unfold substitutePatterns. intros Hr.
  repeat (step Hr); try discriminate Hr; injection Hr as <-; subst; repeat split;
    try congruence.
  all: try (injection Hc as <- <-; reflexivity).
Qed.

Lemma validateResourceWithRule_of_rule (v : validator) (s s' : JSONContext)
    (r : RuleResponse) :
  validateResourceWithRule v s = (Returned (Some r), s') -> of_rule (rule v) r.
Proof.
  unfold validateResourceWithRule. intros Hr.
  destruct (negb (IsEmptyUnstructured (pc_Element (policyContext v))));
    [now apply validatePatterns_of_rule in Hr|].
  destruct (IsDeleteRequest (policyContext v)); [discriminate|].
  now apply validatePatterns_of_rule in Hr.
Qed.

(** What [validateElements] returns: the count stays within the number of
    elements, the response is made for the rule, it is never a Skip, and
    it is a Pass only as the empty-message response of a completed loop. *)
Lemma validateElements_loop_inv (v : validator)
    (foreach : ForEachValidation ContextEntry) (elementScope : option bool) (len : nat)
    (elements : list value) :
  forall (index applyCount : nat) (s s' : JSONContext) (resp : RuleResponse) (n : nat),
    validateElements_loop validate_nested v foreach elementScope len index elements
      applyCount s = (Returned (resp, n), s') ->
    (applyCount <= n <= applyCount + length elements)%nat /\
    of_rule (rule v) resp /\
    Status resp <> RuleStatusSkip /\
    (Status resp = RuleStatusPass -> Message resp = "").
Proof.
  induction elements as [|element rest IH]; intros index applyCount s s' resp n Hr.
  - injection Hr as <- <- <-. simpl. repeat split; try lia; discriminate.
  - unfold validateElements_loop in Hr. cbn -[Z.of_nat Z.sub Z.ltb] in Hr.
    fold (validateElements_loop validate_nested v foreach elementScope len) in Hr.
    assert (Hcont : forall c s0,
      validateElements_loop validate_nested v foreach elementScope len (S index) rest c s0
      = (Returned (resp, n), s') -> (c <= applyCount + 1)%nat -> (applyCount <= c)%nat ->
      (applyCount <= n <= applyCount + length (element :: rest))%nat /\
      of_rule (rule v) resp /\ Status resp <> RuleStatusSkip /\
      (Status resp = RuleStatusPass -> Message resp = "")).
    { intros c s0 Hc Hle Hge. destruct (IH _ _ _ _ _ _ Hc) as (Hn & Hof & Hskip & Hpass).
      simpl. split; [lia|]. split; [assumption|]. split; assumption. }
    repeat (step Hr);
      try (eapply Hcont; [exact Hr|lia|lia]);
      try (injection Hr as <- <- <-; simpl;
           (split; [lia|]); (split; [apply of_rule_internal|]);
           split; congruence).
Qed.


Lemma defer_returned {S A} (f : S -> S) (c : M S A) (s s' : S) (a : A) :
  defer f c s = (Returned a, s') -> exists s1, c s = (Returned a, s1) /\ s' = f s1.
Proof.
  unfold defer. destruct (c s) as [o s1]. intros [= -> <-]. eauto.
Qed.

(** X13.  Whatever the nested validations return, a call of
    [validateElements] that returns gives a count that is at most the
    number of elements and a response made for the rule that is never a
    Skip and is a Pass only with the empty message (all elements were
    gone through); the JSON context it leaves is one that [Restore] has
    produced. *)
Theorem X13_validateElements_response (v : validator)
    (foreach : ForEachValidation ContextEntry) (elements : list value)
    (elementScope : option bool) (s s' : JSONContext) (resp : RuleResponse) (n : nat) :
  validateElements validate_nested v foreach elements elementScope s
  = (Returned (resp, n), s') ->
  (n <= length elements)%nat /\
  of_rule (rule v) resp /\
  Status resp <> RuleStatusSkip /\
  (Status resp = RuleStatusPass -> Message resp = "") /\
  exists s1, s' = ctx_Restore s1.
Proof.
  unfold validateElements. intros Hr.
  apply bind_returned in Hr as (u & s0 & _ & Hr).
  apply defer_returned in Hr as (s1 & Hr & ->).
  apply validateElements_loop_inv in Hr as (Hn & Hof & Hskip & Hpass).
  split; [simpl in Hn; lia|]. repeat (split; [assumption|]). eauto.
Qed.

Lemma validateElements_of_rule (v : validator)
    (foreach : ForEachValidation ContextEntry) (elements : list value)
    (elementScope : option bool) (s s' : JSONContext) (resp : RuleResponse) (n : nat) :
  validateElements validate_nested v foreach elements elementScope s
  = (Returned (resp, n), s') ->
  of_rule (rule v) resp /\ Status resp <> RuleStatusSkip.
Proof.
  unfold validateElements. intros Hr.
  apply bind_returned in Hr as (u & s0 & _ & Hr).
  apply defer_returned in Hr as (s1 & Hr & ->).
  apply validateElements_loop_inv in Hr as (Hn & Hof & Hskip & Hpass). now split.
Qed.

Lemma validateForEach_loop_inv (v : validator)
    (foreachs : list (ForEachValidation ContextEntry)) :
  forall (applyCount : nat) (s s' : JSONContext) (o : option RuleResponse),
    validateForEach_loop validate_nested v foreachs applyCount s = (Returned o, s') ->
    forEach_response v o.
Proof.
  induction foreachs as [|foreach rest IH]; intros applyCount s s' o Hr.
  - simpl in Hr. destruct (applyCount =? 0)%nat.
    + destruct (forEach v) eqn:Hfe; injection Hr as <- <-; simpl; [|assumption].
      split; [apply of_rule_internal|]. split; [|discriminate].
      intros _. split; [reflexivity|congruence].
    + injection Hr as <- <-. simpl.
      split; [apply of_rule_internal|]. split; [discriminate|reflexivity].
  - unfold validateForEach_loop in Hr. cbn -[validateElements] in Hr.
    fold (validateForEach_loop validate_nested v) in Hr.
    destruct (EvaluateList (fe_List foreach) s) as [elements|err]; [|now apply IH in Hr].
    apply bind_returned in Hr as ([resp count] & s1 & Hel & Hr). cbn [fst snd] in Hr.
    apply validateElements_of_rule in Hel as (Hof & Hskip).
    case_decide as Hst; [|now apply IH in Hr].
    injection Hr as <- <-. simpl. split; [assumption|]. split; intros; congruence.
Qed.

Lemma validateForEach_inv (v : validator) (s s' : JSONContext) (o : option RuleResponse) :
  validateForEach validate_nested v s = (Returned o, s') -> forEach_response v o.
Proof.
  unfold validateForEach. destruct (forEach v) eqn:Hfe; intros Hr;
    apply validateForEach_loop_inv in Hr; assumption.
Qed.

(** X14.  [validateForEach] returns no response exactly when the
    validator has no for-each declarations (a nil slice); every response
    it returns is made for the rule, a Skip always carries the message
    "rule skipped" and a Pass the message "rule passed", whatever the
    elements' own responses said. *)
Theorem X14_validateForEach_response (v : validator) (s s' : JSONContext)
    (o : option RuleResponse) :
  validateForEach validate_nested v s = (Returned o, s') ->
  (o = None <-> forEach v = None) /\
  forall r, o = Some r ->
    of_rule (rule v) r /\
    (Status r = RuleStatusSkip -> Message r = "rule skipped") /\
    (Status r = RuleStatusPass -> Message r = "rule passed").
Proof.
  intros Hr. pose proof (validateForEach_inv _ _ _ _ Hr) as Hinv. split.
  - split.
    + intros ->. exact Hinv.
    + intros Hnil. unfold validateForEach in Hr. rewrite Hnil in Hr. simpl in Hr.
      rewrite Hnil in Hr. now injection Hr as <- <-.
  - intros r ->. destruct Hinv as (Hof & Hskip & Hpass).
    split; [assumption|]. split; [|assumption]. intros Hs. now apply Hskip.
Qed.

Lemma validate_with_of_rule (v : validator) (s s' : JSONContext) (r : RuleResponse) :
  validate_with validate_nested v s = (Returned (Some r), s') -> of_rule (rule v) r.
Proof.
  unfold validate_with. intros Hr.
  apply bind_returned in Hr as (err & s1 & Hload & Hr).
  destruct err as [err|]; [injection Hr as <- <-; apply of_rule_internal|].
  unfold bind at 1, get at 1 in Hr.
  destruct (CheckPreconditions s1 (anyAllConditions v)) as [[|]|err]; simpl in Hr;
    try (injection Hr as <- <-; apply of_rule_internal).
  destruct (deny v) as [d|].
  - destruct (validateDeny_total v d s1) as (r' & Heq & Hof & _).
    rewrite Heq in Hr. now injection Hr as <- <-.
  - destruct (negb (is_nil (pattern v)) || negb (is_nil (anyPattern v))).
    + apply bind_returned in Hr as ([v'|err] & s2 & Hsub & Hr).
      * apply substitutePatterns_rule in Hsub as (_ & Hrule & _).
        apply validateResourceWithRule_of_rule in Hr. now rewrite Hrule in Hr.
      * injection Hr as <- <-. apply of_rule_internal.
    + destruct (forEach v); [|discriminate].
      apply validateForEach_inv in Hr. apply Hr.
Qed.

Lemma validatePatterns_not_nil (v : validator) (resource : Unstructured)
    (s s' : JSONContext) (o : option RuleResponse) :
  validatePatterns v resource s = (Returned o, s') -> o <> None.
Proof.
  unfold validatePatterns. intros Hr.
  repeat (step Hr); try discriminate Hr; injection Hr as <- <-; discriminate.
Qed.

(** X23.  [validate] returns nil in two situations only: the validator
    has no deny conditions, no pattern, no anyPattern and no for-each
    declarations; or it has a pattern or anyPattern (and no deny
    conditions), its element is empty and the request is a deletion. *)
Theorem X23_validate_nil_response (v : validator) (s s' : JSONContext) :
  validate_with validate_nested v s = (Returned None, s') ->
  deny v = None /\
  ((is_nil (pattern v) = true /\ is_nil (anyPattern v) = true /\ forEach v = None) \/
   ((is_nil (pattern v) = false \/ is_nil (anyPattern v) = false) /\
    IsEmptyUnstructured (pc_Element (policyContext v)) = true /\
    IsDeleteRequest (policyContext v) = true)).
Proof.
  unfold validate_with. intros Hr.
  apply bind_returned in Hr as (err & s1 & Hload & Hr).
  destruct err as [err|]; [discriminate|].
  unfold bind at 1, get at 1 in Hr.
  destruct (CheckPreconditions s1 (anyAllConditions v)) as [[|]|err]; simpl in Hr;
    try discriminate.
  destruct (deny v) as [d|].
  { destruct (validateDeny_total v d s1) as (r' & Heq & _). rewrite Heq in Hr.
    discriminate. }
  split; [reflexivity|].
  destruct (is_nil (pattern v)) eqn:Hp, (is_nil (anyPattern v)) eqn:Hap; simpl in Hr.
  1: { left. destruct (forEach v) eqn:Hfe; [|auto].
       apply validateForEach_inv in Hr. simpl in Hr. congruence. }
  all: right; split; [auto|];
    apply bind_returned in Hr as ([v'|err] & s2 & Hsub & Hr); [|discriminate];
    apply substitutePatterns_rule in Hsub as (_ & _ & Hpc & _);
    unfold validateResourceWithRule in Hr; rewrite Hpc in Hr;
    destruct (IsEmptyUnstructured (pc_Element (policyContext v))); simpl in Hr;
    [|now apply validatePatterns_not_nil in Hr];
    destruct (IsDeleteRequest (policyContext v)); [auto|];
    now apply validatePatterns_not_nil in Hr.
Qed.

End ValidatorInvariants.

Section ValidateInvariants.
Context `{EngineEnv}.

(** X15.  The validation handler returns the resource it was given and
    at most one response; the response carries the name of the rule and
    the type Validation, also when it stems from an element of a nested
    for-each. *)
Theorem X15_Process_responses (policyContext : PolicyContext) (resource : Unstructured)
    (r : Rule ContextEntry) (s s' : JSONContext) (resource' : Unstructured)
    (responses : list RuleResponse) :
  Process policyContext resource r s = (Returned (resource', responses), s') ->
  resource' = resource /\ (length responses <= 1)%nat /\
  Forall (of_rule r) responses.
Proof.
  unfold Process, validate. intros Hr.
  apply bind_returned in Hr as (rr & s1 & Hv & Hr). injection Hr as <- <- <-.
  split; [reflexivity|]. destruct rr as [resp|]; simpl.
  - split; [lia|]. constructor; [|constructor].
    now apply validate_with_of_rule in Hv.
  - split; [lia|constructor].
Qed.

End ValidateInvariants.

Section ValidatorBranches.
Context `{EngineEnv}.

Lemma bind_ext {S A B} (c : M S A) (k k' : A -> M S B) (s : S) :
  (forall a s1, c s = (Returned a, s1) -> k a s1 = k' a s1) ->
  bind c k s = bind c k' s.
Proof.
  intros Hk. unfold bind. destruct (c s) as [[a|msg] s1]; [now apply Hk|reflexivity].
Qed.

(** X12.  [validateDeny] always returns a response: it never panics and
    leaves the JSON context as it was.  The response is made for the rule,
    and its status follows the deny conditions: Error, with the text of the
    error, when they cannot be evaluated; Fail when they hold, with the
    message "validation error: rule <name> failed" when the rule has no
    message of its own; Pass, with "validation rule '<name>' passed.",
    when they do not hold. *)
Theorem X12_validateDeny_total (v : validator) (d : value) (s : JSONContext) :
  exists r,
    validateDeny v d s = (Returned (Some r), s) /\
    of_rule (rule v) r /\
    match CheckDenyPreconditions s d with
    | Err err =>
        Status r = RuleStatusError /\
        Message r = RuleError_message "failed to check deny preconditions" err
    | Ok true =>
        Status r = RuleStatusFail /\
        (Validation_Message (rule v) = "" ->
         Message r = "validation error: rule " +:+ Rule_Name (rule v) +:+ " failed")
    | Ok false =>
        Status r = RuleStatusPass /\
        Message r = "validation rule '" +:+ Rule_Name (rule v) +:+ "' passed."
    end.
Proof.
  unfold validateDeny, bind, get.
  destruct (CheckDenyPreconditions s d) as [[|]|e]; simpl.
  - unfold getDenyMessage. simpl.
    destruct (String.eqb (Validation_Message (rule v)) "") eqn:Hmsg; simpl.
    + eexists. split; [reflexivity|]. split; [apply of_rule_internal|].
      split; reflexivity.
    + unfold bind, get.
      destruct (SubstituteAll s (VString (Validation_Message (rule v)))) as [[]|]; simpl;
        eexists; (split; [reflexivity|]); (split; [apply of_rule_internal|]);
        (split; [reflexivity|]); intros Hempty; rewrite Hempty in Hmsg; discriminate.
  - eexists. split; [reflexivity|]. split; [apply of_rule_internal|]. split; reflexivity.
  - eexists. split; [reflexivity|]. split; [apply of_rule_internal|]. split; reflexivity.
Qed.

Lemma validateDeny_rule (v v' : validator) (d : value) :
  rule v' = rule v -> validateDeny v' d = validateDeny v d.
Proof.
  intros Hrule. unfold validateDeny, getDenyMessage, RuleError, RulePass.
  now rewrite Hrule.
Qed.

(** X16.  Deny conditions take precedence: two validators with the same
    rule, context entries, preconditions and deny conditions behave the
    same, whatever their patterns, anyPatterns, for-each declarations,
    policy contexts and nested validators are; and such a validator
    never returns nil. *)
Theorem X16_deny_takes_precedence
    (nested nested' :
       ForEachValidation ContextEntry -> validator -> M JSONContext (option RuleResponse))
    (v v' : validator) (d : value) (s : JSONContext) :
  deny v = Some d ->
  deny v' = Some d ->
  rule v' = rule v ->
  contextEntries v' = contextEntries v ->
  anyAllConditions v' = anyAllConditions v ->
  validate_with nested' v' s = validate_with nested v s /\
  forall o s', validate_with nested v s = (Returned o, s') -> o <> None.
Proof.
  intros Hd Hd' Hrule Hctx Hcond.
  unfold validate_with, loadContext. rewrite Hd, Hd', Hrule, Hctx, Hcond.
  rewrite (validateDeny_rule v v' d Hrule). split; [reflexivity|].
  intros o s'. unfold bind at 1.
  destruct (contextLoader (contextEntries v) s) as [[err|] s1]; [now intros [= <- <-]|].
  unfold bind at 1, get at 1.
  destruct (CheckPreconditions s1 (anyAllConditions v)) as [[|]|err]; simpl;
    try now intros [= <- <-].
  destruct (validateDeny_total v d s1) as (r & -> & _). now intros [= <- <-].
Qed.

Lemma buildErrorMessage_rule (v v' : validator) (err path : string) :
  rule v' = rule v -> buildErrorMessage v' err path = buildErrorMessage v err path.
Proof. intros Hrule. unfold buildErrorMessage. now rewrite Hrule. Qed.

Lemma validatePatterns_pattern (v v' : validator) (resource : Unstructured) :
  is_nil (pattern v) = false ->
  pattern v' = pattern v ->
  rule v' = rule v ->
  validatePatterns v' resource = validatePatterns v resource.
Proof.
  intros Hnil Hpat Hrule. unfold validatePatterns. rewrite Hpat, Hnil. simpl.
  destruct (MatchPattern (Object resource) (pattern v)) as [[err Path Skip|err]|];
    unfold RuleSkip, RulePass; rewrite ?Hrule; try reflexivity.
  now rewrite !(buildErrorMessage_rule v v').
Qed.

(** X17.  A pattern takes precedence over anyPattern and for-each: two
    validators without deny conditions that have the same pattern (not
    nil), rule, policy context, context entries and preconditions behave
    the same, whatever their anyPatterns and for-each declarations
    are. *)
Theorem X17_pattern_takes_precedence
    (nested nested' :
       ForEachValidation ContextEntry -> validator -> M JSONContext (option RuleResponse))
    (v v' : validator) (s : JSONContext) :
  deny v = None ->
  deny v' = None ->
  is_nil (pattern v) = false ->
  pattern v' = pattern v ->
  rule v' = rule v ->
  policyContext v' = policyContext v ->
  contextEntries v' = contextEntries v ->
  anyAllConditions v' = anyAllConditions v ->
  validate_with nested' v' s = validate_with nested v s.
Proof.
  intros Hd Hd' Hnil Hpat Hrule Hpc Hctx Hcond.
  unfold validate_with, loadContext. rewrite Hd, Hd', Hrule, Hctx, Hcond, Hpat, Hnil.
  simpl negb. cbn [orb].
  apply bind_ext. intros [err|] s1 _; [reflexivity|].
  apply bind_ext. intros s2 s3 _.
  destruct (CheckPreconditions s2 (anyAllConditions v)) as [[|]|err]; simpl;
    try reflexivity.
  unfold substitutePatterns, bind, get. rewrite Hpat, Hnil. simpl.
  destruct (SubstituteAll s3 (pattern v)) as [i|err]; [|reflexivity].
  assert (Hgo : forall w w' : validator,
    is_nil (pattern w) = false -> pattern w' = pattern w -> rule w' = rule w ->
    policyContext w' = policyContext w ->
    validateResourceWithRule w' s3 = validateResourceWithRule w s3).
  { intros w w' Hn Hp Hr Hc. unfold validateResourceWithRule. rewrite Hc.
    now rewrite !(validatePatterns_pattern w w') by assumption. }
  destruct i; simpl; try reflexivity; apply Hgo; simpl; auto.
Qed.

End ValidatorBranches.

(** ** Messages *)

Section MessageFacts.
Context `{EngineEnv}.

(** X18.  The message of a failed anyPattern does not depend on whether
    the rule's message ends with a period: a rule whose (non-empty)
    message lacks the final period yields the same text as the rule with
    the period added, namely "validation error: <message>. <errors>". *)
Theorem X18_anyPattern_message_period (r r' : Rule ContextEntry) (errors : list string) :
  Validation_Message r <> "" ->
  HasSuffix (Validation_Message r) "." = false ->
  Validation_Message r' = Validation_Message r +:+ "." ->
  buildAnyPatternErrorMessage r' errors = buildAnyPatternErrorMessage r errors /\
  buildAnyPatternErrorMessage r errors
  = "validation error: " +:+ Validation_Message r +:+ ". " +:+ Join errors " ".
Proof.
  intros Hne Hsuf Hmsg. unfold buildAnyPatternErrorMessage.
  rewrite Hmsg, append_period_not_empty, HasSuffix_append_period, Hsuf.
  destruct (String.eqb (Validation_Message r) "") eqn:Heq.
  - apply String.eqb_eq in Heq. contradiction.
  - split; [|reflexivity]. f_equal. now rewrite append_assoc.
Qed.

End MessageFacts.

(** ** Nil elements of a for-each list *)

Section NilElements.
Context `{EngineEnv}.
Variable validate_nested :
  ForEachValidation ContextEntry -> validator -> M JSONContext (option RuleResponse).

Lemma validateElements_loop_nil (v : validator)
    (foreach : ForEachValidation ContextEntry) (elementScope : option bool) (len : nat)
    (elements : list value) :
  Forall (fun e => is_nil e = true) elements ->
  forall (index applyCount : nat) (s : JSONContext),
    validateElements_loop validate_nested v foreach elementScope len index elements
      applyCount s
    = (Returned (RulePass (rule v) Validation "", applyCount), s).
Proof.
  induction 1 as [|element rest Hnil _ IH]; intros index applyCount s; [reflexivity|].
  unfold validateElements_loop. cbn -[Z.of_nat Z.sub Z.ltb]. rewrite Hnil.
  apply IH.
Qed.

(** X19.  An element whose validation ends in Error aborts the loop of
    [validateElements] only at the last position of the list: when only
    nil elements follow it, the error is dropped and the loop ends with the
    empty Pass response and an unchanged count. *)
Theorem X19_error_before_nil_elements (v : validator)
    (foreach : ForEachValidation ContextEntry) (elementScope : option bool)
    (pre : list value) (element : value) (nils : list value) (applyCount : nat)
    (s s1 s2 : JSONContext) (pc' : PolicyContext) (fv : validator) (r : RuleResponse) :
  is_nil element = false ->
  AddElementToContext (pc_Copy (policyContext v)) element (length pre) (nesting v)
    elementScope (ctx_Reset s) = ((pc', None), s1) ->
  newForEachValidator foreach (nesting v + 1) (rule v) pc' = Ok fv ->
  validate_nested foreach fv s1 = (Returned (Some r), s2) ->
  Status r = RuleStatusError ->
  nils <> [] ->
  Forall (fun e => is_nil e = true) nils ->
  validateElements_loop validate_nested v foreach elementScope
    (length (pre ++ element :: nils)) (length pre) (element :: nils) applyCount s
  = (Returned (RulePass (rule v) Validation "", applyCount), s2).
Proof.
  intros Hnil Hadd Hnew Hnested Hstatus Hne Hnils.
  rewrite (validateElements_loop_step validate_nested v foreach elementScope _ _ element
             nils applyCount s s1 s2 pc' fv (Some r) Hnil Hadd Hnew Hnested).
  rewrite Hstatus.
  destruct (decide (RuleStatusError = RuleStatusSkip)) as [|_]; [discriminate|].
  destruct (decide (RuleStatusError <> RuleStatusPass)) as [_|Hc];
    [|exfalso; apply Hc; discriminate].
  destruct (decide (RuleStatusError = RuleStatusError)) as [_|Hc]; [|contradiction].
  replace (Z.of_nat (length pre) <? Z.of_nat (length (pre ++ element :: nils)) - 1)
    with true.
  - now apply validateElements_loop_nil.
  - symmetry. apply Z.ltb_lt. rewrite length_app. simpl.
    destruct nils; [contradiction|]. simpl. lia.
Qed.

End NilElements.

(** ** The image-verification pass *)

Section MoreImageVerifyFacts.
Context `{EngineEnv}.
Variable Policy : Type.
Variable pc_Policy : PolicyContext -> Policy.
Variable GetApplyRules : Policy -> ApplyRulesType.
Variable ComputeRules : Policy -> list (Rule ContextEntry).
Variable Handler : Type.
Variable ImageVerificationMetadata : Type.
Variable empty_ivm : ImageVerificationMetadata.
Variable NewMutateImageHandler :
  PolicyContext -> Unstructured -> Rule ContextEntry -> res string Handler.
Variable invokeRuleHandler :
  res string (option Handler) -> PolicyContext -> Unstructured -> Rule ContextEntry ->
  RuleType -> JSONContext * ImageVerificationMetadata ->
  (Unstructured * list RuleResponse) * (JSONContext * ImageVerificationMetadata).
Variable counts_as_applied : RuleResponse -> bool.

Local Abbreviation images_loop :=
  (verifyAndPatchImages_loop Handler ImageVerificationMetadata NewMutateImageHandler
     invokeRuleHandler counts_as_applied).

Lemma AddRuleResponse_fold (added : list RuleResponse) :
  forall resp : PolicyResponse,
    Rules (fold_left (AddRuleResponse counts_as_applied) added resp) = Rules resp ++ added /\
    RulesAppliedCount (fold_left (AddRuleResponse counts_as_applied) added resp)
    = (RulesAppliedCount resp + length (List.filter counts_as_applied added))%nat.
Proof.
  induction added as [|r added IH]; intros resp; simpl.
  - rewrite app_nil_r. split; [reflexivity|lia].
  - destruct (IH (AddRuleResponse counts_as_applied resp r)) as [-> ->]. simpl.
    rewrite <- app_assoc. split; [reflexivity|].
    destruct (counts_as_applied r); simpl; lia.
Qed.

Lemma images_loop_appends (policyContext : PolicyContext) (applyRules : ApplyRulesType)
    (rules : list (Rule ContextEntry)) :
  forall (resp : PolicyResponse) (matchedResource : Unstructured)
         (w : JSONContext * ImageVerificationMetadata),
  exists added,
    Rules (images_loop policyContext applyRules rules resp matchedResource w).1
    = Rules resp ++ added /\
    RulesAppliedCount (images_loop policyContext applyRules rules resp matchedResource w).1
    = (RulesAppliedCount resp + length (List.filter counts_as_applied added))%nat.
Proof.
  induction rules as [|r rest IH]; intros resp matchedResource w; simpl.
  - exists []. rewrite app_nil_r. simpl. split; [reflexivity|lia].
  - destruct (invokeRuleHandler _ policyContext matchedResource r ImageVerify w)
      as [[resource ruleResp] w'].
    destruct (AddRuleResponse_fold ruleResp resp) as [Hr Hc].
    destruct (bool_decide (applyRules = ApplyOne) && _).
    + exists ruleResp. simpl. now split.
    + destruct (IH (fold_left (AddRuleResponse counts_as_applied) ruleResp resp) resource w')
        as (added & Hr' & Hc').
      exists (ruleResp ++ added). rewrite Hr', Hc', Hr, Hc.
      rewrite <- app_assoc, List.filter_app, length_app. split; [reflexivity|lia].
Qed.

(** X20.  In the response of [verifyAndPatchImages] the counter
    [RulesAppliedCount] is the number of the listed rule responses that
    count as applied, and the JSON context it leaves is one that [Restore]
    has produced. *)
Theorem X20_images_applied_count (policyContext : PolicyContext) (s : JSONContext) :
  let run := verifyAndPatchImages Policy pc_Policy GetApplyRules ComputeRules Handler
               ImageVerificationMetadata empty_ivm NewMutateImageHandler
               invokeRuleHandler counts_as_applied policyContext s in
  RulesAppliedCount run.1.1
  = length (List.filter counts_as_applied (Rules run.1.1)) /\
  exists s1, run.2 = ctx_Restore s1.
Proof.
  unfold verifyAndPatchImages. cbv zeta.
  destruct (images_loop_appends policyContext (GetApplyRules (pc_Policy policyContext))
              (ComputeRules (pc_Policy policyContext)) NewPolicyResponse
              (pc_NewResource policyContext) (ctx_Checkpoint s, empty_ivm))
    as (added & Hr & Hc).
  destruct (images_loop _ _ _ _ _ _) as [resp [s1 ivm]]. simpl in *.
  rewrite Hr, Hc. simpl. split; [reflexivity|eauto].
Qed.

(** X21.  When the image-verification loop in mode ApplyAll ends with
    [RulesAppliedCount] zero, the loop in mode ApplyOne does the same on
    the same rules: it stops at no rule and returns the same response and
    state. *)
Theorem X21_apply_one_without_applied_rule (policyContext : PolicyContext)
    (rules : list (Rule ContextEntry)) :
  forall (resp : PolicyResponse) (matchedResource : Unstructured)
         (w : JSONContext * ImageVerificationMetadata),
    RulesAppliedCount (images_loop policyContext ApplyAll rules resp matchedResource w).1
    = 0%nat ->
    images_loop policyContext ApplyOne rules resp matchedResource w
    = images_loop policyContext ApplyAll rules resp matchedResource w.
Proof.
  induction rules as [|r rest IH]; intros resp matchedResource w; simpl; [reflexivity|].
  destruct (invokeRuleHandler _ policyContext matchedResource r ImageVerify w)
    as [[resource ruleResp] w'].
  intros Hzero.
  destruct (images_loop_appends policyContext ApplyAll rest
              (fold_left (AddRuleResponse counts_as_applied) ruleResp resp) resource w')
    as (added & _ & Hc).
  replace (0 <? RulesAppliedCount
                  (fold_left (AddRuleResponse counts_as_applied) ruleResp resp))%nat
    with false.
  - now apply IH.
  - symmetry. apply Nat.ltb_ge. lia.
Qed.

End MoreImageVerifyFacts.

(** ** The mutate-existing handler *)

Section MutateExistingFacts.
Context `{EngineEnv}.
Variable target : Type.
Variable target_Object : target -> option (gmap string value).
Variable target_context : target -> list ContextEntry.
Variable target_preconditions : target -> value.
Variable loadTargets :
  Rule ContextEntry -> PolicyContext -> JSONContext ->
  (list target * option string) * JSONContext.
Variable AddTargetResource : gmap string value -> JSONContext -> option string * JSONContext.
Variable hasForEachMutation : Rule ContextEntry -> bool.
Variable mutate_Response : Type.
Variable mutateForEach :
  Rule ContextEntry -> PolicyContext -> target -> JSONContext -> mutate_Response * JSONContext.
Variable Mutate : Rule ContextEntry -> target -> JSONContext -> mutate_Response * JSONContext.
Variable buildRuleResponse :
  Rule ContextEntry -> mutate_Response -> target -> option RuleResponse.

Local Abbreviation targets_loop :=
  (mutateExisting_loop target target_Object target_context target_preconditions
     AddTargetResource hasForEachMutation mutate_Response mutateForEach Mutate
     buildRuleResponse).

Lemma mutateExisting_loop_appends (policyContext : PolicyContext) (r : Rule ContextEntry)
    (targets : list target) :
  forall (responses : list RuleResponse) (s : JSONContext),
  exists added,
    (targets_loop policyContext r targets responses s).1 = responses ++ added /\
    (length added <= length (filter (fun t => is_Some (target_Object t)) targets))%nat /\
    Forall (handled_target buildRuleResponse r targets) added.
Proof.
  induction targets as [|t rest IH]; intros responses s.
  - exists []. simpl. rewrite app_nil_r. repeat split; [lia|constructor].
  - assert (Hweak : forall added,
      Forall (handled_target buildRuleResponse r rest) added ->
      Forall (handled_target buildRuleResponse r (t :: rest)) added).
    { intros added Hall. eapply Forall_impl; [exact Hall|].
      intros rr [Hown|(resp & t' & Hin & Hb)]; [now left|right].
      exists resp, t'. split; [now apply list_elem_of_further|exact Hb]. }
    assert (Hadd : forall rr responses s,
      handled_target buildRuleResponse r (t :: rest) rr ->
      exists added,
        (targets_loop policyContext r rest (responses ++ [rr]) s).1 = responses ++ added /\
        (length added <= S (length (filter (fun t => is_Some (target_Object t)) rest)))%nat /\
        Forall (handled_target buildRuleResponse r (t :: rest)) added).
    { intros rr responses' s' Hrr.
      destruct (IH (responses' ++ [rr]) s') as (added & Heq & Hlen & Hall).
      exists (rr :: added). rewrite Heq, <- app_assoc. split; [reflexivity|].
      split; [simpl; lia|]. constructor; [exact Hrr|now apply Hweak]. }
    simpl. rewrite filter_cons.
    destruct (target_Object t) as [object|] eqn:Hobj.
    + rewrite decide_True by eauto. simpl length.
      assert (Hcont : forall responses s, exists added,
        (targets_loop policyContext r rest responses s).1 = responses ++ added /\
        (length added <= S (length (filter (fun t => is_Some (target_Object t)) rest)))%nat /\
        Forall (handled_target buildRuleResponse r (t :: rest)) added).
      { intros responses' s'. destruct (IH responses' s') as (added & Heq & Hlen & Hall).
        exists added. split; [exact Heq|]. split; [lia|now apply Hweak]. }
      destruct (AddTargetResource object s) as [[err|] s1]; [apply Hcont|].
      destruct (contextLoader (target_context t) s1) as [[err|] s2].
      { apply Hadd. left. repeat split. now left. }
      destruct (CheckPreconditions s2 (target_preconditions t)) as [[|]|err]; simpl.
      * destruct (if hasForEachMutation r then _ else _) as [mutateResp s3].
        destruct (buildRuleResponse r mutateResp t) as [ruleResponse|] eqn:Hb;
          [|apply Hcont].
        apply Hadd. right. exists mutateResp, t. split; [apply list_elem_of_here|exact Hb].
      * apply Hadd. left. repeat split. now right.
      * apply Hadd. left. repeat split. now left.
    + rewrite decide_False by (intros [x Hx]; discriminate).
      destruct (IH responses s) as (added & Heq & Hlen & Hall).
      exists added. split; [exact Heq|]. split; [exact Hlen|now apply Hweak].
Qed.

(** The responses the loop adds do not depend on those it starts
    with. *)
Lemma mutateExisting_loop_from_nil (policyContext : PolicyContext) (r : Rule ContextEntry)
    (targets : list target) :
  forall (responses : list RuleResponse) (s : JSONContext),
    targets_loop policyContext r targets responses s
    = (responses ++ (targets_loop policyContext r targets [] s).1,
       (targets_loop policyContext r targets [] s).2).
Proof.
  induction targets as [|t rest IH]; intros responses s; simpl.
  - now rewrite app_nil_r.
  - assert (Hadd : forall rr s',
      targets_loop policyContext r rest (responses ++ [rr]) s'
      = (responses ++ (targets_loop policyContext r rest [rr] s').1,
         (targets_loop policyContext r rest [rr] s').2)).
    { intros rr s'. rewrite (IH (responses ++ [rr]) s'), (IH [rr] s'). simpl.
      now rewrite <- app_assoc. }
    destruct (target_Object t) as [object|]; [|apply IH].
    destruct (AddTargetResource object s) as [[err|] s1]; [apply IH|].
    destruct (contextLoader (target_context t) s1) as [[err|] s2]; [apply Hadd|].
    destruct (CheckPreconditions s2 (target_preconditions t)) as [[|]|err]; simpl;
      try apply Hadd.
    destruct (if hasForEachMutation r then _ else _) as [mutateResp s3].
    destruct (buildRuleResponse r mutateResp t); [apply Hadd|apply IH].
Qed.

(** When adding a target to the context never fails and
    [buildRuleResponse] always builds a response, every target with a
    document gets its response, in the order of the targets. *)
Lemma mutateExisting_loop_answers (policyContext : PolicyContext) (r : Rule ContextEntry)
    (targets : list target) :
  (forall object s, (AddTargetResource object s).1 = None) ->
  (forall resp t, buildRuleResponse r resp t <> None) ->
  forall s : JSONContext,
    Forall2 (answers_target buildRuleResponse r)
      (filter (fun t => is_Some (target_Object t)) targets)
      (targets_loop policyContext r targets [] s).1.
Proof.
  intros Hadd Hbuild.
  induction targets as [|t rest IH]; intros s; simpl; [constructor|].
  rewrite filter_cons.
  destruct (target_Object t) as [object|] eqn:Hobj.
  2: { rewrite decide_False by (intros [x Hx]; discriminate). apply IH. }
  rewrite decide_True by eauto.
  assert (Hown : forall rr s',
    Name rr = Rule_Name r -> Type_ rr = Mutation ->
    Status rr = RuleStatusError \/ Status rr = RuleStatusSkip ->
    Forall2 (answers_target buildRuleResponse r)
      (t :: filter (fun t => is_Some (target_Object t)) rest)
      (targets_loop policyContext r rest [rr] s').1).
  { intros rr s' Hn Ht Hs. rewrite (mutateExisting_loop_from_nil policyContext r rest [rr] s').
    simpl. constructor; [now left|apply IH]. }
  pose proof (Hadd object s) as Hnone.
  destruct (AddTargetResource object s) as [err s1]. simpl in Hnone. subst err.
  destruct (contextLoader (target_context t) s1) as [[err|] s2].
  { apply Hown; [reflexivity|reflexivity|now left]. }
  destruct (CheckPreconditions s2 (target_preconditions t)) as [[|]|err]; simpl.
  - destruct (if hasForEachMutation r then _ else _) as [mutateResp s3].
    destruct (buildRuleResponse r mutateResp t) as [ruleResponse|] eqn:Hb;
      [|now destruct (Hbuild mutateResp t)].
    rewrite (mutateExisting_loop_from_nil policyContext r rest [ruleResponse] s3). simpl.
    constructor; [right; eauto|apply IH].
  - apply Hown; [reflexivity|reflexivity|now right].
  - apply Hown; [reflexivity|reflexivity|now left].
Qed.

(** X22.  The mutate-existing handler returns the resource it was given.
    A failure to load the targets is reported first, as an Error, and
    does not keep the targets that were returned from being gone through:
    what follows the report are the responses of the loop over these
    targets, the same as without a failure.  They are at most one per
    target with a document, each either a report of the handler itself
    (for the rule, of type Mutation, Error or Skip) or what
    [buildRuleResponse] made of the mutation of a target; and when adding
    a target to the context never fails and [buildRuleResponse] always
    builds a response, they are exactly one per target with a document,
    in the order of the targets. *)
Theorem X22_mutate_existing_responses (policyContext : PolicyContext)
    (resource : Unstructured) (r : Rule ContextEntry) (s s1 : JSONContext)
    (targets : list target) (err : option string) :
  loadTargets r policyContext s = ((targets, err), s1) ->
  exists added,
    (mutateExisting_Process target target_Object target_context target_preconditions
       loadTargets AddTargetResource hasForEachMutation mutate_Response mutateForEach
       Mutate buildRuleResponse policyContext resource r s).1
    = (resource,
       match err with
       | Some err => [RuleError r Mutation "" err]
       | None => []
       end ++ added) /\
    added = (targets_loop policyContext r targets [] s1).1 /\
    (length added <= length (filter (fun t => is_Some (target_Object t)) targets))%nat /\
    Forall (handled_target buildRuleResponse r targets) added /\
    ((forall object s, (AddTargetResource object s).1 = None) ->
     (forall resp t, buildRuleResponse r resp t <> None) ->
     Forall2 (answers_target buildRuleResponse r)
       (filter (fun t => is_Some (target_Object t)) targets) added).
Proof.
  intros Hload. unfold mutateExisting_Process. rewrite Hload.
  rewrite (mutateExisting_loop_from_nil policyContext r targets
             match err with Some err => [RuleError r Mutation "" err] | None => [] end s1).
  destruct (mutateExisting_loop_appends policyContext r targets [] s1)
    as (added & Heq & Hlen & Hall).
  simpl in Heq. exists added. rewrite Heq.
  split; [reflexivity|]. split; [reflexivity|]. split; [exact Hlen|]. split; [exact Hall|].
  intros Hadd Hbuild. rewrite <- Heq.
  now apply mutateExisting_loop_answers.
Qed.

End MutateExistingFacts.

(** ** Further runs on the stand-ins *)

Section MoreExamples.
Import Reference Fixtures.

Lemma X2_witness :
  min_int64 <= max_int64 <= max_int64 /\
  exists c,
    Add (ODuration max_int64) (ODuration 1) add_name = Ok (RDurationString c) /\
    min_int64 <= c <= max_int64 /\
    Subtract (ODuration c) (ODuration 1) = Ok (RDurationString max_int64).
Proof.
  split; [vm_compute; split; discriminate|].
  apply (X2_duration_add_subtract (H := whole_quantities) max_int64 1).
  vm_compute. split; discriminate.
Defined.

Lemma X3_witness :
  Modulo (OScalar f7) (OScalar f2) = Ok (RFloat f1) /\
  exists f, RFloat f1 = RFloat f /\ has_fraction f = false /\
            f = of_int (Z.rem (to_int64 f7) (to_int64 f2)) /\
            eqb f7 (of_int (to_int64 f7)) = true /\
            eqb f2 (of_int (to_int64 f2)) = true /\
            to_int64 f2 <> 0.
Proof.
  split; [vm_compute; reflexivity|].
  apply (X3_scalar_modulo_result (H := whole_quantities) f7 f2 (RFloat f1)).
  vm_compute. reflexivity.
Defined.

Lemma X4_witness :
  unreadable [VNull; VNumber f1] 0 /\
  jp_handler OpAdd [VNull; VNumber f1]
  = Err (formatError genericError (operator_name OpAdd) ["invalid operands"]).
Proof.
  split; [exact I|].
  apply (proj1 (X4_invalid_operands (H := whole_quantities) OpAdd [VNull; VNumber f1])).
  left. exact I.
Defined.

Lemma X6_witness :
  jpSum print_Z print_Z [VArray []]
  = Returned (Err (formatError genericError sum_name
                     ["at least one element in the array is required"])) /\
  formatError genericError sum_name ["at least one element in the array is required"]
  = formatError genericError sum_name ["at least one element in the array is required"].
Proof.
  split; [reflexivity|].
  apply (proj1 (proj2 (X6_sum_errors (H := whole_quantities) print_Z print_Z [VArray []]
                         _ eq_refl))).
  reflexivity.
Defined.

Lemma X8_witness :
  Forall2 (fun ikey k => ifaceToString print_float ikey = Ok k)
    [VString "a"; VBool true] ["a"; "true"]%string /\
  exists output : gmap string value,
    jpObjectFromLists print_float [VArray [VString "a"; VBool true]; VArray [VNumber f1]]
    = Returned (Ok (VObject output)) /\
    output !! "a"%string = Some (VNumber f1) /\
    output !! "true"%string = Some VNull.
Proof.
  assert (Hks : Forall2 (fun ikey k => ifaceToString print_float ikey = Ok k)
                  [VString "a"; VBool true] ["a"; "true"]%string)
    by (repeat constructor).
  split; [exact Hks|].
  destruct (proj1 (X8_object_from_lists print_float [VString "a"; VBool true]
                     [VNumber f1]) _ Hks) as (output & Hrun & _ & Hlast).
  exists output. split; [exact Hrun|]. split.
  - apply (Hlast 0%nat "a"%string eq_refl). intros [|[|j']] Hlt; try discriminate; lia.
  - apply (Hlast 1%nat "true"%string eq_refl). intros [|[|j']] Hlt; try discriminate; lia.
Defined.

Lemma X9_witness :
  range_backward ab_map ≡ₚ (map_to_list ab_map).*1 /\
  jpObjectFromLists print_float
    [VArray (VString <$> range_backward ab_map);
     VArray (map_index ab_map <$> range_backward ab_map)]
  = Returned (Ok (VObject ab_map)).
Proof.
  assert (Hperm : range_backward ab_map ≡ₚ (map_to_list ab_map).*1)
    by apply reverse_Permutation.
  split; [exact Hperm|].
  apply (X9_object_from_lists_round_trip print_float ab_map (range_backward ab_map) Hperm).
Defined.

Lemma ab_map_scalars (k : string) (v : value) : ab_map !! k = Some v -> is_scalar v.
Proof.
  unfold ab_map. intros Hv.
  apply lookup_insert_Some in Hv as [[_ <-]|[_ Hv]]; [exact I|].
  apply lookup_insert_Some in Hv as [[_ <-]|[_ Hv]]; [exact I|].
  now rewrite lookup_empty in Hv.
Qed.

Lemma X10_witness :
  range_backward ab_map ≡ₚ (map_to_list ab_map).*1 /\
  exists b : bool,
    jpLabelMatch range_backward [VObject ab_map; VObject ab_map] = Returned (Ok (VBool b)) /\
    (b = true <->
     forall k v, ab_map !! k = Some v ->
                 exists val, ab_map !! k = Some val /\ iface_eq val v = Some true).
Proof.
  assert (Hperm : range_backward ab_map ≡ₚ (map_to_list ab_map).*1)
    by apply reverse_Permutation.
  split; [exact Hperm|].
  destruct (X10_label_match range_backward ab_map ab_map Hperm ab_map_scalars)
    as (b & Hrun & Hb & _).
  exists b. split; [exact Hrun|exact Hb].
Defined.

Lemma X12_witness :
  exists r,
    validateDeny v_deny VNull [] = (Returned (Some r), []) /\
    Status r = RuleStatusPass /\
    Message r = "validation rule 'r' passed."%string.
Proof.
  destruct (X12_validateDeny_total (H := list_engine) v_deny VNull []) as (r & Hrun & _ & Hst).
  exists r. split; [exact Hrun|exact Hst].
Defined.

Lemma X13_witness :
  validateElements nested_by_element v_foreach (foreach_pattern VNull)
    [VBool true; VBool false; VNull] None []
  = (Returned (mkRuleResponse "r" Validation "" RuleStatusPass, 1%nat), []) /\
  (1 <= 3)%nat /\
  of_rule (rule v_foreach) (mkRuleResponse "r" Validation "" RuleStatusPass).
Proof.
  split; [vm_compute; reflexivity|].
  destruct (X13_validateElements_response (H := list_engine) nested_by_element v_foreach
              (foreach_pattern VNull) [VBool true; VBool false; VNull] None [] []
              (mkRuleResponse "r" Validation "" RuleStatusPass) 1%nat eq_refl)
    as (Hn & Hof & _).
  split; [exact Hn|exact Hof].
Defined.

Lemma X14_witness :
  validateForEach nested_by_element v_foreach [VBool false]
  = (Returned (Some (mkRuleResponse "r" Validation "rule skipped" RuleStatusSkip)),
     [VBool false]) /\
  forEach v_foreach <> None.
Proof.
  split; [vm_compute; reflexivity|].
  destruct (X14_validateForEach_response (H := list_engine) nested_by_element v_foreach
              [VBool false] [VBool false]
              (Some (mkRuleResponse "r" Validation "rule skipped" RuleStatusSkip)) eq_refl)
    as (Hnone & _).
  intros Hnil. apply Hnone in Hnil. discriminate.
Defined.

Lemma X15_witness :
  Process VNull (mkUnstructured (Some ∅)) (rule_foreach "r" (VBool true)) [VNumber f1]
  = (Returned (mkUnstructured (Some ∅),
               [mkRuleResponse "r" Validation "rule passed" RuleStatusPass]),
     [VNumber f1]) /\
  Forall (of_rule (rule_foreach "r" (VBool true)))
    [mkRuleResponse "r" Validation "rule passed" RuleStatusPass].
Proof.
  split; [vm_compute; reflexivity|].
  apply (X15_Process_responses (H := list_engine) VNull (mkUnstructured (Some ∅))
           (rule_foreach "r" (VBool true)) [VNumber f1] [VNumber f1]
           (mkUnstructured (Some ∅))
           [mkRuleResponse "r" Validation "rule passed" RuleStatusPass]).
  vm_compute. reflexivity.
Defined.

Lemma X16_witness :
  deny v_deny = Some VNull /\
  validate_with nested_by_element v_deny_foreach [] = validate_with nested_by_element v_deny [].
Proof.
  split; [reflexivity|].
  apply (X16_deny_takes_precedence (H := list_engine) nested_by_element nested_by_element
           v_deny v_deny_foreach VNull [] eq_refl eq_refl eq_refl eq_refl eq_refl).
Defined.

Lemma X17_witness :
  is_nil (pattern v_pattern) = false /\
  validate_with nested_by_element v_pattern_foreach []
  = validate_with nested_by_element v_pattern [].
Proof.
  split; [reflexivity|].
  apply (X17_pattern_takes_precedence (H := list_engine) nested_by_element
           nested_by_element v_pattern v_pattern_foreach []
           eq_refl eq_refl eq_refl eq_refl eq_refl eq_refl eq_refl eq_refl).
Defined.

Lemma X18_witness :
  HasSuffix "use a tag" "." = false /\
  buildAnyPatternErrorMessage (rule_message "r" "use a tag.") ["rule r[0] failed"%string]
  = buildAnyPatternErrorMessage (rule_message "r" "use a tag") ["rule r[0] failed"%string].
Proof.
  split; [reflexivity|].
  apply (X18_anyPattern_message_period (H := list_engine) (rule_message "r" "use a tag")
           (rule_message "r" "use a tag.") ["rule r[0] failed"%string]);
    [discriminate|reflexivity|reflexivity].
Defined.

Lemma X19_witness :
  Status (mkRuleResponse "r" Validation "boom" RuleStatusError) = RuleStatusError /\
  validateElements_loop nested_by_element v_foreach (foreach_pattern VNull) None
    (length ([] ++ [VString "boom"; VNull])) (length (@nil value))
    [VString "boom"; VNull] 0 []
  = (Returned (RulePass (rule v_foreach) Validation "", 0%nat), []).
Proof.
  split; [reflexivity|].
  apply (X19_error_before_nil_elements (H := list_engine) nested_by_element v_foreach
           (foreach_pattern VNull) None [] (VString "boom") [VNull] 0%nat [] [] []
           (VString "boom") v_boom (mkRuleResponse "r" Validation "boom" RuleStatusError)
           eq_refl eq_refl eq_refl eq_refl eq_refl).
  - discriminate.
  - repeat constructor.
Defined.

Lemma X21_witness :
  RulesAppliedCount (image_run_uncounted ApplyAll [image_rule "r1"; image_rule "r2"]).1
  = 0%nat /\
  image_run_uncounted ApplyOne [image_rule "r1"; image_rule "r2"]
  = image_run_uncounted ApplyAll [image_rule "r1"; image_rule "r2"] /\
  (image_run_uncounted ApplyOne [image_rule "r1"; image_rule "r2"]).2.2
  = ["r1"; "r2"]%string.
Proof.
  split; [reflexivity|]. split; [|reflexivity].
  apply (X21_apply_one_without_applied_rule (H := list_engine) unit (list string)
           (fun _ _ _ => Ok tt) logging_invoke (fun _ => false) VNull
           [image_rule "r1"; image_rule "r2"]).
  reflexivity.
Defined.

Lemma X22_witness :
  load_two_targets (rule_without_validation "r") VNull []
  = (([None; Some ∅], Some "target not found"%string), []) /\
  mutate_run.1
  = (mkUnstructured (Some ∅),
     [RuleError (rule_without_validation "r") Mutation "" "target not found";
      mkRuleResponse "r" Mutation "mutated" RuleStatusPass]) /\
  exists added,
    mutate_run.1
    = (mkUnstructured (Some ∅),
       [RuleError (rule_without_validation "r") Mutation "" "target not found"] ++ added) /\
    length added = 1%nat.
Proof.
  split; [reflexivity|]. split; [reflexivity|].
  destruct (X22_mutate_existing_responses (H := list_engine)
              (option (gmap string value)) (fun t => t) (fun _ => [])
              (fun _ => VNull) load_two_targets (fun _ s => (None, s)) (fun _ => false) string
              (fun r _ t s => mutate_target r t s) mutate_target report_pass
              VNull (mkUnstructured (Some ∅)) (rule_without_validation "r") [] []
              [None; Some ∅] (Some "target not found"%string) eq_refl)
    as (added & Hrun & _ & _ & _ & Hall).
  exists added. split; [exact Hrun|].
  assert (Hone : Forall2 (answers_target report_pass (rule_without_validation "r"))
                   [Some (∅ : gmap string value)] added).
  { apply Hall; [reflexivity|discriminate]. }
  apply Forall2_length in Hone. simpl in Hone. congruence.
Defined.

Lemma X23_witness :
  validate_with nested_by_element v_nothing [] = (Returned None, []) /\
  deny v_nothing = None /\ forEach v_nothing = None.
Proof.
  split; [reflexivity|].
  destruct (X23_validate_nil_response (H := list_engine) nested_by_element v_nothing [] []
              eq_refl) as (Hdeny & [(_ & _ & Hfe)|(_ & _ & Hdel)]).
  - split; [exact Hdeny|exact Hfe].
  - discriminate Hdel.
Defined.

End MoreExamples.
